(** * InterviewPOS: the transaction ledger and refund engine of server/index.js

    The Express handlers of [server/index.js] are embedded as functions from a
    store to a store and a response.  The store is the Supabase database the
    handlers talk to, one finite map per table, keyed by the row id.

    Conventions of the embedding.
    - A JavaScript number that carries money or a rate is an exact rational
      ([Q]); [==] is numeric equality.  Binary floating point is not
      modelled: every statement below is about exact arithmetic.
    - Ids are generated by the store; each table has a counter that only
      grows, as a database sequence does.
    - The schema is not part of the sources.  The two constraints the
      handlers themselves rely on are modelled: the cascade from
      [pos_transaction] to [transaction_line] (comment in the cancel
      handler) and the unique [refund.original_tx] (the handling of error
      code 23505 in the refund handler).
    - A store call succeeds whenever these constraints allow it, with one
      exception: the per item quantity update of finalize and refund can be
      rejected, because the handlers have a branch that logs the rejection
      and carries on.

    The item endpoints and the read endpoints of [server/index.js] are
    embedded the same way further down, with one more constraint of the
    schema, that a barcode belongs to one item; so are the handlers of
    [client/src/screens/CashierScreen.js] and
    [client/src/screens/ItemsScreen.js] that call them, as functions of the
    state of the screen and the store. *)

From Stdlib Require Import QArith Qround Lqa ZArith String Ascii List Permutation Lia.
From stdpp Require Import gmap strings list fin_maps sorting.

Local Open Scope Q_scope.

(** ** Numbers *)

(** [a < b] on JavaScript numbers. *)
Definition Qltb (a b : Q) : bool := negb (Qle_bool b a).

(** [x.toFixed(2)], read back as a number: the multiple of 1/100 nearest to
    [x]; of two equally near ones the larger in magnitude (the sign is
    split off first, then the larger [n] is picked). *)
Definition toFixed2_abs (y : Q) : Q := Qfloor (y * 100 + (1 # 2)) # 100.

Definition toFixed2 (x : Q) : Q :=
  if Qltb x 0 then - toFixed2_abs (- x) else toFixed2_abs x.

(** ** Strings: [barcode.trim()] on ASCII white space *)

Definition is_space (c : ascii) : bool :=
  match nat_of_ascii c with
  | 9%nat | 10%nat | 11%nat | 12%nat | 13%nat | 32%nat => true
  | _ => false
  end.

Fixpoint trim_start (s : string) : string :=
  match s with
  | EmptyString => EmptyString
  | String c s' => if is_space c then trim_start s' else s
  end.

Fixpoint trim_end (s : string) : string :=
  match s with
  | EmptyString => EmptyString
  | String c s' =>
      match trim_end s' with
      | EmptyString => if is_space c then EmptyString else String c EmptyString
      | t => String c t
      end
  end.

Definition trim (s : string) : string := trim_end (trim_start s).

(** ** Rows of the five tables (section 6 of the specification) *)

Module Item.
Record t := mk {
  name : string;
  price : Q;
  tax_rate : Q;
  quantity : Z;
  is_active : bool
}.
Definition with_quantity (q : Z) (i : t) : t :=
  mk (name i) (price i) (tax_rate i) q (is_active i).
End Item.

Module Tx.
Inductive status := open | finalized | refunded.
Record t := mk {
  status_of : status;
  subtotal : Q;
  tax : Q;
  total : Q
}.
Definition with_status (st : status) (x : t) : t :=
  mk st (subtotal x) (tax x) (total x).
Definition with_totals (a b c : Q) (x : t) : t :=
  mk (status_of x) a b c.
End Tx.

Module Line.
Record t := mk {
  transaction_id : nat;
  item_id : nat;
  quantity : Z;
  unit_price : Q;
  tax_rate : Q;
  line_total : Q;
  refunded_by : option nat
}.
Definition with_refunded_by (r : nat) (l : t) : t :=
  mk (transaction_id l) (item_id l) (quantity l) (unit_price l)
     (tax_rate l) (line_total l) (Some r).
End Line.

Module Refund.
Record t := mk {
  original_tx : nat;
  refund_tx : nat
}.
End Refund.

Module Payment.
Inductive method := cash.
Record t := mk {
  transaction_id : nat;
  method_of : method;
  amount : Q
}.
End Payment.

#[global] Instance status_eq_dec : EqDecision Tx.status.
Proof. solve_decision. Defined.

(** ** The store *)

Record db := mkdb {
  item : gmap nat Item.t;
  item_barcode : gmap string nat;
  pos_transaction : gmap nat Tx.t;
  transaction_line : gmap nat Line.t;
  refund : gmap nat Refund.t;
  payment : list Payment.t;
  (* the sequences behind the generated ids *)
  next_transaction : nat;
  next_line : nat;
  next_refund : nat;
  (* item rows whose quantity update the store rejects *)
  item_update_rejected : gset nat
}.

Definition set_item (f : gmap nat Item.t → gmap nat Item.t) (s : db) : db :=
  mkdb (f (item s)) (item_barcode s) (pos_transaction s) (transaction_line s)
       (refund s) (payment s) (next_transaction s) (next_line s)
       (next_refund s) (item_update_rejected s).

Definition set_pos_transaction (f : gmap nat Tx.t → gmap nat Tx.t) (s : db) : db :=
  mkdb (item s) (item_barcode s) (f (pos_transaction s)) (transaction_line s)
       (refund s) (payment s) (next_transaction s) (next_line s)
       (next_refund s) (item_update_rejected s).

Definition set_transaction_line (f : gmap nat Line.t → gmap nat Line.t) (s : db) : db :=
  mkdb (item s) (item_barcode s) (pos_transaction s) (f (transaction_line s))
       (refund s) (payment s) (next_transaction s) (next_line s)
       (next_refund s) (item_update_rejected s).

(** ** Responses *)

(** One constructor per error response of the ledger handlers. *)
Inductive error :=
  | BarcodeRequired          (* 400 'Barcode is required' *)
  | InvalidQuantity          (* 400 'Invalid quantity' *)
  | BarcodeNotFound          (* 404 'Barcode not found' *)
  | ItemInactive             (* 404 'Item is inactive' *)
  | ItemNotFound             (* 404 'Item not found' *)
  | AddLineFailed            (* 500 'Failed to add item to transaction' *)
  | FetchTransactionFailed   (* 500 'Failed to fetch transaction' *)
  | InvalidCashAmount        (* 400 'Invalid cash amount' *)
  | TransactionNotFound      (* 404 'Transaction not found' *)
  | TransactionNotOpen       (* 400 'Transaction is not open' *)
  | InsufficientCash         (* 400 'Insufficient cash amount' *)
  | OnlyOpenCancelled        (* 400 'Only open transactions can be cancelled' *)
  | LineIdsRequired          (* 400 'lineIds array is required' *)
  | OnlyFinalizedRefunded    (* 400 'Only finalized transactions can be refunded' *)
  | LinesDoNotExist          (* 400 'Some selected lines do not exist' *)
  | LinesAlreadyRefunded     (* 400 'Some selected lines have already been refunded' *)
  | RefundRecordFailed.      (* 500 'Failed to handle refund record' *)

(** The taxonomy of section 7 of the specification. *)
Inductive failure := InvalidInput | NotFound | InvalidState | InsufficientPayment | Internal.

Definition kind (e : error) : failure :=
  match e with
  | BarcodeRequired | InvalidQuantity | InvalidCashAmount
  | LineIdsRequired | LinesDoNotExist | LinesAlreadyRefunded => InvalidInput
  | BarcodeNotFound | ItemInactive | ItemNotFound | TransactionNotFound => NotFound
  | TransactionNotOpen | OnlyOpenCancelled | OnlyFinalizedRefunded => InvalidState
  | InsufficientCash => InsufficientPayment
  | AddLineFailed | FetchTransactionFailed | RefundRecordFailed => Internal
  end.

Inductive response (A : Type) :=
  | Ok (a : A)
  | Err (e : error).
Arguments Ok {A} a.
Arguments Err {A} e.

(** ** Store queries and writes *)

(** [.single()]: the row when the query matched exactly one, an error
    otherwise. *)
Definition single {A : Type} (rows : list A) : option A :=
  match rows with
  | [row] => Some row
  | _ => None
  end.

(** [from('transaction_line').select(..).eq('transaction_id', t)] *)
Definition lines_of (s : db) (t : nat) : list (nat * Line.t) :=
  filter (λ kv, Line.transaction_id kv.2 = t) (map_to_list (transaction_line s)).

(** [from('refund').select('*').eq('original_tx', t)] *)
Definition refunds_of (s : db) (t : nat) : list (nat * Refund.t) :=
  filter (λ kv, Refund.original_tx kv.2 = t) (map_to_list (refund s)).

(** [from('pos_transaction').insert(row).select().single()] *)
Definition insert_transaction (row : Tx.t) (s : db) : nat * db :=
  let id := next_transaction s in
  (id, mkdb (item s) (item_barcode s) (<[id := row]> (pos_transaction s))
            (transaction_line s) (refund s) (payment s)
            (S id) (next_line s) (next_refund s) (item_update_rejected s)).

(** Modelled from the spec: the schema of [transaction_line], which is not
    in the sources.  A line has an owning transaction (section 3), and the
    cancel handler relies on the cascade from the transaction to its lines,
    so [from('transaction_line').insert(row).select().single()] is refused
    for a row that references no transaction of the store. *)
Definition insert_line (row : Line.t) (s : db) : option (nat * db) :=
  match pos_transaction s !! Line.transaction_id row with
  | None => None
  | Some _ =>
      let id := next_line s in
      Some (id, mkdb (item s) (item_barcode s) (pos_transaction s)
                     (<[id := row]> (transaction_line s)) (refund s) (payment s)
                     (next_transaction s) (S id) (next_refund s)
                     (item_update_rejected s))
  end.

(** Modelled from the spec: the schema of [refund], which is not in the
    sources.  There is at most one refund record per original transaction
    (section 3), and the refund handler expects error 23505 from
    [from('refund').insert(row).select().single()] when there is one
    already; [None] is that error. *)
Definition insert_refund (row : Refund.t) (s : db) : option (nat * db) :=
  match refunds_of s (Refund.original_tx row) with
  | [] =>
      let id := next_refund s in
      Some (id, mkdb (item s) (item_barcode s) (pos_transaction s)
                     (transaction_line s) (<[id := row]> (refund s)) (payment s)
                     (next_transaction s) (next_line s) (S id)
                     (item_update_rejected s))
  | _ :: _ => None
  end.

(** [from('payment').insert(row)] *)
Definition insert_payment (row : Payment.t) (s : db) : db :=
  mkdb (item s) (item_barcode s) (pos_transaction s) (transaction_line s)
       (refund s) (payment s ++ [row]) (next_transaction s) (next_line s)
       (next_refund s) (item_update_rejected s).

(** [from('item').update({ quantity: q }).eq('id', id)]; a rejected update
    leaves the row as it was. *)
Definition update_item_quantity (id : nat) (q : Z) (s : db) : db :=
  if decide (id ∈ item_update_rejected s) then s
  else set_item (alter (Item.with_quantity q) id) s.

(** [from('pos_transaction').update({ status: st }).eq('id', t)] *)
Definition update_status (t : nat) (st : Tx.status) (s : db) : db :=
  set_pos_transaction (alter (Tx.with_status st) t) s.

(** [from('transaction_line').update({ refunded_by: r }).eq('id', lineId)] *)
Definition mark_refunded (r : nat) (s : db) (lineId : nat) : db :=
  set_transaction_line (alter (Line.with_refunded_by r) lineId) s.

(** Modelled from the spec: the cascade of the schema, which is not in the
    sources.  Cancel deletes the transaction and all its lines (section
    4.2); the handler only issues
    [from('pos_transaction').delete().eq('id', t)] and notes that the
    cascade deletes the lines. *)
Definition delete_transaction (t : nat) (s : db) : db :=
  mkdb (item s) (item_barcode s) (delete t (pos_transaction s))
       (filter (λ kv, Line.transaction_id kv.2 ≠ t) (transaction_line s))
       (refund s) (payment s) (next_transaction s) (next_line s)
       (next_refund s) (item_update_rejected s).

(** ** POST /api/transactions *)

Definition open_transaction (s : db) : db * response (nat * Tx.t) :=
  let row := Tx.mk Tx.open 0 0 0 in
  let '(id, s1) := insert_transaction row s in
  (s1, Ok (id, row)).

(** ** POST /api/transactions/:transactionId/lines *)

(** The body of [allLines.forEach]: the three running sums. *)
Definition add_line_amounts (acc : Q * Q * Q) (line : Line.t) : Q * Q * Q :=
  let '(newSubtotal, newTax, newTotal) := acc in
  let lineSubtotal := Line.unit_price line * inject_Z (Line.quantity line) in
  let lineTax := lineSubtotal * Line.tax_rate line in
  let lineTotal := lineSubtotal + lineTax in
  (newSubtotal + lineSubtotal, newTax + lineTax, newTotal + lineTotal).

Definition recompute_totals (allLines : list (nat * Line.t)) : Q * Q * Q :=
  fold_left (λ acc kv, add_line_amounts acc kv.2) allLines (0, 0, 0).

(** The handler from "Get full item details" on. *)
Definition add_line_item (s : db) (transactionId item_id : nat) (quantity : Z)
    : db * response ((nat * Line.t) * Tx.t) :=
  match item s !! item_id with
  | None => (s, Err ItemNotFound)
  | Some it =>
      let unitPrice := Item.price it in
      let taxRate := Item.tax_rate it in
      let subtotal := unitPrice * inject_Z quantity in
      let tax := subtotal * taxRate in
      let lineTotal := subtotal + tax in
      let row := Line.mk transactionId item_id quantity unitPrice
                         taxRate lineTotal None in
      match insert_line row s with
      | None => (s, Err AddLineFailed)
      | Some (lineId, s1) =>
          match pos_transaction s1 !! transactionId with
          | None => (s1, Err FetchTransactionFailed)
          | Some transaction =>
              let allLines := lines_of s1 transactionId in
              let '(newSubtotal, newTax, newTotal) := recompute_totals allLines in
              let updatedTx :=
                Tx.with_totals newSubtotal newTax newTotal transaction in
              (set_pos_transaction (<[transactionId := updatedTx]>) s1,
               Ok ((lineId, row), updatedTx))
          end
      end
  end.

Definition add_line (s : db) (transactionId : nat) (barcode : string)
    (quantity_opt : option Z) : db * response ((nat * Line.t) * Tx.t) :=
  let quantity := default 1%Z quantity_opt in
  if decide (barcode = EmptyString) then (s, Err BarcodeRequired)
  else if (quantity <=? 0)%Z then (s, Err InvalidQuantity)
  else
    match item_barcode s !! trim barcode with
    | None => (s, Err BarcodeNotFound)
    | Some item_id =>
        match item s !! item_id with
        | None => (s, Err ItemInactive)
        | Some itemCheck =>
            if negb (Item.is_active itemCheck) then (s, Err ItemInactive)
            else add_line_item s transactionId item_id quantity
        end
    end.

(** ** POST /api/transactions/:transactionId/finalize *)

Record finalize_ok := mk_finalize_ok {
  fin_transaction : Tx.t;
  fin_payment : Payment.t;
  change : Q
}.

(** One turn of the loop over [transactionLines]. *)
Definition decrement_item (s : db) (line : nat * Line.t) : db :=
  match item s !! Line.item_id line.2 with
  | None => s
  | Some it =>
      let currentQuantity := Item.quantity it in
      let soldQuantity := Line.quantity line.2 in
      let newQuantity := Z.max 0 (currentQuantity - soldQuantity) in
      update_item_quantity (Line.item_id line.2) newQuantity s
  end.

Definition finalize (s : db) (transactionId : nat) (cashAmount : Q)
    : db * response finalize_ok :=
  if Qle_bool cashAmount 0 then (s, Err InvalidCashAmount)
  else
    match pos_transaction s !! transactionId with
    | None => (s, Err TransactionNotFound)
    | Some transaction =>
        if negb (bool_decide (Tx.status_of transaction = Tx.open))
        then (s, Err TransactionNotOpen)
        else if Qltb cashAmount (Tx.total transaction)
        then (s, Err InsufficientCash)
        else
          let updatedTx := Tx.with_status Tx.finalized transaction in
          let s1 := update_status transactionId Tx.finalized s in
          let pay := Payment.mk transactionId Payment.cash cashAmount in
          let s2 := insert_payment pay s1 in
          let transactionLines := lines_of s2 transactionId in
          let s3 := fold_left decrement_item transactionLines s2 in
          let change := cashAmount - Tx.total transaction in
          (s3, Ok (mk_finalize_ok updatedTx pay (toFixed2 change)))
    end.

(** ** DELETE /api/transactions/:transactionId *)

Definition cancel (s : db) (transactionId : nat) : db * response unit :=
  match pos_transaction s !! transactionId with
  | None => (s, Err TransactionNotFound)
  | Some transaction =>
      if negb (bool_decide (Tx.status_of transaction = Tx.open))
      then (s, Err OnlyOpenCancelled)
      else (delete_transaction transactionId s, Ok tt)
  end.

(** ** POST /api/transactions/:transactionId/refund *)

Record refund_ok := mk_refund_ok {
  refundAmount : Q;
  originalTransaction : Tx.t;
  refundTransaction : nat * Tx.t;
  isPartial : bool
}.

(** The body of the loop over [selectedLines] that adds up the refund. *)
Definition refund_amounts (acc : Q * Q * Q) (line : nat * Line.t) : Q * Q * Q :=
  let '(refundSubtotal, refundTax, refundTotal) := acc in
  let lineSubtotal := Line.unit_price line.2 * inject_Z (Line.quantity line.2) in
  let lineTax := lineSubtotal * Line.tax_rate line.2 in
  (refundSubtotal + lineSubtotal, refundTax + lineTax,
   refundTotal + Line.line_total line.2).

(** One turn of the loop that puts the refunded quantities back. *)
Definition increment_item (s : db) (line : nat * Line.t) : db :=
  match item s !! Line.item_id line.2 with
  | None => s
  | Some it =>
      let currentQuantity := Item.quantity it in
      let refundedQuantity := Line.quantity line.2 in
      let newQuantity := (currentQuantity + refundedQuantity)%Z in
      update_item_quantity (Line.item_id line.2) newQuantity s
  end.

Definition is_refunded (line : nat * Line.t) : bool :=
  match Line.refunded_by line.2 with
  | Some _ => true
  | None => false
  end.

(** Everything after the refund record is known. *)
Definition refund_apply (s2 : db) (transactionId : nat) (lineIds : list nat)
    (selectedLines : list (nat * Line.t)) (refundTotal : Q)
    (originalTransaction : Tx.t) (refundTransaction : nat * Tx.t)
    (refundId : nat) : db * response refund_ok :=
  let s3 := fold_left (mark_refunded refundId) lineIds s2 in
  let s4 := fold_left increment_item selectedLines s3 in
  let remainingLines := lines_of s4 transactionId in
  let allRefunded := forallb is_refunded remainingLines in
  let s5 := if allRefunded
            then update_status transactionId Tx.refunded s4 else s4 in
  let pay := Payment.mk refundTransaction.1 Payment.cash
                        (- toFixed2 refundTotal) in
  let s6 := insert_payment pay s5 in
  let isPartial := existsb (λ line, negb (is_refunded line)) remainingLines in
  (s6, Ok (mk_refund_ok (toFixed2 refundTotal) originalTransaction
                        refundTransaction isPartial)).

Definition refund_lines (s : db) (transactionId : nat) (lineIds : list nat)
    : db * response refund_ok :=
  if bool_decide (lineIds = []) then (s, Err LineIdsRequired)
  else
    match pos_transaction s !! transactionId with
    | None => (s, Err TransactionNotFound)
    | Some originalTransaction =>
        if negb (bool_decide (Tx.status_of originalTransaction = Tx.finalized))
        then (s, Err OnlyFinalizedRefunded)
        else
          let allLines := lines_of s transactionId in
          let selectedLines := filter (λ kv, kv.1 ∈ lineIds) allLines in
          if negb (length selectedLines =? length lineIds)%nat
          then (s, Err LinesDoNotExist)
          else
            let alreadyRefundedLines := filter (λ kv, is_refunded kv) selectedLines in
            if (0 <? length alreadyRefundedLines)%nat
            then (s, Err LinesAlreadyRefunded)
            else
              let '(refundSubtotal, refundTax, refundTotal) :=
                fold_left refund_amounts selectedLines (0, 0, 0) in
              let refundRow := Tx.mk Tx.finalized (toFixed2 refundSubtotal)
                                     (toFixed2 refundTax) (toFixed2 refundTotal) in
              let '(refundTxId, s1) := insert_transaction refundRow s in
              match insert_refund (Refund.mk transactionId refundTxId) s1 with
              | Some (refundId, s2) =>
                  refund_apply s2 transactionId lineIds selectedLines refundTotal
                               originalTransaction (refundTxId, refundRow) refundId
              | None =>
                  match single (refunds_of s1 transactionId) with
                  | None => (s1, Err RefundRecordFailed)
                  | Some existingRefund =>
                      refund_apply s1 transactionId lineIds selectedLines refundTotal
                                   originalTransaction (refundTxId, refundRow)
                                   existingRefund.1
                  end
              end
    end.

(** ** Requests and runs *)

Inductive request :=
  | OpenTransaction
  | AddLine (transactionId : nat) (barcode : string) (quantity : option Z)
  | Finalize (transactionId : nat) (cashAmount : Q)
  | Cancel (transactionId : nat)
  | RefundLines (transactionId : nat) (lineIds : list nat)
  (* the item endpoints and anything else that edits the catalog *)
  | Catalog (items : gmap nat Item.t) (barcodes : gmap string nat)
            (rejected : gset nat).

Definition set_catalog (items : gmap nat Item.t) (barcodes : gmap string nat)
    (rejected : gset nat) (s : db) : db :=
  mkdb items barcodes (pos_transaction s) (transaction_line s) (refund s)
       (payment s) (next_transaction s) (next_line s) (next_refund s) rejected.

Definition handle (s : db) (r : request) : db :=
  match r with
  | OpenTransaction => (open_transaction s).1
  | AddLine t b q => (add_line s t b q).1
  | Finalize t c => (finalize s t c).1
  | Cancel t => (cancel s t).1
  | RefundLines t ids => (refund_lines s t ids).1
  | Catalog items barcodes rejected => set_catalog items barcodes rejected s
  end.

Definition run (s : db) (rs : list request) : db := fold_left handle rs s.

(** A store with a catalog and nothing sold yet. *)
Definition empty_db (items : gmap nat Item.t) (barcodes : gmap string nat)
    (rejected : gset nat) : db :=
  mkdb items barcodes ∅ ∅ ∅ [] 1 1 1 rejected.

Definition reachable (s : db) : Prop :=
  ∃ items barcodes rejected rs, s = run (empty_db items barcodes rejected) rs.

(** ** The seed of [server/seed.js] *)

Definition seed_items : gmap nat Item.t :=
  list_to_map
    [ (1%nat, Item.mk "Coca Cola" (299 # 100) (875 # 10000) 24 true);
      (2%nat, Item.mk "Chips" (349 # 100) (875 # 10000) 12 true);
      (3%nat, Item.mk "Chocolate Bar" (199 # 100) (875 # 10000) 36 true);
      (4%nat, Item.mk "Bottled Water" (149 # 100) (875 # 10000) 48 true);
      (5%nat, Item.mk "Sandwich" (599 # 100) (875 # 10000) 10 true) ].

Definition seed_barcodes : gmap string nat :=
  list_to_map
    [ ("123"%string, 1%nat); ("456"%string, 2%nat); ("789"%string, 3%nat);
      ("111"%string, 4%nat); ("222"%string, 5%nat); ("999"%string, 1%nat) ].

Definition seed_db : db := empty_db seed_items seed_barcodes ∅.

(** ** Sums over lines, as the specification words them *)

(** [unit_price*quantity] of a line. *)
Definition line_subtotal (l : Line.t) : Q :=
  Line.unit_price l * inject_Z (Line.quantity l).

(** [unit_price*quantity*tax_rate] of a line. *)
Definition line_tax (l : Line.t) : Q :=
  Line.unit_price l * inject_Z (Line.quantity l) * Line.tax_rate l.

Definition sumQ (xs : list Q) : Q := foldr Qplus 0 xs.

(** The sums over a list of lines. *)
Definition sum_subtotal (ls : list (nat * Line.t)) : Q :=
  sumQ ((λ kv, line_subtotal kv.2) <$> ls).

Definition sum_tax (ls : list (nat * Line.t)) : Q :=
  sumQ ((λ kv, line_tax kv.2) <$> ls).

Definition sum_line_total (ls : list (nat * Line.t)) : Q :=
  sumQ ((λ kv, Line.line_total kv.2) <$> ls).

(** The totals of a transaction row agree with a list of lines. *)
Definition totals_match (tx : Tx.t) (ls : list (nat * Line.t)) : Prop :=
  Tx.total tx == Tx.subtotal tx + Tx.tax tx
  ∧ Tx.subtotal tx == sum_subtotal ls
  ∧ Tx.tax tx == sum_tax ls.


(** ** The refund handler, piece by piece *)

(** [allLines.filter(line => lineIds.includes(line.id))] *)
Definition selected (s : db) (t : nat) (ids : list nat) : list (nat * Line.t) :=
  filter (λ kv, kv.1 ∈ ids) (lines_of s t).

(** The checks a refund request has to pass. *)
Definition refund_accepted (s : db) (t : nat) (ids : list nat) (orig : Tx.t)
    : Prop :=
  ids ≠ []
  ∧ pos_transaction s !! t = Some orig
  ∧ Tx.status_of orig = Tx.finalized
  ∧ length (selected s t ids) = length ids
  ∧ filter (λ kv, is_refunded kv) (selected s t ids) = [].

(** The three sums of the refund loop over the selected lines. *)
Definition refund_sums (s : db) (t : nat) (ids : list nat) : Q * Q * Q :=
  fold_left refund_amounts (selected s t ids) (0, 0, 0).

(** The reversal transaction a refund request inserts. *)
Definition reversal_row (s : db) (t : nat) (ids : list nat) : Tx.t :=
  Tx.mk Tx.finalized (toFixed2 (refund_sums s t ids).1.1)
        (toFixed2 (refund_sums s t ids).1.2) (toFixed2 (refund_sums s t ids).2).

(** The refund record a request works with, and the store once it is
    known: a new record, or the one the transaction already has. *)
Definition refund_record (s : db) (t : nat) (ids : list nat)
    : option (nat * db) :=
  let s1 := (insert_transaction (reversal_row s t ids) s).2 in
  match insert_refund (Refund.mk t (next_transaction s)) s1 with
  | Some (refundId, s2) => Some (refundId, s2)
  | None =>
      match single (refunds_of s1 t) with
      | None => None
      | Some existingRefund => Some (existingRefund.1, s1)
      end
  end.

(** ** Stock *)

(** [Math.max(0, currentQuantity - soldQuantity)] *)
Definition decrement (currentQuantity soldQuantity : Z) : Z :=
  Z.max 0 (currentQuantity - soldQuantity).

(** The quantities of the lines that sell item [i], in the order of the
    loop. *)
Definition sold (i : nat) (ls : list (nat * Line.t)) : list Z :=
  (λ kv, Line.quantity kv.2) <$> filter (λ kv, Line.item_id kv.2 = i) ls.

(** ** Failures *)

(** A response that is a failure of a given kind. *)
Definition fails {A : Type} (out : response A) (f : failure) : Prop :=
  ∃ e, out = Err e ∧ kind e = f.

(** ** Invariants of the store *)

(** The part of the store the invariants speak about. *)
Definition core (s : db) :=
  (pos_transaction s, transaction_line s, refund s,
   (next_transaction s, next_line s, next_refund s)).

(** Everything but the [item] table. *)
Definition ledger_part (s : db) :=
  (pos_transaction s, transaction_line s, refund s, payment s,
   (next_transaction s, next_line s, next_refund s),
   item_update_rejected s, item_barcode s).

(** Everything but the [transaction_line] table. *)
Definition non_line_part (s : db) :=
  (item s, item_barcode s, pos_transaction s, refund s, payment s,
   (next_transaction s, next_line s, next_refund s), item_update_rejected s).

(** What the totals of transaction [t] can see of a row of
    [transaction_line]. *)
Definition amounts_for (t : nat) (l : Line.t) : option (Q * Z * Q) :=
  if decide (Line.transaction_id l = t)
  then Some (Line.unit_price l, Line.quantity l, Line.tax_rate l)
  else None.

Definition amounts_of (s : db) (t : nat) : list (Q * Z * Q) :=
  (λ kv, (Line.unit_price kv.2, Line.quantity kv.2, Line.tax_rate kv.2))
    <$> lines_of s t.

(** Two stores whose lines look the same to transaction [t]. *)
Definition same_amounts (s s' : db) (t : nat) : Prop :=
  ∀ k, transaction_line s' !! k ≫= amounts_for t
       = transaction_line s !! k ≫= amounts_for t.

(** Two rows with the same totals. *)
Definition same_totals (tx tx' : Tx.t) : Prop :=
  Tx.subtotal tx' = Tx.subtotal tx ∧ Tx.tax tx' = Tx.tax tx
  ∧ Tx.total tx' = Tx.total tx.

(** What the constraints of the store and the handlers maintain. *)
Record wf_struct (s : db) : Prop := mk_wf_struct {
  (* generated ids are below the sequences *)
  wf_tx_fresh : ∀ k, is_Some (pos_transaction s !! k) → (k < next_transaction s)%nat;
  wf_line_fresh : ∀ k, is_Some (transaction_line s !! k) → (k < next_line s)%nat;
  wf_refund_fresh : ∀ k, is_Some (refund s !! k) → (k < next_refund s)%nat;
  (* a line belongs to a transaction of the store *)
  wf_line_fk : ∀ k l, transaction_line s !! k = Some l →
    is_Some (pos_transaction s !! Line.transaction_id l);
  wf_refund_tx : ∀ k r, refund s !! k = Some r →
    (Refund.refund_tx r < next_transaction s)%nat;
  (* unique (original_tx) *)
  wf_refund_unique : ∀ k1 k2 r1 r2,
    refund s !! k1 = Some r1 → refund s !! k2 = Some r2 →
    Refund.original_tx r1 = Refund.original_tx r2 → k1 = k2;
  (* refunded_by names the refund record of the line's transaction *)
  wf_refunded_by : ∀ k l r, transaction_line s !! k = Some l →
    Line.refunded_by l = Some r →
    ∃ row, refund s !! r = Some row
           ∧ Refund.original_tx row = Line.transaction_id l
}.

(** The totals of every transaction that has lines are the sums over its
    lines. *)
Definition totals_inv (s : db) : Prop :=
  ∀ t tx, pos_transaction s !! t = Some tx → lines_of s t ≠ [] →
          totals_match tx (lines_of s t).

Definition wf (s : db) : Prop := wf_struct s ∧ totals_inv s.

(** A line that is missing, or that has [refunded_by] set, and whose id was
    generated already: it stays so whatever is requested. *)
Definition spent (s : db) (k : nat) : Prop :=
  (k < next_line s)%nat
  ∧ match transaction_line s !! k with
    | None => True
    | Some l => is_Some (Line.refunded_by l)
    end.

(** ** Worked stores *)

(** One sale of a Coca Cola, still open. *)
Definition open_sale : db :=
  run seed_db [OpenTransaction; AddLine 1 "123" None].

(** The sale paid with 5.00. *)
Definition paid_sale : db := run open_sale [Finalize 1 5].

(** The sale refunded in full. *)
Definition refunded_sale : db := run paid_sale [RefundLines 1 [1%nat]].

(** A sale of two items, paid, then refunded one line at a time. *)
Definition two_line_sale : db :=
  run seed_db [OpenTransaction; AddLine 1 "123" None;
               AddLine 1 "456" (Some 2%Z); Finalize 1 20].

Definition half_refunded_sale : db := run two_line_sale [RefundLines 1 [1%nat]].


(** Coca Cola with no stock left, and Chips whose update the store
    rejects. *)
Definition short_stock : db :=
  run seed_db
    [Catalog (<[1%nat := Item.mk "Coca Cola" (299 # 100) (875 # 10000) 0 true]>
                seed_items)
             seed_barcodes {[2%nat]};
     OpenTransaction; AddLine 1 "123" (Some 3%Z); AddLine 1 "456" None;
     AddLine 1 "789" (Some 2%Z)].

(** * The rest of server/index.js: the catalog and the read endpoints *)

(** ** POST /api/barcode/lookup *)

(** The barcode is looked up as given: unlike [add_line], the handler does
    not trim it. *)
Definition barcode_lookup (s : db) (barcode : string) : response nat :=
  if decide (barcode = EmptyString) then Err BarcodeRequired
  else
    match item_barcode s !! barcode with
    | None => Err BarcodeNotFound
    | Some item_id =>
        match item s !! item_id with
        | None => Err ItemInactive
        | Some it =>
            if negb (Item.is_active it) then Err ItemInactive else Ok item_id
        end
    end.

(** ** Grouping rows by a key *)

(** [if (!groups[key]) groups[key] = []; groups[key].push(value)] *)
Definition push_group {A B : Type} (key : A → nat) (value : A → B)
    (groups : gmap nat (list B)) (row : A) : gmap nat (list B) :=
  <[key row := default [] (groups !! key row) ++ [value row]]> groups.

Definition group_rows {A B : Type} (key : A → nat) (value : A → B)
    (rows : list A) : gmap nat (list B) :=
  fold_left (push_group key value) rows ∅.

(** ** GET /api/items and GET /api/items/:itemId *)

Record item_view := mk_item_view {
  view_id : nat;
  view_item : Item.t;
  barcodes : list string
}.

(** [from('item_barcode').select('barcode').eq('item_id', itemId)] *)
Definition barcodes_of (s : db) (itemId : nat) : list string :=
  (filter (λ row, row.2 = itemId) (map_to_list (item_barcode s))).*1.

(** The active items with their barcodes.  The rows come in the order of
    the store's answer; the model has no [created_at] to order them by. *)
Definition get_items (s : db) : list item_view :=
  let items := filter (λ kv, Item.is_active kv.2 = true) (map_to_list (item s)) in
  let itemIds := items.*1 in
  match itemIds with
  | [] => (λ kv, mk_item_view kv.1 kv.2 []) <$> items
  | _ :: _ =>
      let barcodes :=
        filter (λ row, row.2 ∈ itemIds) (map_to_list (item_barcode s)) in
      let barcodesByItem := group_rows snd fst barcodes in
      (λ kv, mk_item_view kv.1 kv.2 (default [] (barcodesByItem !! kv.1)))
        <$> items
  end.

Definition get_item (s : db) (itemId : nat) : response item_view :=
  match item s !! itemId with
  | None => Err ItemNotFound
  | Some it => Ok (mk_item_view itemId it (barcodes_of s itemId))
  end.

(** ** POST, PUT and DELETE /api/items *)

Inductive catalog_error :=
  | ItemFieldsRequired   (* 400 'Name, price, and at least one barcode are required' *)
  | CreateItemFailed     (* 500 'Failed to create item' *)
  | CreateBarcodesFailed (* 500 'Failed to create barcodes' *)
  | ItemMissing          (* 404 'Item not found' *)
  | BarcodeListRequired  (* 400 'At least one barcode is required' *)
  | UpdateBarcodesFailed. (* 500 'Failed to update barcodes' *)

Inductive catalog_response (A : Type) :=
  | Done (a : A)
  | Refused (e : catalog_error).
Arguments Done {A} a.
Arguments Refused {A} e.

(** The body of a create or update request; a field that is absent is
    [None].  [cost] and [pack_size] are not kept in the model of an item. *)
Record item_body := mk_item_body {
  body_name : option string;
  body_price : option Q;
  body_tax_rate : option Q;
  body_quantity : option Z;
  body_barcodes : option (list string)
}.

Definition set_item_barcode (f : gmap string nat → gmap string nat) (s : db) : db :=
  mkdb (item s) (f (item_barcode s)) (pos_transaction s) (transaction_line s)
       (refund s) (payment s) (next_transaction s) (next_line s)
       (next_refund s) (item_update_rejected s).

(** Modelled from the spec: the schema of [item_barcode], which is not in
    the sources.  A barcode resolves to one item (section 3), and the lookup
    handlers read a barcode with [.single()], so
    [from('item_barcode').insert(rows)] is refused as a whole when a barcode
    is repeated in the rows or is in the table already. *)
Definition insert_barcodes (itemId : nat) (bs : list string)
    (m : gmap string nat) : option (gmap string nat) :=
  if decide (NoDup bs ∧ Forall (λ b, m !! b = None) bs)
  then Some (foldr (λ b acc, <[b := itemId]> acc) m bs)
  else None.

(** [from('item_barcode').delete().eq('item_id', itemId)] *)
Definition delete_barcodes (itemId : nat) (m : gmap string nat)
    : gmap string nat :=
  filter (λ row, row.2 ≠ itemId) m.

(** [!price]: absent or zero. *)
Definition no_price (price : option Q) : bool :=
  match price with
  | None => true
  | Some p => Qeq_bool p 0
  end.

(** [newId] is the id the store generates for the new row; a row that
    exists under that id makes the insert fail. *)
Definition create_item (s : db) (newId : nat) (body : item_body)
    : db * catalog_response item_view :=
  match body_name body, body_barcodes body with
  | Some name, Some bs =>
      if bool_decide (name = EmptyString) || no_price (body_price body)
         || bool_decide (bs = [])
      then (s, Refused ItemFieldsRequired)
      else
        match item s !! newId with
        | Some _ => (s, Refused CreateItemFailed)
        | None =>
            let it := Item.mk (trim name) (default 0 (body_price body))
                              (default 0 (body_tax_rate body))
                              (default 0%Z (body_quantity body)) true in
            let s1 := set_item (<[newId := it]>) s in
            match insert_barcodes newId (trim <$> bs) (item_barcode s1) with
            | None =>
                (* rollback: delete the item *)
                (set_item (delete newId) s1, Refused CreateBarcodesFailed)
            | Some m =>
                (set_item_barcode (λ _, m) s1,
                 Done (mk_item_view newId it (trim <$> bs)))
            end
        end
  | _, _ => (s, Refused ItemFieldsRequired)
  end.

(** [updateData], applied to a row: only the fields that are given. *)
Definition update_fields (body : item_body) (it : Item.t) : Item.t :=
  Item.mk (default (Item.name it) (trim <$> body_name body))
          (default (Item.price it) (body_price body))
          (default (Item.tax_rate it) (body_tax_rate body))
          (default (Item.quantity it) (body_quantity body))
          (Item.is_active it).

(** The item is updated before the list of barcodes is looked at, and the
    old barcodes are deleted before the new ones are inserted.  An update
    that gives no field is taken to succeed and to leave the row as it
    is. *)
Definition update_item (s : db) (itemId : nat) (body : item_body)
    : db * catalog_response item_view :=
  match item s !! itemId with
  | None => (s, Refused ItemMissing)
  | Some it0 =>
      let it := update_fields body it0 in
      let s1 := set_item (<[itemId := it]>) s in
      match body_barcodes body with
      | None => (s1, Done (mk_item_view itemId it (barcodes_of s1 itemId)))
      | Some bs =>
          if bool_decide (bs = []) then (s1, Refused BarcodeListRequired)
          else
            let s2 := set_item_barcode (delete_barcodes itemId) s1 in
            match insert_barcodes itemId (trim <$> bs) (item_barcode s2) with
            | None => (s2, Refused UpdateBarcodesFailed)
            | Some m =>
                let s3 := set_item_barcode (λ _, m) s2 in
                (s3, Done (mk_item_view itemId it (barcodes_of s3 itemId)))
            end
      end
  end.

(** The soft delete: [update({ is_active: false })]. *)
Definition deactivate (it : Item.t) : Item.t :=
  Item.mk (Item.name it) (Item.price it) (Item.tax_rate it)
          (Item.quantity it) false.

Definition delete_item (s : db) (itemId : nat) : db * catalog_response Item.t :=
  match item s !! itemId with
  | None => (s, Refused ItemMissing)
  | Some it =>
      (set_item (<[itemId := deactivate it]>) s, Done (deactivate it))
  end.

(** ** GET /api/transactions/:transactionId *)

(** A line with the name of its item, as [item:item_id (id, name)] joins
    it. *)
Definition with_item_name (s : db) (line : nat * Line.t)
    : nat * Line.t * option string :=
  (line.1, line.2, Item.name <$> item s !! Line.item_id line.2).

Definition get_transaction (s : db) (transactionId : nat)
    : response (Tx.t * list (nat * Line.t * option string)) :=
  match pos_transaction s !! transactionId with
  | None => Err TransactionNotFound
  | Some transaction =>
      Ok (transaction, with_item_name s <$> lines_of s transactionId)
  end.

(** ** GET /api/transactions *)

(** ['none'], ['partial'], ['full'] *)
Inductive report_status := none | partial | full.

Record report_row := mk_report_row {
  report_id : nat;
  report_tx : Tx.t;
  report_lines : list (nat * Line.t);
  refundStatus : report_status
}.

Definition refund_status_of (lines : list (nat * Line.t)) : report_status :=
  if (0 <? length lines)%nat then
    let refundedCount := length (filter (λ line, is_refunded line) lines) in
    if (refundedCount =? length lines)%nat then full
    else if (0 <? refundedCount)%nat then partial
    else none
  else none.

Definition listed_status (tx : Tx.t) : bool :=
  match Tx.status_of tx with
  | Tx.finalized | Tx.refunded => true
  | Tx.open => false
  end.

(** [order('created_at', { ascending: false })].  Ids come from a sequence,
    so the order of [created_at] is the order of the ids. *)
Definition newer (a b : nat * Tx.t) : Prop := (b.1 ≤ a.1)%nat.

#[global] Instance newer_dec : RelDecision newer.
Proof. intros a b. unfold newer. apply _. Defined.

Definition newest_first (rows : list (nat * Tx.t)) : list (nat * Tx.t) :=
  merge_sort newer rows.

(** [.range(offset, offset + limit - 1)], for a limit of at least 1. *)
Definition page {A : Type} (limit : positive) (offset : nat) (rows : list A)
    : list A :=
  take (Pos.to_nat limit) (drop offset rows).

Definition list_transactions (s : db) (limit : positive) (offset : nat)
    : list report_row :=
  let transactions :=
    page limit offset
      (newest_first (filter (λ kv, listed_status kv.2 = true)
                            (map_to_list (pos_transaction s)))) in
  let refundTransactionIds :=
    (λ kv, Refund.refund_tx kv.2) <$> map_to_list (refund s) in
  let salesTransactions :=
    filter (λ tx, tx.1 ∉ refundTransactionIds) transactions in
  let transactionIds := salesTransactions.*1 in
  match transactionIds with
  | [] => []
  | _ :: _ =>
      let allLines :=
        filter (λ kv, Line.transaction_id kv.2 ∈ transactionIds)
               (map_to_list (transaction_line s)) in
      let linesByTransaction :=
        group_rows (λ kv, Line.transaction_id kv.2) id allLines in
      let transactionsWithLines :=
        (λ tx, let lines := default [] (linesByTransaction !! tx.1) in
               mk_report_row tx.1 tx.2 lines (refund_status_of lines))
          <$> salesTransactions in
      filter (λ row, ¬ (Tx.status_of (report_tx row) = Tx.finalized
                        ∧ report_lines row = []))
             transactionsWithLines
  end.

(** The transactions [GET /api/transactions] keeps from a page: those no
    refund record names as its reversal. *)
Definition sales_page (s : db) (limit : positive) (offset : nat)
    : list (nat * Tx.t) :=
  filter (λ tx, tx.1 ∉ (λ kv, Refund.refund_tx kv.2) <$> map_to_list (refund s))
    (page limit offset
       (newest_first (filter (λ kv, listed_status kv.2 = true)
                             (map_to_list (pos_transaction s))))).

(** The row of the report for a transaction. *)
Definition report_row_of (s : db) (tx : nat * Tx.t) : report_row :=
  mk_report_row tx.1 tx.2 (lines_of s tx.1) (refund_status_of (lines_of s tx.1)).

(** * The API as a whole *)

(** The requests that change the store.  [PostItem] carries the id the store
    generates for the new item. *)
Inductive api_request :=
  | PostTransaction
  | PostLine (transactionId : nat) (barcode : string) (quantity : option Z)
  | PostFinalize (transactionId : nat) (cashAmount : Q)
  | DeleteTransaction (transactionId : nat)
  | PostRefund (transactionId : nat) (lineIds : list nat)
  | PostItem (newId : nat) (body : item_body)
  | PutItem (itemId : nat) (body : item_body)
  | DeleteItem (itemId : nat).

Definition api_handle (s : db) (r : api_request) : db :=
  match r with
  | PostTransaction => (open_transaction s).1
  | PostLine t b q => (add_line s t b q).1
  | PostFinalize t c => (finalize s t c).1
  | DeleteTransaction t => (cancel s t).1
  | PostRefund t ids => (refund_lines s t ids).1
  | PostItem newId body => (create_item s newId body).1
  | PutItem itemId body => (update_item s itemId body).1
  | DeleteItem itemId => (delete_item s itemId).1
  end.

Definition api_run (s : db) (rs : list api_request) : db :=
  fold_left api_handle rs s.

(** A store the API can reach from an empty one. *)
Definition api_reachable (s : db) : Prop :=
  ∃ rejected rs, s = api_run (empty_db ∅ ∅ rejected) rs.

(** The request of the ledger that does to the store what an API request
    does: the same request for the transaction endpoints, and for the item
    endpoints the edit of the catalog they come down to. *)
Definition as_request (s : db) (r : api_request) : request :=
  match r with
  | PostTransaction => OpenTransaction
  | PostLine t b q => AddLine t b q
  | PostFinalize t c => Finalize t c
  | DeleteTransaction t => Cancel t
  | PostRefund t ids => RefundLines t ids
  | PostItem _ _ | PutItem _ _ | DeleteItem _ =>
      Catalog (item (api_handle s r)) (item_barcode (api_handle s r))
              (item_update_rejected s)
  end.

(** The catalog of [server/seed.js], entered through [POST /api/items]. *)
Definition seed_requests : list api_request :=
  [ PostItem 1 (mk_item_body (Some "Coca Cola"%string) (Some (299 # 100))
                             (Some (875 # 10000)) (Some 24%Z)
                             (Some ["123"%string; "999"%string]));
    PostItem 2 (mk_item_body (Some "Chips"%string) (Some (349 # 100))
                             (Some (875 # 10000)) (Some 12%Z)
                             (Some ["456"%string]));
    PostItem 3 (mk_item_body (Some "Chocolate Bar"%string) (Some (199 # 100))
                             (Some (875 # 10000)) (Some 36%Z)
                             (Some ["789"%string]));
    PostItem 4 (mk_item_body (Some "Bottled Water"%string) (Some (149 # 100))
                             (Some (875 # 10000)) (Some 48%Z)
                             (Some ["111"%string]));
    PostItem 5 (mk_item_body (Some "Sandwich"%string) (Some (599 # 100))
                             (Some (875 # 10000)) (Some 10%Z)
                             (Some ["222"%string])) ].

(** ** Invariants of the API *)

(** Every barcode and every line names an item of the catalog. *)
Definition catalog_linked (s : db) : Prop :=
  (∀ b i, item_barcode s !! b = Some i → is_Some (item s !! i))
  ∧ (∀ k l, transaction_line s !! k = Some l →
            is_Some (item s !! Line.item_id l)).

(** The order of the statuses: [open], then [finalized], then [refunded]. *)
Definition status_rank (st : Tx.status) : nat :=
  match st with
  | Tx.open => 0
  | Tx.finalized => 1
  | Tx.refunded => 2
  end.

(** The fields of a line that are written once. *)
Definition snapshot (l : Line.t) : nat * nat * Z * Q * Q * Q :=
  (Line.transaction_id l, Line.item_id l, Line.quantity l, Line.unit_price l,
   Line.tax_rate l, Line.line_total l).

(** ** Invariants of the ledger over time *)

(** Every payment is on a transaction of the store that is not open. *)
Definition payments_settled (s : db) : Prop :=
  ∀ p, p ∈ payment s →
       ∃ tx, pos_transaction s !! Payment.transaction_id p = Some tx
             ∧ Tx.status_of tx ≠ Tx.open.




(** The status of a transaction against its lines: a transaction whose
    lines are all refunded, and that has a line, is [refunded]; a
    transaction that is [refunded] has a refunded line. *)
Definition refunds_settled (s : db) : Prop :=
  ∀ t tx, pos_transaction s !! t = Some tx →
    (lines_of s t ≠ [] →
     (∀ k l, transaction_line s !! k = Some l → Line.transaction_id l = t →
             is_Some (Line.refunded_by l)) →
     Tx.status_of tx = Tx.refunded)
    ∧ (Tx.status_of tx = Tx.refunded →
       ∃ k l, transaction_line s !! k = Some l ∧ Line.transaction_id l = t
              ∧ is_Some (Line.refunded_by l)).

(** The sum of a list of quantities. *)
Definition sumZ (qs : list Z) : Z := foldr Z.add 0%Z qs.

(** * client/src/screens/CashierScreen.js: the refund panel *)


(** A [Set] of line ids, in insertion order. *)
Definition set_has (x : nat) (sel : list nat) : bool := bool_decide (x ∈ sel).

Definition set_add (x : nat) (sel : list nat) : list nat :=
  if set_has x sel then sel else sel ++ [x].

Definition set_delete (x : nat) (sel : list nat) : list nat :=
  filter (λ y, y ≠ x) sel.



(** [lines.filter(line => selected.has(line.id)).reduce((sum, line) => sum +
    parseFloat(line.line_total || 0), 0)] *)
Definition selection_amount (lines : list (nat * Line.t * option string))
    (sel : list nat) : Q :=
  fold_left (λ sum line, sum + Line.line_total line.1.2)
            (filter (λ line, set_has line.1.1 sel = true) lines) 0.

(** The number [formatCurrency] shows after the dollar sign. *)
Definition formatCurrency (amount : Q) : Q := toFixed2 amount.

(** [handleToggleRefundLine]: the new selection and its amount. *)
Definition handleToggleRefundLine (lines : list (nat * Line.t * option string))
    (sel : list nat) (lineId : nat) : list nat * Q :=
  let newSelected :=
    if set_has lineId sel then set_delete lineId sel else set_add lineId sel in
  (newSelected, selection_amount lines newSelected).



(** * client/src/screens/CashierScreen.js: the till *)

(** [handleBarcodeSubmit]: nothing is sent for an input that is blank or
    when there is no current transaction; otherwise the trimmed input is
    sent with a quantity of 1. *)
Definition handleBarcodeSubmit (s : db) (transactionId : option nat)
    (barcodeInput : string)
    : db * option (response ((nat * Line.t) * Tx.t)) :=
  match transactionId with
  | None => (s, None)
  | Some t =>
      if bool_decide (trim barcodeInput = EmptyString) then (s, None)
      else
        let out := add_line s t (trim barcodeInput) (Some 1%Z) in
        (out.1, Some out.2)
  end.

(** [handleCashSubmit]: nothing is sent for an amount that is not
    positive. *)
Definition handleCashSubmit (s : db) (transactionId : nat) (cashAmount : Q)
    : db * option (response finalize_ok) :=
  if Qle_bool cashAmount 0 then (s, None)
  else
    let out := finalize s transactionId cashAmount in
    (out.1, Some out.2).

(** * client/src/screens/ItemsScreen.js: the item form *)

(** The form, with its number fields as parsed. *)
Record item_form := mk_item_form {
  form_name : string;
  form_price : Q;
  form_tax_rate : Q;
  form_quantity : Z;
  form_barcodes : list string
}.

(** [formData.barcodes.map(b => b.trim()).filter(b => b.length > 0)] *)
Definition validBarcodes (form : item_form) : list string :=
  filter (λ b, b ≠ EmptyString) (trim <$> form_barcodes form).

Definition payload (form : item_form) : item_body :=
  mk_item_body (Some (trim (form_name form))) (Some (form_price form))
               (Some (form_tax_rate form)) (Some (form_quantity form))
               (Some (validBarcodes form)).

(** [handleSubmit]: nothing is sent when no barcode is left; otherwise the
    payload goes to PUT for the item being edited, to POST otherwise. *)
Definition handleSubmit (s : db) (editingItem : option nat) (newId : nat)
    (form : item_form) : db * option (catalog_response item_view) :=
  if bool_decide (validBarcodes form = []) then (s, None)
  else
    match editingItem with
    | Some itemId =>
        let out := update_item s itemId (payload form) in (out.1, Some out.2)
    | None =>
        let out := create_item s newId (payload form) in (out.1, Some out.2)
    end.

(** * Properties *)

(** ** Numbers *)


Lemma Qltb_ge (a b : Q) : Qltb a b = false ↔ b <= a.
Proof. unfold Qltb. now rewrite negb_false_iff, Qle_bool_iff. Qed.




(** Ties go away from zero, as in [(0.125).toFixed(2)] and
    [(-0.125).toFixed(2)]. *)
Example toFixed2_examples :
  toFixed2 (1 # 8) == 13 # 100 ∧ toFixed2 (- (1 # 8)) == - (13 # 100)
  ∧ toFixed2 (1754 # 1000) == 175 # 100 ∧ toFixed2 (3251625 # 1000000) == 325 # 100.
Proof. vm_compute. auto. Qed.

Example trim_examples :
  trim "  456 " = "456"%string ∧ trim "4 56" = "4 56"%string
  ∧ trim "   " = ""%string.
Proof. vm_compute. auto. Qed.

(** [toFixed(2)] always yields a whole number of cents. *)
Lemma toFixed2_is_cents (x : Q) : ∃ n : Z, toFixed2 x = n # 100.
Proof.
  unfold toFixed2, toFixed2_abs. destruct (Qltb x 0); eexists; reflexivity.
Qed.

(** ** Sums over lines, as the specification words them *)

Lemma sumQ_perm (xs ys : list Q) : xs ≡ₚ ys → sumQ xs == sumQ ys.
Proof.
  induction 1 as [| x xs ys _ IH | x y xs | xs ys zs _ IH1 _ IH2]; simpl.
  - reflexivity.
  - now rewrite IH.
  - ring.
  - now rewrite IH1.
Qed.

Lemma sum_subtotal_cons k l ls :
  sum_subtotal ((k, l) :: ls) = line_subtotal l + sum_subtotal ls.
Proof. reflexivity. Qed.

Lemma sum_tax_cons k l ls : sum_tax ((k, l) :: ls) = line_tax l + sum_tax ls.
Proof. reflexivity. Qed.

Lemma sum_line_total_cons k l ls :
  sum_line_total ((k, l) :: ls) = Line.line_total l + sum_line_total ls.
Proof. reflexivity. Qed.

(** The three running sums of [forEach], against the sums of the
    specification. *)
Lemma fold_add_line_amounts (ls : list (nat * Line.t)) (a b c : Q) :
  let '(a', b', c') :=
    fold_left (λ acc kv, add_line_amounts acc kv.2) ls (a, b, c) in
  a' == a + sum_subtotal ls ∧ b' == b + sum_tax ls
  ∧ c' == c + (sum_subtotal ls + sum_tax ls).
Proof.
  revert a b c. induction ls as [| [k l] ls IH]; intros a b c; simpl.
  - unfold sum_subtotal, sum_tax; simpl. split; [| split]; ring.
  - specialize (IH (a + Line.unit_price l * inject_Z (Line.quantity l))
                   (b + Line.unit_price l * inject_Z (Line.quantity l) * Line.tax_rate l)
                   (c + (Line.unit_price l * inject_Z (Line.quantity l)
                         + Line.unit_price l * inject_Z (Line.quantity l) * Line.tax_rate l))).
    destruct (fold_left _ ls _) as [[a' b'] c'].
    destruct IH as (Ha & Hb & Hc).
    rewrite sum_subtotal_cons, sum_tax_cons. unfold line_subtotal, line_tax.
    split; [| split]; [rewrite Ha | rewrite Hb | rewrite Hc]; ring.
Qed.

Lemma recompute_totals_spec (ls : list (nat * Line.t)) (a b c : Q) :
  recompute_totals ls = (a, b, c) →
  a == sum_subtotal ls ∧ b == sum_tax ls ∧ c == a + b.
Proof.
  intros H. pose proof (fold_add_line_amounts ls 0 0 0) as F.
  unfold recompute_totals in H. rewrite H in F.
  destruct F as (Ha & Hb & Hc). split; [| split].
  - rewrite Ha; ring.
  - rewrite Hb; ring.
  - rewrite Hc, Ha, Hb; ring.
Qed.

(** The three running sums of the refund loop. *)
Lemma fold_refund_amounts (ls : list (nat * Line.t)) (a b c : Q) :
  let '(a', b', c') := fold_left refund_amounts ls (a, b, c) in
  a' == a + sum_subtotal ls ∧ b' == b + sum_tax ls
  ∧ c' == c + sum_line_total ls.
Proof.
  revert a b c. induction ls as [| [k l] ls IH]; intros a b c; simpl.
  - unfold sum_subtotal, sum_tax, sum_line_total; simpl. split; [| split]; ring.
  - specialize (IH (a + Line.unit_price l * inject_Z (Line.quantity l))
                   (b + Line.unit_price l * inject_Z (Line.quantity l) * Line.tax_rate l)
                   (c + Line.line_total l)).
    destruct (fold_left _ ls _) as [[a' b'] c'].
    destruct IH as (Ha & Hb & Hc).
    rewrite sum_subtotal_cons, sum_tax_cons, sum_line_total_cons.
    unfold line_subtotal, line_tax.
    split; [| split]; [rewrite Ha | rewrite Hb | rewrite Hc]; ring.
Qed.

(** ** Queries *)

Lemma elem_of_lines_of (s : db) (t k : nat) (l : Line.t) :
  (k, l) ∈ lines_of s t
  ↔ transaction_line s !! k = Some l ∧ Line.transaction_id l = t.
Proof.
  unfold lines_of. rewrite list_elem_of_filter, elem_of_map_to_list. simpl. tauto.
Qed.

Lemma elem_of_refunds_of (s : db) (t k : nat) (r : Refund.t) :
  (k, r) ∈ refunds_of s t ↔ refund s !! k = Some r ∧ Refund.original_tx r = t.
Proof.
  unfold refunds_of. rewrite list_elem_of_filter, elem_of_map_to_list. simpl. tauto.
Qed.

Lemma NoDup_lines_of (s : db) (t : nat) : NoDup (lines_of s t).
Proof. apply NoDup_filter, NoDup_map_to_list. Qed.

Lemma NoDup_fst_lines_of (s : db) (t : nat) : NoDup (lines_of s t).*1.
Proof.
  apply NoDup_fmap_2_strong; [| apply NoDup_lines_of].
  intros [k l] [k' l'] H1 H2 Hk; simpl in Hk; subst k'.
  apply elem_of_lines_of in H1 as [H1 _], H2 as [H2 _]. congruence.
Qed.

Lemma lines_of_nil (s : db) (t : nat) :
  lines_of s t = []
  ↔ ∀ k l, transaction_line s !! k = Some l → Line.transaction_id l ≠ t.
Proof.
  split.
  - intros H k l Hk Ht.
    assert ((k, l) ∈ lines_of s t) as Hin by now apply elem_of_lines_of.
    rewrite H in Hin. inversion Hin.
  - intros H. destruct (lines_of s t) as [| [k l] ls] eqn:E; [done |].
    assert ((k, l) ∈ lines_of s t) as Hin by (rewrite E; left).
    apply elem_of_lines_of in Hin as [Hk Ht]. now apply H in Hk.
Qed.

Lemma amounts_of_omap (s : db) (t : nat) :
  amounts_of s t ≡ₚ (map_to_list (omap (amounts_for t) (transaction_line s))).*2.
Proof.
  unfold amounts_of.
  set (f := λ kv : nat * Line.t,
         (kv.1, (Line.unit_price kv.2, Line.quantity kv.2, Line.tax_rate kv.2))).
  transitivity ((f <$> lines_of s t).*2).
  { rewrite <- list_fmap_compose. reflexivity. }
  apply fmap_Permutation, NoDup_Permutation.
  - apply NoDup_fmap_2_strong; [| apply NoDup_lines_of].
    intros [k l] [k' l'] H1 H2 Hf. unfold f in Hf; simpl in Hf.
    apply elem_of_lines_of in H1 as [H1 _], H2 as [H2 _].
    assert (k = k') by congruence. subst k'. congruence.
  - apply NoDup_map_to_list.
  - intros [k a]. rewrite list_elem_of_fmap, elem_of_map_to_list, lookup_omap.
    split.
    + intros ([k' l] & Hf & Hin). unfold f in Hf; simpl in Hf.
      apply elem_of_lines_of in Hin as [Hk Ht].
      inversion Hf; subst. rewrite Hk. simpl. unfold amounts_for.
      now rewrite decide_True.
    + intros H. destruct (transaction_line s !! k) as [l |] eqn:Hk; [| done].
      simpl in H. unfold amounts_for in H. case_decide; [| done].
      exists (k, l). split; [unfold f; simpl; congruence |].
      now apply elem_of_lines_of.
Qed.

Lemma same_amounts_perm (s s' : db) (t : nat) :
  same_amounts s s' t → amounts_of s' t ≡ₚ amounts_of s t.
Proof.
  intros H. rewrite !amounts_of_omap.
  assert (omap (amounts_for t) (transaction_line s')
          = omap (amounts_for t) (transaction_line s)) as ->; [| done].
  apply map_eq. intros k. rewrite !lookup_omap. apply H.
Qed.

Lemma sum_subtotal_amounts (s : db) (t : nat) :
  sum_subtotal (lines_of s t)
  = sumQ ((λ a : Q * Z * Q, a.1.1 * inject_Z a.1.2) <$> amounts_of s t).
Proof.
  unfold sum_subtotal, amounts_of. now rewrite <- list_fmap_compose.
Qed.

Lemma sum_tax_amounts (s : db) (t : nat) :
  sum_tax (lines_of s t)
  = sumQ ((λ a : Q * Z * Q, a.1.1 * inject_Z a.1.2 * a.2) <$> amounts_of s t).
Proof.
  unfold sum_tax, amounts_of. now rewrite <- list_fmap_compose.
Qed.

Lemma same_amounts_sums (s s' : db) (t : nat) :
  same_amounts s s' t →
  sum_subtotal (lines_of s' t) == sum_subtotal (lines_of s t)
  ∧ sum_tax (lines_of s' t) == sum_tax (lines_of s t)
  ∧ (lines_of s' t = [] ↔ lines_of s t = []).
Proof.
  intros H. apply same_amounts_perm in H.
  rewrite !sum_subtotal_amounts, !sum_tax_amounts. split; [| split].
  - apply sumQ_perm. now apply fmap_Permutation.
  - apply sumQ_perm. now apply fmap_Permutation.
  - apply Permutation_length in H. unfold amounts_of in H.
    rewrite !length_fmap in H.
    split; intros E; rewrite E in H; simpl in H;
      [destruct (lines_of s t) | destruct (lines_of s' t)]; done.
Qed.

Lemma same_amounts_match (s s' : db) (t : nat) (tx : Tx.t) :
  same_amounts s s' t →
  totals_match tx (lines_of s t) → totals_match tx (lines_of s' t).
Proof.
  intros H (H1 & H2 & H3). apply same_amounts_sums in H as (E1 & E2 & _).
  unfold totals_match. now rewrite E1, E2.
Qed.

(** ** Loops over the store *)

Lemma fold_left_preserves {A B C : Type} (f : A → B → A) (p : A → C) :
  (∀ a b, p (f a b) = p a) → ∀ l a, p (fold_left f l a) = p a.
Proof.
  intros H l. induction l as [| b l IH]; intros a; simpl; [done |].
  now rewrite IH.
Qed.

Lemma update_item_quantity_tables (id : nat) (q : Z) (s : db) :
  let s' := update_item_quantity id q s in
  pos_transaction s' = pos_transaction s
  ∧ transaction_line s' = transaction_line s
  ∧ refund s' = refund s ∧ payment s' = payment s
  ∧ next_transaction s' = next_transaction s ∧ next_line s' = next_line s
  ∧ next_refund s' = next_refund s
  ∧ item_update_rejected s' = item_update_rejected s
  ∧ item_barcode s' = item_barcode s.
Proof. unfold update_item_quantity. case_decide; simpl; tauto. Qed.

Lemma decrement_item_ledger (s : db) (line : nat * Line.t) :
  ledger_part (decrement_item s line) = ledger_part s.
Proof.
  unfold decrement_item. destruct (item s !! _); [| done].
  unfold update_item_quantity. now case_decide.
Qed.

Lemma increment_item_ledger (s : db) (line : nat * Line.t) :
  ledger_part (increment_item s line) = ledger_part s.
Proof.
  unfold increment_item. destruct (item s !! _); [| done].
  unfold update_item_quantity. now case_decide.
Qed.

Lemma fold_decrement_ledger (ls : list (nat * Line.t)) (s : db) :
  ledger_part (fold_left decrement_item ls s) = ledger_part s.
Proof. apply fold_left_preserves, decrement_item_ledger. Qed.

Lemma fold_increment_ledger (ls : list (nat * Line.t)) (s : db) :
  ledger_part (fold_left increment_item ls s) = ledger_part s.
Proof. apply fold_left_preserves, increment_item_ledger. Qed.

Lemma fold_mark_non_line (r : nat) (ids : list nat) (s : db) :
  non_line_part (fold_left (mark_refunded r) ids s) = non_line_part s.
Proof. now apply fold_left_preserves. Qed.

(** The rows after the loop that marks the selected lines. *)
Lemma fold_mark_lookup (r : nat) (ids : list nat) (s : db) (k : nat) :
  transaction_line (fold_left (mark_refunded r) ids s) !! k
  = if decide (k ∈ ids)
    then Line.with_refunded_by r <$> transaction_line s !! k
    else transaction_line s !! k.
Proof.
  revert s. induction ids as [| i ids IH]; intros s; simpl.
  - done.
  - rewrite IH. simpl. rewrite lookup_alter.
    destruct (decide (i = k)) as [-> | Hne].
    + rewrite (decide_True (P := k ∈ k :: ids)) by left.
      case_decide; [| done].
      now destruct (transaction_line s !! k).
    + case_decide as Hin.
      * rewrite decide_True by now right. done.
      * rewrite decide_False; [done |].
        intros H. apply elem_of_cons in H as [-> | H]; done.
Qed.

(** ** Invariants of the store *)

Lemma lines_of_core (s s' : db) (t : nat) :
  transaction_line s' = transaction_line s → lines_of s' t = lines_of s t.
Proof. unfold lines_of. now intros ->. Qed.

Lemma refunds_of_core (s s' : db) (t : nat) :
  refund s' = refund s → refunds_of s' t = refunds_of s t.
Proof. unfold refunds_of. now intros ->. Qed.

Lemma wf_core (s s' : db) : core s' = core s → wf s → wf s'.
Proof.
  unfold core. intros E [[H1 H2 H3 H4 H5 H6 H7] H8].
  injection E as E1 E2 E3 E4 E5 E6.
  split; [split |].
  all: unfold totals_inv; rewrite ?E1, ?E2, ?E3, ?E4, ?E5, ?E6;
    try rewrite (lines_of_core s s') by done; try done.
  intros t tx. rewrite (lines_of_core s s') by done. apply H8.
Qed.

Lemma ledger_core (s s' : db) : ledger_part s' = ledger_part s → core s' = core s.
Proof. unfold ledger_part, core. intros E. injection E as -> -> -> _ -> -> ->. done. Qed.

Lemma lines_of_fresh (s : db) (t : nat) :
  wf_struct s → pos_transaction s !! t = None → lines_of s t = [].
Proof.
  intros W Ht. apply lines_of_nil. intros k l Hk <-.
  apply (wf_line_fk s W) in Hk. rewrite Ht in Hk. now destruct Hk.
Qed.

Lemma next_transaction_fresh (s : db) :
  wf_struct s → pos_transaction s !! next_transaction s = None.
Proof.
  intros W. destruct (pos_transaction s !! next_transaction s) eqn:E; [| done].
  assert (next_transaction s < next_transaction s)%nat; [| lia].
  apply (wf_tx_fresh s W). now rewrite E.
Qed.

Lemma next_line_fresh (s : db) :
  wf_struct s → transaction_line s !! next_line s = None.
Proof.
  intros W. destruct (transaction_line s !! next_line s) eqn:E; [| done].
  assert (next_line s < next_line s)%nat; [| lia].
  apply (wf_line_fresh s W). now rewrite E.
Qed.

Lemma next_refund_fresh (s : db) :
  wf_struct s → refund s !! next_refund s = None.
Proof.
  intros W. destruct (refund s !! next_refund s) eqn:E; [| done].
  assert (next_refund s < next_refund s)%nat; [| lia].
  apply (wf_refund_fresh s W). now rewrite E.
Qed.

(** *** Writes keep the structure *)

Lemma wf_struct_insert_transaction (row : Tx.t) (s : db) :
  wf_struct s → wf_struct (insert_transaction row s).2.
Proof.
  intros W. destruct W as [H1 H2 H3 H4 H5 H6 H7]. split; simpl; try done.
  - intros k. rewrite lookup_insert. case_decide; [lia |].
    intros Hs. apply H1 in Hs. lia.
  - intros k l Hk. apply H4 in Hk. rewrite lookup_insert. now case_decide.
  - intros k r Hk. apply H5 in Hk. lia.
Qed.

Lemma wf_struct_insert_line (row : Line.t) (s s' : db) (id : nat) :
  wf_struct s → Line.refunded_by row = None →
  insert_line row s = Some (id, s') → wf_struct s'.
Proof.
  intros W Hr. unfold insert_line.
  destruct (pos_transaction s !! Line.transaction_id row) eqn:Ht; [| done].
  intros [= <- <-]. destruct W as [H1 H2 H3 H4 H5 H6 H7]. split; simpl; try done.
  - intros k. rewrite lookup_insert. case_decide; [lia |].
    intros Hs. apply H2 in Hs. lia.
  - intros k l. rewrite lookup_insert. case_decide.
    + intros [= <-]. now rewrite Ht.
    + apply H4.
  - intros k l r. rewrite lookup_insert. case_decide.
    + intros [= <-]. congruence.
    + apply H7.
Qed.

Lemma wf_struct_insert_refund (row : Refund.t) (s s' : db) (id : nat) :
  wf_struct s → (Refund.refund_tx row < next_transaction s)%nat →
  insert_refund row s = Some (id, s') → wf_struct s'.
Proof.
  intros W Hr. unfold insert_refund.
  destruct (refunds_of s (Refund.original_tx row)) as [| x xs] eqn:E; [| done].
  intros [= <- <-].
  assert (∀ k r, refund s !! k = Some r →
                 Refund.original_tx r ≠ Refund.original_tx row) as Hnew.
  { intros k r Hk Ho.
    assert ((k, r) ∈ refunds_of s (Refund.original_tx row)) as Hin
      by now apply elem_of_refunds_of.
    rewrite E in Hin. inversion Hin. }
  pose proof (next_refund_fresh s W) as Hfresh.
  destruct W as [H1 H2 H3 H4 H5 H6 H7]. split; simpl; try done.
  - intros k. rewrite lookup_insert. case_decide; [lia |].
    intros Hs. apply H3 in Hs. lia.
  - intros k r. rewrite lookup_insert. case_decide.
    + now intros [= <-].
    + apply H5.
  - intros k1 k2 r1 r2. rewrite !lookup_insert.
    repeat case_decide; subst; try done.
    + intros [= <-] Hk Ho. symmetry in Ho. now apply Hnew in Hk.
    + intros Hk [= <-] Ho. now apply Hnew in Hk.
    + apply H6.
  - intros k l r Hk Hl. destruct (H7 k l r Hk Hl) as (row' & Hrow & Ho).
    exists row'. split; [| done].
    rewrite lookup_insert_ne; [done |]. congruence.
Qed.

Lemma wf_struct_alter_transaction (f : Tx.t → Tx.t) (t : nat) (s : db) :
  wf_struct s → wf_struct (set_pos_transaction (alter f t) s).
Proof.
  intros [H1 H2 H3 H4 H5 H6 H7]. split; simpl; try done.
  - intros k Hk. apply H1. rewrite lookup_alter in Hk.
    case_decide; [| done]. subst. now rewrite fmap_is_Some in Hk.
  - intros k l Hk. apply H4 in Hk. rewrite lookup_alter.
    case_decide; [subst | done]. now rewrite fmap_is_Some.
Qed.

Lemma wf_struct_overwrite_transaction (row : Tx.t) (t : nat) (s : db) :
  wf_struct s → is_Some (pos_transaction s !! t) →
  wf_struct (set_pos_transaction (<[t := row]>) s).
Proof.
  intros [H1 H2 H3 H4 H5 H6 H7] Ht. split; simpl; try done.
  - intros k. rewrite lookup_insert. case_decide; [subst; auto | apply H1].
  - intros k l Hk. apply H4 in Hk. rewrite lookup_insert. now case_decide.
Qed.

Lemma wf_struct_mark_refunded (r : nat) (s : db) (lineId : nat) :
  wf_struct s →
  (∀ l, transaction_line s !! lineId = Some l →
        ∃ row, refund s !! r = Some row
               ∧ Refund.original_tx row = Line.transaction_id l) →
  wf_struct (mark_refunded r s lineId).
Proof.
  intros [H1 H2 H3 H4 H5 H6 H7] Hr. split; simpl; try done.
  - intros k Hk. apply H2. rewrite lookup_alter in Hk.
    case_decide; [| done]. subst. now rewrite fmap_is_Some in Hk.
  - intros k l. rewrite lookup_alter. case_decide; [| apply H4]. subst k.
    destruct (transaction_line s !! lineId) as [l0 |] eqn:E; [| done].
    intros [= <-]. simpl. now apply (H4 lineId).
  - intros k l r'. rewrite lookup_alter. case_decide; [| apply H7]. subst k.
    destruct (transaction_line s !! lineId) as [l0 |] eqn:E; [| done].
    intros [= <-]. simpl. intros [= <-]. now apply Hr.
Qed.

Lemma wf_struct_delete_transaction (t : nat) (s : db) :
  wf_struct s → wf_struct (delete_transaction t s).
Proof.
  intros [H1 H2 H3 H4 H5 H6 H7]. split; simpl; try done.
  - intros k Hk. apply H1. rewrite lookup_delete in Hk.
    case_decide; [now destruct Hk | done].
  - intros k [l Hk]. apply map_lookup_filter_Some in Hk as [Hk _]. apply (H2 k). eauto.
  - intros k l Hk. apply map_lookup_filter_Some in Hk as [Hk Hne]. simpl in Hne.
    rewrite lookup_delete_ne by done. now apply (H4 k).
  - intros k l r Hk. apply map_lookup_filter_Some in Hk as [Hk _]. now apply (H7 k).
Qed.

(** *** The selection check of the refund handler *)

Lemma elem_of_selected (s : db) (t : nat) (ids : list nat) k l :
  (k, l) ∈ selected s t ids
  ↔ k ∈ ids ∧ transaction_line s !! k = Some l ∧ Line.transaction_id l = t.
Proof.
  unfold selected. rewrite list_elem_of_filter, elem_of_lines_of. simpl. tauto.
Qed.

Lemma NoDup_fst_selected (s : db) (t : nat) (ids : list nat) :
  NoDup (selected s t ids).*1.
Proof.
  unfold selected.
  apply (sublist_NoDup _ (lines_of s t).*1).
  - apply NoDup_fst_lines_of.
  - apply fmap_sublist, sublist_filter.
Qed.

(** The length comparison passes exactly when the ids are distinct and
    every one of them is a line of the transaction. *)
Lemma selected_length (s : db) (t : nat) (ids : list nat) :
  length (selected s t ids) = length ids
  ↔ NoDup ids
    ∧ ∀ k, k ∈ ids →
        ∃ l, transaction_line s !! k = Some l ∧ Line.transaction_id l = t.
Proof.
  split.
  - intros Hlen.
    assert ((selected s t ids).*1 ≡ₚ ids) as Hp.
    { apply submseteq_length_Permutation.
      - apply NoDup_submseteq; [apply NoDup_fst_selected |].
        intros k Hk. apply list_elem_of_fmap in Hk as ([k' l] & -> & Hin).
        now apply elem_of_selected in Hin as [Hin _].
      - rewrite length_fmap. lia. }
    split.
    + rewrite <- Hp. apply NoDup_fst_selected.
    + intros k Hk. rewrite <- Hp in Hk.
      apply list_elem_of_fmap in Hk as ([k' l] & -> & Hin).
      apply elem_of_selected in Hin as (_ & Hl & Ht). eauto.
  - intros [Hnd Hall].
    rewrite <- (length_fmap fst (selected s t ids)).
    apply Permutation_length, NoDup_Permutation;
      [apply NoDup_fst_selected | done |].
    intros k. split.
    + intros Hk. apply list_elem_of_fmap in Hk as ([k' l] & -> & Hin).
      now apply elem_of_selected in Hin as [Hin _].
    + intros Hk. destruct (Hall k Hk) as (l & Hl & Ht).
      apply list_elem_of_fmap. exists (k, l). split; [done |].
      now apply elem_of_selected.
Qed.

(** *** Reading the handlers backwards *)

Lemma open_transaction_store (s : db) :
  (open_transaction s).1 = (insert_transaction (Tx.mk Tx.open 0 0 0) s).2.
Proof. reflexivity. Qed.

(** The stores an [add_line] call can leave behind. *)
Lemma add_line_store (s : db) (t : nat) (b : string) (q : option Z) :
  (add_line s t b q).1 = s
  ∨ ∃ item_id it row lineId s1,
      item s !! item_id = Some it
      ∧ (0 < default 1%Z q)%Z
      ∧ row = Line.mk t item_id (default 1%Z q) (Item.price it)
                (Item.tax_rate it)
                (Item.price it * inject_Z (default 1%Z q)
                 + Item.price it * inject_Z (default 1%Z q) * Item.tax_rate it)
                None
      ∧ insert_line row s = Some (lineId, s1)
      ∧ match pos_transaction s1 !! t with
        | None => add_line s t b q = (s1, Err FetchTransactionFailed)
        | Some transaction =>
            let sums := recompute_totals (lines_of s1 t) in
            let updatedTx :=
              Tx.with_totals sums.1.1 sums.1.2 sums.2 transaction in
            add_line s t b q
            = (set_pos_transaction (<[t := updatedTx]>) s1,
               Ok ((lineId, row), updatedTx))
        end.
Proof.
  unfold add_line. case_decide; [now left |].
  destruct (default 1%Z q <=? 0)%Z eqn:Hq; [now left |].
  destruct (item_barcode s !! trim b) as [item_id |]; [| now left].
  destruct (item s !! item_id) as [itemCheck |] eqn:Hit; [| now left].
  destruct (negb (Item.is_active itemCheck)); [now left |].
  unfold add_line_item. rewrite Hit.
  destruct (insert_line _ s) as [[lineId s1] |] eqn:Hins; [| now left].
  right. eexists item_id, itemCheck, _, lineId, s1.
  split; [done |]. split; [lia |]. split; [reflexivity |]. split; [exact Hins |].
  destruct (pos_transaction s1 !! t) as [transaction |]; [| done].
  simpl. now destruct (recompute_totals (lines_of s1 t)) as [[a b'] c].
Qed.

Lemma refund_lines_unfold (s : db) (t : nat) (ids : list nat) :
  refund_lines s t ids =
  if bool_decide (ids = []) then (s, Err LineIdsRequired)
  else
    match pos_transaction s !! t with
    | None => (s, Err TransactionNotFound)
    | Some orig =>
        if negb (bool_decide (Tx.status_of orig = Tx.finalized))
        then (s, Err OnlyFinalizedRefunded)
        else if negb (length (selected s t ids) =? length ids)%nat
        then (s, Err LinesDoNotExist)
        else if (0 <? length (filter (λ kv, is_refunded kv) (selected s t ids)))%nat
        then (s, Err LinesAlreadyRefunded)
        else
          match refund_record s t ids with
          | None => ((insert_transaction (reversal_row s t ids) s).2,
                     Err RefundRecordFailed)
          | Some (refundId, s2) =>
              refund_apply s2 t ids (selected s t ids) (refund_sums s t ids).2
                           orig (next_transaction s, reversal_row s t ids) refundId
          end
    end.
Proof.
  unfold refund_lines, refund_record, reversal_row, refund_sums, selected.
  case_bool_decide; [done |].
  destruct (pos_transaction s !! t) as [orig |]; [| done].
  destruct (negb _); [done |].
  destruct (negb _); [done |].
  destruct (0 <? _)%nat; [done |].
  destruct (fold_left refund_amounts _ _) as [[a b] c]. simpl.
  destruct (insert_refund _ _) as [[refundId s2] |]; [done |].
  now destruct (single _).
Qed.

Lemma refund_lines_Ok (s : db) (t : nat) (ids : list nat) (s' : db)
    (r : refund_ok) :
  refund_lines s t ids = (s', Ok r) →
  ∃ orig refundId s2,
    refund_accepted s t ids orig
    ∧ refund_record s t ids = Some (refundId, s2)
    ∧ refund_apply s2 t ids (selected s t ids) (refund_sums s t ids).2
                   orig (next_transaction s, reversal_row s t ids) refundId
      = (s', Ok r).
Proof.
  rewrite refund_lines_unfold. unfold refund_accepted.
  case_bool_decide as Hids; [done |].
  destruct (pos_transaction s !! t) as [orig |]; [| done].
  case_bool_decide as Hst; simpl; [| done].
  destruct (length (selected s t ids) =? length ids)%nat eqn:Hlen; simpl; [| done].
  apply Nat.eqb_eq in Hlen.
  destruct (filter _ (selected s t ids)) as [| x xs] eqn:Hf; simpl; [| done].
  destruct (refund_record s t ids) as [[refundId s2] |]; [| done].
  intros H. exists orig, refundId, s2. auto 10.
Qed.

(** *** The refund record *)

Lemma refund_record_cases (s : db) (t : nat) (ids : list nat) (rid : nat)
    (s2 : db) :
  refund_record s t ids = Some (rid, s2) →
  let s1 := (insert_transaction (reversal_row s t ids) s).2 in
  (refunds_of s t = []
   ∧ insert_refund (Refund.mk t (next_transaction s)) s1 = Some (rid, s2)
   ∧ rid = next_refund s
   ∧ refund s2 = <[rid := Refund.mk t (next_transaction s)]> (refund s))
  ∨ (∃ row, refunds_of s t = [(rid, row)] ∧ s2 = s1).
Proof.
  unfold refund_record. simpl.
  destruct (insert_refund _ _) as [[rid' s2'] |] eqn:Hins.
  - intros [= -> ->]. left.
    unfold insert_refund in Hins. simpl in Hins.
    change (refunds_of _ t) with (refunds_of s t) in Hins.
    destruct (refunds_of s t); [| done].
    injection Hins as <- <-. done.
  - unfold insert_refund in Hins. simpl in Hins.
    change (refunds_of _ t) with (refunds_of s t) in *.
    destruct (refunds_of s t) as [| [k row] [| y ys]]; try done.
    simpl. intros [= <- <-]. right. eauto.
Qed.

(** *** The store after [refund_apply] *)

Lemma refund_apply_tables (s2 : db) (t : nat) (ids : list nat)
    (sel : list (nat * Line.t)) (total : Q) (orig : Tx.t)
    (rev : nat * Tx.t) (rid : nat) :
  let s' := (refund_apply s2 t ids sel total orig rev rid).1 in
  let s3 := fold_left (mark_refunded rid) ids s2 in
  transaction_line s' = transaction_line s3
  ∧ pos_transaction s'
    = (if forallb is_refunded (lines_of s3 t)
       then alter (Tx.with_status Tx.refunded) t (pos_transaction s2)
       else pos_transaction s2)
  ∧ refund s' = refund s2
  ∧ payment s' = payment s2 ++ [Payment.mk rev.1 Payment.cash (- toFixed2 total)]
  ∧ next_transaction s' = next_transaction s2
  ∧ next_line s' = next_line s2
  ∧ next_refund s' = next_refund s2.
Proof.
  intros s' s3. subst s'. unfold refund_apply. simpl. fold s3.
  pose proof (fold_increment_ledger sel s3) as E.
  pose proof (fold_mark_non_line rid ids s2) as E3. fold s3 in E3.
  unfold ledger_part in E. injection E as E1 E2 E4 E5 E6 E7 E8 _ _.
  unfold non_line_part in E3. injection E3 as _ _ F1 F2 F3 F4 F5 F6 _.
  rewrite (lines_of_core s3 (fold_left increment_item sel s3)) by done.
  destruct (forallb is_refunded (lines_of s3 t)); simpl;
    rewrite ?E1, ?E2, ?E4, ?E5, ?E6, ?E7, ?E8, ?F1, ?F2, ?F3, ?F4, ?F5, ?F6;
    tauto.
Qed.

Lemma refund_apply_Ok (s2 : db) (t : nat) (ids : list nat)
    (sel : list (nat * Line.t)) (total : Q) (orig : Tx.t)
    (rev : nat * Tx.t) (rid : nat) :
  (refund_apply s2 t ids sel total orig rev rid).2
  = Ok (mk_refund_ok (toFixed2 total) orig rev
          (existsb (λ line, negb (is_refunded line))
             (lines_of (fold_left (mark_refunded rid) ids s2) t))).
Proof.
  unfold refund_apply. simpl.
  pose proof (fold_increment_ledger sel (fold_left (mark_refunded rid) ids s2)) as E.
  unfold ledger_part in E. injection E as _ E _ _ _ _ _ _ _.
  now rewrite (lines_of_core _ _ t E).
Qed.

(** *** Handlers keep the structure *)

Lemma wf_struct_core (s s' : db) : core s' = core s → wf_struct s → wf_struct s'.
Proof.
  unfold core. intros E [H1 H2 H3 H4 H5 H6 H7].
  injection E as E1 E2 E3 E4 E5 E6.
  split; rewrite ?E1, ?E2, ?E3, ?E4, ?E5, ?E6; done.
Qed.

Lemma wf_struct_fold_mark (r t : nat) (ids : list nat) (s : db) :
  wf_struct s →
  (∃ row, refund s !! r = Some row ∧ Refund.original_tx row = t) →
  (∀ k l, k ∈ ids → transaction_line s !! k = Some l →
          Line.transaction_id l = t) →
  wf_struct (fold_left (mark_refunded r) ids s).
Proof.
  revert s. induction ids as [| i ids IH]; intros s W Hr Hids; simpl; [done |].
  apply IH.
  - apply wf_struct_mark_refunded; [done |].
    intros l Hl. destruct Hr as (row & Hrow & Ho). exists row. split; [done |].
    rewrite Ho. symmetry. apply (Hids i); [left | done].
  - exact Hr.
  - intros k l Hk. simpl. rewrite lookup_alter. case_decide.
    + subst. destruct (transaction_line s !! k) as [l0 |] eqn:E; [| done].
      intros [= <-]. simpl. apply (Hids k); [left | done].
    + apply Hids. now right.
Qed.

Lemma wf_struct_open (s : db) : wf_struct s → wf_struct (open_transaction s).1.
Proof. apply wf_struct_insert_transaction. Qed.

Lemma insert_line_tables (row : Line.t) (s s1 : db) (id : nat) :
  insert_line row s = Some (id, s1) →
  is_Some (pos_transaction s !! Line.transaction_id row)
  ∧ id = next_line s
  ∧ pos_transaction s1 = pos_transaction s
  ∧ transaction_line s1 = <[id := row]> (transaction_line s)
  ∧ refund s1 = refund s ∧ payment s1 = payment s ∧ item s1 = item s.
Proof.
  unfold insert_line. destruct (pos_transaction s !! _) eqn:E; [| done].
  intros [= <- <-]. simpl. auto 10.
Qed.

Lemma wf_struct_add_line (s : db) (t : nat) (b : string) (q : option Z) :
  wf_struct s → wf_struct (add_line s t b q).1.
Proof.
  intros W. destruct (add_line_store s t b q) as
    [-> | (item_id & it & row & lineId & s1 & Hit & Hq & Hrow & Hins & H)];
    [done |].
  assert (wf_struct s1) as W1.
  { eapply wf_struct_insert_line; [exact W | | exact Hins]. now subst row. }
  destruct (pos_transaction s1 !! t) eqn:Ht; rewrite H; simpl; [| done].
  apply wf_struct_overwrite_transaction; [done |]. now rewrite Ht.
Qed.

Lemma finalize_store (s : db) (t : nat) (c : Q) :
  (finalize s t c).1 = s
  ∨ core (finalize s t c).1 = core (update_status t Tx.finalized s).
Proof.
  unfold finalize. destruct (Qle_bool c 0); [now left |].
  destruct (pos_transaction s !! t) as [tx |]; [| now left].
  destruct (negb _); [now left |]. destruct (Qltb _ _); [now left |].
  right. simpl. etransitivity.
  - apply ledger_core, fold_decrement_ledger.
  - reflexivity.
Qed.

Lemma wf_struct_finalize (s : db) (t : nat) (c : Q) :
  wf_struct s → wf_struct (finalize s t c).1.
Proof.
  intros W. destruct (finalize_store s t c) as [-> | E]; [done |].
  apply (wf_struct_core _ _ E). now apply wf_struct_alter_transaction.
Qed.

Lemma cancel_store (s : db) (t : nat) :
  (cancel s t).1 = s ∨ (cancel s t).1 = delete_transaction t s.
Proof.
  unfold cancel. destruct (pos_transaction s !! t) as [tx |]; [| now left].
  destruct (negb _); [now left | now right].
Qed.

Lemma wf_struct_cancel (s : db) (t : nat) :
  wf_struct s → wf_struct (cancel s t).1.
Proof.
  intros W. destruct (cancel_store s t) as [-> | ->]; [done |].
  now apply wf_struct_delete_transaction.
Qed.

Lemma refund_apply_core (s2 : db) (t : nat) (ids : list nat)
    (sel : list (nat * Line.t)) (total : Q) (orig : Tx.t)
    (rev : nat * Tx.t) (rid : nat) :
  let s3 := fold_left (mark_refunded rid) ids s2 in
  core (refund_apply s2 t ids sel total orig rev rid).1
  = core (if forallb is_refunded (lines_of s3 t)
          then update_status t Tx.refunded s3 else s3).
Proof.
  intros s3. unfold refund_apply. simpl. fold s3.
  pose proof (fold_increment_ledger sel s3) as E.
  unfold ledger_part in E. injection E as E1 E2 E4 E5 E6 E7 E8 _ _.
  rewrite (lines_of_core s3 (fold_left increment_item sel s3)) by done.
  unfold core.
  destruct (forallb is_refunded (lines_of s3 t)); simpl;
    now rewrite ?E1, ?E2, ?E4, ?E5, ?E6, ?E7, ?E8.
Qed.

Lemma refund_lines_Err (s : db) (t : nat) (ids : list nat) (s' : db) (e : error) :
  refund_lines s t ids = (s', Err e) →
  s' = s
  ∨ (s' = (insert_transaction (reversal_row s t ids) s).2
     ∧ e = RefundRecordFailed).
Proof.
  rewrite refund_lines_unfold.
  destruct (bool_decide _); [intros [= <- _]; now left |].
  destruct (pos_transaction s !! t) as [orig |]; [| intros [= <- _]; now left].
  destruct (negb _); [intros [= <- _]; now left |].
  destruct (negb _); [intros [= <- _]; now left |].
  destruct (0 <? _)%nat; [intros [= <- _]; now left |].
  destruct (refund_record s t ids) as [[rid s2] |].
  - intros H. apply (f_equal snd) in H.
    now rewrite refund_apply_Ok in H.
  - intros [= <- <-]. now right.
Qed.

(** The lines a refund request marks all belong to the transaction. *)
Lemma refund_accepted_lines (s : db) (t : nat) (ids : list nat) (orig : Tx.t) :
  refund_accepted s t ids orig →
  NoDup ids
  ∧ ∀ k, k ∈ ids →
      ∃ l, transaction_line s !! k = Some l ∧ Line.transaction_id l = t
           ∧ Line.refunded_by l = None.
Proof.
  intros (_ & _ & _ & Hlen & Hnone).
  apply selected_length in Hlen as [Hnd Hall]. split; [done |].
  intros k Hk. destruct (Hall k Hk) as (l & Hl & Ht). exists l.
  split; [done |]. split; [done |].
  destruct (Line.refunded_by l) as [r |] eqn:Hr; [| done].
  assert ((k, l) ∈ filter (λ kv, is_refunded kv) (selected s t ids)) as Hin.
  { apply list_elem_of_filter. split; [| now apply elem_of_selected].
    unfold is_refunded. simpl. now rewrite Hr. }
  rewrite Hnone in Hin. inversion Hin.
Qed.

(** The record a refund request works with is the record of [t]. *)
Lemma refund_record_spec (s : db) (t : nat) (ids : list nat) (rid : nat)
    (s2 : db) :
  wf_struct s → refund_record s t ids = Some (rid, s2) →
  wf_struct s2
  ∧ (∃ row, refund s2 !! rid = Some row ∧ Refund.original_tx row = t)
  ∧ transaction_line s2 = transaction_line s
  ∧ pos_transaction s2
    = <[next_transaction s := reversal_row s t ids]> (pos_transaction s).
Proof.
  intros W H. pose proof (wf_struct_insert_transaction (reversal_row s t ids) s W) as W1.
  apply refund_record_cases in H as [(Hnone & Hins & -> & Hr) | (row & Hone & ->)].
  - split; [| split; [| split]].
    + eapply wf_struct_insert_refund; [exact W1 | | exact Hins]. simpl. lia.
    + rewrite Hr, lookup_insert_eq. eauto.
    + unfold insert_refund in Hins. destruct (refunds_of _ _); [| done].
      now injection Hins as <-.
    + unfold insert_refund in Hins. destruct (refunds_of _ _); [| done].
      now injection Hins as <-.
  - split; [done |]. split; [| done].
    assert ((rid, row) ∈ refunds_of s t) as Hin by (rewrite Hone; left).
    apply elem_of_refunds_of in Hin. eauto.
Qed.

Lemma wf_struct_refund_lines (s : db) (t : nat) (ids : list nat) :
  wf_struct s → wf_struct (refund_lines s t ids).1.
Proof.
  intros W. destruct (refund_lines s t ids) as [s' [r | e]] eqn:E; simpl.
  - apply refund_lines_Ok in E as (orig & rid & s2 & Hacc & Hrec & Happ).
    apply (f_equal fst) in Happ. change (s', Ok r).1 with s' in Happ. subst s'.
    destruct (refund_record_spec s t ids rid s2 W Hrec) as (W2 & Hrow & Hl & _).
    apply (wf_struct_core _ _ (refund_apply_core _ _ _ _ _ _ _ _)).
    assert (wf_struct (fold_left (mark_refunded rid) ids s2)) as W3.
    { apply (wf_struct_fold_mark rid t); [done | done |].
      intros k l Hk. rewrite Hl. intros Hkl.
      apply refund_accepted_lines in Hacc as [_ Hall].
      destruct (Hall k Hk) as (l' & Hl' & Ht & _). congruence. }
    destruct (forallb _ _); [| done].
    now apply wf_struct_alter_transaction.
  - apply refund_lines_Err in E as [-> | [-> _]]; [done |].
    now apply wf_struct_insert_transaction.
Qed.

Lemma wf_struct_handle (s : db) (r : request) :
  wf_struct s → wf_struct (handle s r).
Proof.
  destruct r; simpl.
  - apply wf_struct_open.
  - apply wf_struct_add_line.
  - apply wf_struct_finalize.
  - apply wf_struct_cancel.
  - apply wf_struct_refund_lines.
  - now apply wf_struct_core.
Qed.

(** *** Handlers keep the totals *)

Lemma totals_inv_transfer (s s' : db) :
  (∀ t tx', pos_transaction s' !! t = Some tx' →
     lines_of s' t = []
     ∨ totals_match tx' (lines_of s' t)
     ∨ ∃ tx, pos_transaction s !! t = Some tx ∧ same_totals tx tx'
             ∧ same_amounts s s' t) →
  totals_inv s → totals_inv s'.
Proof.
  intros H Hs t tx' Ht Hne.
  destruct (H t tx' Ht) as [Hnil | [Hm | (tx & Htx & (E1 & E2 & E3) & Hsame)]];
    [done | done |].
  assert (lines_of s t ≠ []) as Hne'.
  { intros Hnil. apply Hne. now apply (same_amounts_sums s s' t Hsame). }
  pose proof (same_amounts_match s s' t tx Hsame (Hs t tx Htx Hne')) as Hm.
  unfold totals_match in *. now rewrite E1, E2, E3.
Qed.

Lemma same_amounts_refl (s s' : db) (t : nat) :
  transaction_line s' = transaction_line s → same_amounts s s' t.
Proof. intros E k. now rewrite E. Qed.

Lemma same_totals_refl (tx : Tx.t) : same_totals tx tx.
Proof. done. Qed.

Lemma totals_insert_transaction (row : Tx.t) (s : db) :
  wf_struct s → totals_inv s → totals_inv (insert_transaction row s).2.
Proof.
  intros W. apply totals_inv_transfer. intros t tx'. simpl.
  rewrite lookup_insert. case_decide as Hd.
  - intros _. left. subst t.
    rewrite (lines_of_core s) by done.
    apply lines_of_fresh; [done |]. now apply next_transaction_fresh.
  - intros Ht. right. right. exists tx'.
    split; [done |]. split; [done |]. now apply same_amounts_refl.
Qed.

Lemma totals_alter_status (st : Tx.status) (t : nat) (s : db) :
  totals_inv s → totals_inv (update_status t st s).
Proof.
  apply totals_inv_transfer. intros t' tx'. simpl.
  rewrite lookup_alter. intros Ht. right. right.
  case_decide.
  - subst. destruct (pos_transaction s !! t') as [tx |]; [| done].
    injection Ht as <-. exists tx. split; [done |]. split; [done |].
    now apply same_amounts_refl.
  - exists tx'. split; [done |]. split; [done |]. now apply same_amounts_refl.
Qed.

Lemma totals_tables (s s' : db) :
  pos_transaction s' = pos_transaction s →
  transaction_line s' = transaction_line s → totals_inv s → totals_inv s'.
Proof.
  intros E1 E2.
  apply totals_inv_transfer. intros t tx'. rewrite E1. intros Ht.
  right. right. exists tx'. split; [done |]. split; [done |].
  now apply same_amounts_refl.
Qed.

Lemma totals_core (s s' : db) : core s' = core s → totals_inv s → totals_inv s'.
Proof.
  unfold core. intros E. injection E as E1 E2 _ _ _ _. now apply totals_tables.
Qed.

Lemma totals_fold_mark (r : nat) (ids : list nat) (s : db) :
  totals_inv s → totals_inv (fold_left (mark_refunded r) ids s).
Proof.
  apply totals_inv_transfer. intros t tx'.
  pose proof (fold_mark_non_line r ids s) as E.
  unfold non_line_part in E. injection E as _ _ E _ _ _ _ _ _.
  rewrite E. intros Ht. right. right. exists tx'.
  split; [done |]. split; [done |].
  intros k. rewrite fold_mark_lookup. case_decide; [| done].
  now destruct (transaction_line s !! k).
Qed.

Lemma totals_delete_transaction (t : nat) (s : db) :
  totals_inv s → totals_inv (delete_transaction t s).
Proof.
  apply totals_inv_transfer. intros t' tx'. simpl.
  rewrite lookup_delete. case_decide as Hd; [done |].
  intros Ht. right. right. exists tx'. split; [done |]. split; [done |].
  intros k. simpl. rewrite map_lookup_filter.
  destruct (transaction_line s !! k) as [l |]; [| done]. simpl.
  case_guard as Hg; simpl; [done |].
  unfold amounts_for. rewrite decide_False; [done |].
  intros Hl. simpl in Hg. congruence.
Qed.

Lemma totals_add_line (s : db) (t : nat) (b : string) (q : option Z) :
  wf_struct s → totals_inv s → totals_inv (add_line s t b q).1.
Proof.
  intros W. destruct (add_line_store s t b q) as
    [-> | (item_id & it & row & lineId & s1 & Hit & Hq & Hrow & Hins & H)];
    [done |].
  apply insert_line_tables in Hins as (Hex & -> & Hp & Hl & _).
  assert (Line.transaction_id row = t) as Hrt by now subst row.
  rewrite Hrt in Hex.
  destruct (pos_transaction s1 !! t) as [transaction |] eqn:Ht.
  2: { rewrite Hp in Ht. rewrite Ht in Hex. now destruct Hex. }
  rewrite H. simpl. apply totals_inv_transfer. intros t' tx'. simpl.
  rewrite lookup_insert. case_decide as Hd.
  - subst t'. intros [= <-]. right. left.
    rewrite (lines_of_core s1 (set_pos_transaction _ s1)) by done.
    destruct (recompute_totals (lines_of s1 t)) as [[a b'] c] eqn:Hsum.
    apply recompute_totals_spec in Hsum as (Ha & Hb & Hc).
    unfold totals_match. simpl. now rewrite <- Ha, <- Hb.
  - rewrite Hp. intros Ht'. right. right. exists tx'.
    split; [done |]. split; [done |].
    intros k. simpl. rewrite Hl, lookup_insert. case_decide; [| done].
    subst k. rewrite (next_line_fresh s W). simpl.
    unfold amounts_for. rewrite decide_False; [done | congruence].
Qed.

Lemma totals_refund_lines (s : db) (t : nat) (ids : list nat) :
  wf_struct s → totals_inv s → totals_inv (refund_lines s t ids).1.
Proof.
  intros W T. destruct (refund_lines s t ids) as [s' [r | e]] eqn:E; simpl.
  - apply refund_lines_Ok in E as (orig & rid & s2 & Hacc & Hrec & Happ).
    apply (f_equal fst) in Happ. change (s', Ok r).1 with s' in Happ. subst s'.
    apply (totals_core _ _ (refund_apply_core _ _ _ _ _ _ _ _)).
    assert (totals_inv s2) as T2.
    { pose proof (totals_insert_transaction (reversal_row s t ids) s W T) as T1.
      apply refund_record_cases in Hrec as [(_ & Hins & _ & _) | (row & _ & ->)];
        [| done].
      unfold insert_refund in Hins. destruct (refunds_of _ _); [| done].
      injection Hins as _ <-. revert T1. now apply totals_tables. }
    assert (totals_inv (fold_left (mark_refunded rid) ids s2)) as T3
      by now apply totals_fold_mark.
    destruct (forallb _ _); [| done]. now apply totals_alter_status.
  - apply refund_lines_Err in E as [-> | [-> _]]; [done |].
    now apply totals_insert_transaction.
Qed.

Lemma wf_handle (s : db) (r : request) : wf s → wf (handle s r).
Proof.
  intros [W T]. split; [now apply wf_struct_handle |].
  destruct r; simpl.
  - now apply totals_insert_transaction.
  - now apply totals_add_line.
  - destruct (finalize_store s transactionId cashAmount) as [-> | E]; [done |].
    apply (totals_core _ _ E). now apply totals_alter_status.
  - destruct (cancel_store s transactionId) as [-> | ->]; [done |].
    now apply totals_delete_transaction.
  - now apply totals_refund_lines.
  - revert T. now apply totals_core.
Qed.

Lemma wf_empty_db items barcodes rejected : wf (empty_db items barcodes rejected).
Proof.
  split; [split |]; try unfold totals_inv; simpl.
  all: try (intros k [x Hx]; now rewrite lookup_empty in Hx).
  all: try (intros k x Hx; now rewrite lookup_empty in Hx).
  - intros k1 k2 r1 r2 Hx. now rewrite lookup_empty in Hx.
  - intros k l r Hx. now rewrite lookup_empty in Hx.
Qed.

Lemma wf_run (rs : list request) (s : db) : wf s → wf (run s rs).
Proof.
  revert s. induction rs as [| r rs IH]; intros s W; simpl; [done |].
  apply IH. now apply wf_handle.
Qed.

Lemma reachable_wf (s : db) : reachable s → wf s.
Proof.
  intros (items & barcodes & rejected & rs & ->).
  apply wf_run, wf_empty_db.
Qed.

Lemma reachable_handle (s : db) (r : request) :
  reachable s → reachable (handle s r).
Proof.
  intros (items & barcodes & rejected & rs & ->).
  exists items, barcodes, rejected, (rs ++ [r]).
  unfold run. now rewrite fold_left_app.
Qed.

Lemma reachable_run (s : db) (rs : list request) :
  reachable s → reachable (run s rs).
Proof.
  revert s. induction rs as [| r rs IH]; intros s H; simpl; [done |].
  apply IH. now apply reachable_handle.
Qed.

(** ** The handlers on the seed *)

Example add_line_refusals :
  (add_line open_sale 1 "" None).2 = Err BarcodeRequired
  ∧ (add_line open_sale 1 "123" (Some 0%Z)).2 = Err InvalidQuantity
  ∧ (add_line open_sale 1 "000" None).2 = Err BarcodeNotFound
  ∧ (add_line open_sale 7 "123" None).2 = Err AddLineFailed.
Proof. vm_compute. auto. Qed.

Example finalize_refusals :
  (finalize open_sale 1 0).2 = Err InvalidCashAmount
  ∧ (finalize open_sale 7 5).2 = Err TransactionNotFound
  ∧ (finalize paid_sale 1 5).2 = Err TransactionNotOpen
  ∧ (finalize open_sale 1 3).2 = Err InsufficientCash.
Proof. vm_compute. auto. Qed.

(** Cancelling an open sale deletes it with its lines and leaves the stock
    alone; a paid sale cannot be cancelled. *)
Example cancel_examples :
  (cancel open_sale 1).2 = Ok tt
  ∧ pos_transaction (cancel open_sale 1).1 = ∅
  ∧ transaction_line (cancel open_sale 1).1 = ∅
  ∧ item (cancel open_sale 1).1 = item seed_db
  ∧ (cancel paid_sale 1).2 = Err OnlyOpenCancelled.
Proof. vm_compute. auto. Qed.

(** Finalize takes the sold quantity off the stock; the refund puts it
    back and cannot be repeated, nor applied to the reversal transaction. *)
Example refund_examples :
  Item.quantity <$> item paid_sale !! 1%nat = Some 23%Z
  ∧ Item.quantity <$> item refunded_sale !! 1%nat = Some 24%Z
  ∧ Tx.status_of <$> pos_transaction refunded_sale !! 1%nat = Some Tx.refunded
  ∧ (refund_lines refunded_sale 1 [1%nat]).2 = Err OnlyFinalizedRefunded
  ∧ (refund_lines refunded_sale 2 [1%nat]).2 = Err LinesDoNotExist
  ∧ (refund_lines half_refunded_sale 1 [1%nat]).2 = Err LinesAlreadyRefunded
  ∧ (refund_lines half_refunded_sale 1 [2%nat; 2%nat]).2 = Err LinesDoNotExist.
Proof. vm_compute. auto 10. Qed.

Lemma reachable_seed_run (rs : list request) : reachable (run seed_db rs).
Proof. exists seed_items, seed_barcodes, ∅, rs. reflexivity. Defined.

(** ** C1: totals against the lines *)


Lemma toFixed2_comp (x y : Q) : x == y → toFixed2 x = toFixed2 y.
Proof.
  intros E. unfold toFixed2, toFixed2_abs, Qltb.
  rewrite (Qleb_comp 0 0 (Qeq_refl 0) x y E).
  destruct (negb _).
  - now rewrite (Qfloor_comp (- x * 100 + (1 # 2)) (- y * 100 + (1 # 2)))
      by now rewrite E.
  - now rewrite (Qfloor_comp (x * 100 + (1 # 2)) (y * 100 + (1 # 2)))
      by now rewrite E.
Qed.

Lemma refund_sums_spec (s : db) (t : nat) (ids : list nat) :
  (refund_sums s t ids).1.1 == sum_subtotal (selected s t ids)
  ∧ (refund_sums s t ids).1.2 == sum_tax (selected s t ids)
  ∧ (refund_sums s t ids).2 == sum_line_total (selected s t ids).
Proof.
  unfold refund_sums.
  pose proof (fold_refund_amounts (selected s t ids) 0 0 0) as H.
  destruct (fold_left _ _ _) as [[a b] c]. simpl.
  destruct H as (Ha & Hb & Hc). split; [| split].
  - rewrite Ha; ring.
  - rewrite Hb; ring.
  - rewrite Hc; ring.
Qed.


(** What a successful refund returns, and the reversal transaction in the
    store it leaves. *)
Lemma refund_lines_reversal (s : db) (t : nat) (ids : list nat) (s' : db)
    (r : refund_ok) :
  wf_struct s → refund_lines s t ids = (s', Ok r) →
  refundTransaction r = (next_transaction s, reversal_row s t ids)
  ∧ refundAmount r = Tx.total (reversal_row s t ids)
  ∧ pos_transaction s !! next_transaction s = None
  ∧ pos_transaction s' !! next_transaction s = Some (reversal_row s t ids)
  ∧ lines_of s' (next_transaction s) = [].
Proof.
  intros W E.
  apply refund_lines_Ok in E as (orig & rid & s2 & Hacc & Hrec & Happ).
  pose proof (f_equal snd Happ) as Hr. rewrite refund_apply_Ok in Hr.
  injection Hr as <-. simpl.
  apply (f_equal fst) in Happ. change (s', Ok _).1 with s' in Happ. subst s'.
  destruct (refund_record_spec s t ids rid s2 W Hrec) as (W2 & _ & Hl & Hp).
  pose proof (next_transaction_fresh s W) as Hfresh.
  destruct (refund_apply_tables s2 t ids (selected s t ids) (refund_sums s t ids).2
              orig (next_transaction s, reversal_row s t ids) rid)
    as (El & Ep & _).
  split; [done |]. split; [done |]. split; [done |]. split.
  - rewrite Ep, Hp.
    assert (t ≠ next_transaction s) as Hne.
    { destruct Hacc as (_ & Ht & _). intros ->. congruence. }
    destruct (forallb _ _).
    + rewrite lookup_alter_ne by done. apply lookup_insert_eq.
    + apply lookup_insert_eq.
  - apply lines_of_nil. intros k l. rewrite El, fold_mark_lookup, Hl.
    intros Hk Ht.
    assert (∃ l0, transaction_line s !! k = Some l0
                  ∧ Line.transaction_id l0 = next_transaction s) as (l0 & Hl0 & Ht0).
    { case_decide.
      - destruct (transaction_line s !! k) as [l0 |]; [| done].
        injection Hk as <-. eauto.
      - eauto. }
    apply (wf_line_fk s W) in Hl0. rewrite Ht0, Hfresh in Hl0. now destruct Hl0.
Qed.

Lemma add_line_Ok (s : db) (t : nat) (b : string) (q : option Z) (s' : db)
    (line : nat * Line.t) (tx : Tx.t) :
  add_line s t b q = (s', Ok (line, tx)) →
  ∃ it s1,
    item s !! Line.item_id line.2 = Some it
    ∧ (0 < default 1%Z q)%Z
    ∧ line.2 = Line.mk t (Line.item_id line.2) (default 1%Z q) (Item.price it)
                 (Item.tax_rate it)
                 (Item.price it * inject_Z (default 1%Z q)
                  + Item.price it * inject_Z (default 1%Z q) * Item.tax_rate it)
                 None
    ∧ insert_line line.2 s = Some (line.1, s1)
    ∧ s' = set_pos_transaction (<[t := tx]>) s1
    ∧ ∃ transaction, pos_transaction s !! t = Some transaction
        ∧ tx = Tx.with_totals (recompute_totals (lines_of s1 t)).1.1
                 (recompute_totals (lines_of s1 t)).1.2
                 (recompute_totals (lines_of s1 t)).2 transaction.
Proof.
  unfold add_line, add_line_item. case_decide; [done |].
  destruct (default 1%Z q <=? 0)%Z eqn:Hq; [done |].
  destruct (item_barcode s !! trim b) as [item_id |]; [| done].
  destruct (item s !! item_id) as [it |] eqn:Hit; [| done].
  destruct (negb (Item.is_active it)); [done |].
  destruct (insert_line _ s) as [[lineId s1] |] eqn:Hins; [| done].
  pose proof Hins as Hins'.
  apply insert_line_tables in Hins' as (_ & _ & Hp & _).
  destruct (pos_transaction s1 !! t) as [transaction |] eqn:Ht; [| done].
  destruct (recompute_totals (lines_of s1 t)) as [[a b'] c] eqn:Hsum.
  intros [= <- <- <-]. simpl. exists it, s1.
  split; [done |]. split; [lia |]. split; [done |].
  split; [done |]. split; [done |].
  exists transaction. split; [now rewrite <- Hp | now rewrite Hsum].
Qed.



(** ** C2: lines on a transaction that is not open *)

(** The handler never looks at the status: whether a line is accepted is the
    same whatever status the transaction has. *)
Lemma add_line_ignores_status (s : db) (t : nat) (b : string) (q : option Z)
    (st : Tx.status) :
  match (add_line (update_status t st s) t b q).2, (add_line s t b q).2 with
  | Ok _, Ok _ => True
  | Err e, Err e' => e = e'
  | _, _ => False
  end.
Proof.
  unfold add_line, add_line_item. simpl. case_decide; [done |].
  destruct (default 1%Z q <=? 0)%Z; [done |].
  destruct (item_barcode s !! trim b) as [item_id |]; [| done].
  destruct (item s !! item_id) as [it |]; [| done].
  destruct (negb (Item.is_active it)); [done |].
  unfold insert_line. simpl. rewrite lookup_alter_eq.
  destruct (pos_transaction s !! t) as [tx |] eqn:Ht; simpl; [| done].
  rewrite lookup_alter_eq, Ht. simpl.
  now repeat match goal with |- context [recompute_totals ?l] =>
    destruct (recompute_totals l) as [[? ?] ?] end.
Qed.

(** C2 at the failing input: transaction 1 of [paid_sale] is finalized, and
    a line for barcode 456 is accepted all the same: line 2 is inserted and
    the total of the finalized transaction moves from 3.251625 to 7.047. *)
Lemma add_line_on_finalized_accepted :
  Tx.status_of <$> pos_transaction paid_sale !! 1%nat = Some Tx.finalized
  ∧ ∃ l tx,
      (add_line paid_sale 1 "456" None).2 = Ok ((2%nat, l), tx)
      ∧ transaction_line (add_line paid_sale 1 "456" None).1 !! 2%nat = Some l
      ∧ Line.transaction_id l = 1%nat
      ∧ pos_transaction (add_line paid_sale 1 "456" None).1 !! 1%nat = Some tx
      ∧ Tx.status_of tx = Tx.finalized
      ∧ Tx.total tx == 7047 # 1000.
Proof.
  split; [vm_compute; reflexivity |].
  eexists _, _. split; [vm_compute; reflexivity |].
  split; [vm_compute; reflexivity |]. split; [reflexivity |].
  split; [vm_compute; reflexivity |]. split; [reflexivity |].
  vm_compute. reflexivity.
Qed.

(** ** C3: the outcome of finalize *)

Lemma finalize_Ok (s : db) (t : nat) (c : Q) (s' : db) (r : finalize_ok) :
  finalize s t c = (s', Ok r) →
  ∃ tx,
    0 < c ∧ pos_transaction s !! t = Some tx ∧ Tx.status_of tx = Tx.open
    ∧ Tx.total tx <= c
    ∧ r = mk_finalize_ok (Tx.with_status Tx.finalized tx)
            (Payment.mk t Payment.cash c) (toFixed2 (c - Tx.total tx))
    ∧ s' = fold_left decrement_item (lines_of s t)
             (insert_payment (Payment.mk t Payment.cash c)
                (update_status t Tx.finalized s)).
Proof.
  unfold finalize. destruct (Qle_bool c 0) eqn:Hc; [done |].
  destruct (pos_transaction s !! t) as [tx |]; [| done].
  case_bool_decide as Hst; simpl; [| done].
  destruct (Qltb c (Tx.total tx)) eqn:Hlt; [done |].
  intros [= <- <-]. exists tx.
  split. { apply Qnot_le_lt. rewrite <- Qle_bool_iff, Hc. done. }
  split; [done |]. split; [done |].
  split; [now apply Qltb_ge |]. done.
Qed.


Lemma fails_Err {A : Type} (e : error) (f : failure) :
  fails (@Err A e) f ↔ kind e = f.
Proof.
  unfold fails. split; [intros (e' & [= <-] & H); done | eauto].
Qed.




(** ** C9: the signed ledger of payments *)


Lemma refund_lines_payment (s : db) (t : nat) (ids : list nat) (s' : db)
    (r : refund_ok) :
  refund_lines s t ids = (s', Ok r) →
  payment s'
  = payment s ++ [Payment.mk (refundTransaction r).1 Payment.cash
                             (- refundAmount r)]
  ∧ refundAmount r = Tx.total (refundTransaction r).2
  ∧ refundAmount r = toFixed2 (sum_line_total (selected s t ids))
  ∧ refundTransaction r = (next_transaction s, reversal_row s t ids).
Proof.
  intros E.
  apply refund_lines_Ok in E as (orig & rid & s2 & Hacc & Hrec & Happ).
  pose proof (f_equal snd Happ) as Hr. rewrite refund_apply_Ok in Hr.
  injection Hr as <-. simpl.
  apply (f_equal fst) in Happ. change (s', Ok _).1 with s' in Happ. subst s'.
  destruct (refund_apply_tables s2 t ids (selected s t ids) (refund_sums s t ids).2
              orig (next_transaction s, reversal_row s t ids) rid)
    as (_ & _ & _ & Ep & _).
  rewrite Ep. simpl.
  assert (payment s2 = payment s) as ->.
  { apply refund_record_cases in Hrec as [(_ & Hins & _ & _) | (row & _ & ->)];
      [| done].
    unfold insert_refund in Hins. destruct (refunds_of _ _); [| done].
    now injection Hins as _ <-. }
  split; [done |]. split; [done |].
  split; [apply toFixed2_comp, refund_sums_spec | done].
Qed.



(** ** C8: where amounts are rounded *)

(** What [add_line] persists: the line total and the totals as computed,
    without rounding. *)
Lemma add_line_amounts_unrounded (s : db) (t : nat) (b : string)
    (q : option Z) (s' : db) (line : nat * Line.t) (tx : Tx.t) :
  add_line s t b q = (s', Ok (line, tx)) →
  transaction_line s' !! line.1 = Some line.2
  ∧ pos_transaction s' !! t = Some tx
  ∧ (∃ it, item s !! Line.item_id line.2 = Some it
           ∧ Line.line_total line.2
             = Item.price it * inject_Z (default 1%Z q)
               + Item.price it * inject_Z (default 1%Z q) * Item.tax_rate it)
  ∧ (Tx.subtotal tx, Tx.tax tx, Tx.total tx)
    = recompute_totals (lines_of s' t).
Proof.
  intros E.
  apply add_line_Ok in E
    as (it & s1 & Hit & _ & Hrow & Hins & -> & tx0 & _ & ->).
  apply insert_line_tables in Hins as (_ & _ & _ & Hl & _).
  split; [simpl; rewrite Hl; apply lookup_insert_eq |].
  split; [simpl; apply lookup_insert_eq |].
  split; [exists it; split; [done | now rewrite Hrow] |].
  rewrite (lines_of_core s1 (set_pos_transaction _ s1)) by done.
  simpl. now destruct (recompute_totals (lines_of s1 t)) as [[a b'] c].
Qed.

(** What a refund persists: whole numbers of cents, on the reversal
    transaction and on its payment. *)
Lemma refund_amounts_rounded (s : db) (t : nat) (ids : list nat) (s' : db)
    (r : refund_ok) :
  refund_lines s t ids = (s', Ok r) →
  ∃ a b c : Z,
    Tx.subtotal (refundTransaction r).2 = a # 100
    ∧ Tx.tax (refundTransaction r).2 = b # 100
    ∧ Tx.total (refundTransaction r).2 = c # 100
    ∧ refundAmount r = c # 100
    ∧ ∃ p, last (payment s') = Some p ∧ Payment.amount p = - (c # 100).
Proof.
  intros E.
  destruct (refund_lines_payment s t ids s' r E) as (Hp & _ & _ & Hrev).
  destruct r as [amount orig rev partial]. simpl in *. subst rev.
  apply refund_lines_Ok in E as (orig' & rid & s2 & Hacc & Hrec & Happ).
  pose proof (f_equal snd Happ) as Hr. rewrite refund_apply_Ok in Hr.
  injection Hr as <- _ _. simpl.
  destruct (toFixed2_is_cents (refund_sums s t ids).1.1) as [a Ea].
  destruct (toFixed2_is_cents (refund_sums s t ids).1.2) as [b Eb].
  destruct (toFixed2_is_cents (refund_sums s t ids).2) as [c Ec].
  exists a, b, c. rewrite Ea, Eb, Ec. repeat (split; [done |]).
  eexists. rewrite Hp, last_snoc. split; [done |]. simpl. now rewrite Ec.
Qed.


(** ** C4: the inventory after finalize *)

Lemma sold_cons_eq (i k : nat) (l : Line.t) (ls : list (nat * Line.t)) :
  Line.item_id l = i → sold i ((k, l) :: ls) = Line.quantity l :: sold i ls.
Proof. intros H. unfold sold. now rewrite filter_cons_True. Qed.

Lemma sold_cons_ne (i k : nat) (l : Line.t) (ls : list (nat * Line.t)) :
  Line.item_id l ≠ i → sold i ((k, l) :: ls) = sold i ls.
Proof. intros H. unfold sold. now rewrite filter_cons_False. Qed.

Lemma fold_decrement_rejected (ls : list (nat * Line.t)) (s : db) :
  item_update_rejected (fold_left decrement_item ls s) = item_update_rejected s.
Proof.
  pose proof (fold_decrement_ledger ls s) as E. unfold ledger_part in E.
  now injection E as _ _ _ _ _ _ _ E _.
Qed.

Lemma decrement_item_lookup (s : db) (line : nat * Line.t) (i : nat) :
  item (decrement_item s line) !! i
  = if decide (i = Line.item_id line.2 ∧ i ∉ item_update_rejected s)
    then (λ it, Item.with_quantity
                  (decrement (Item.quantity it) (Line.quantity line.2)) it)
           <$> item s !! i
    else item s !! i.
Proof.
  unfold decrement_item, update_item_quantity.
  destruct (item s !! Line.item_id line.2) as [it |] eqn:Hit.
  - case_decide as Hrej.
    + rewrite decide_False; [done |]. intros [-> H]. done.
    + simpl. rewrite lookup_alter. case_decide as Hi.
      * subst i. rewrite decide_True by done. now rewrite Hit.
      * rewrite decide_False; [done |]. intros [-> _]. done.
  - case_decide as Hd; [| done]. destruct Hd as [-> _]. now rewrite Hit.
Qed.

(** The stock of an item after the loop: one floored subtraction per line
    that sells it, unless its row is missing or its update is rejected. *)
Lemma fold_decrement_lookup (ls : list (nat * Line.t)) (s : db) (i : nat) :
  item (fold_left decrement_item ls s) !! i
  = if decide (i ∈ item_update_rejected s) then item s !! i
    else (λ it, if decide (sold i ls = []) then it
                else Item.with_quantity
                       (fold_left decrement (sold i ls) (Item.quantity it)) it)
           <$> item s !! i.
Proof.
  revert s. induction ls as [| [k l] ls IH]; intros s; simpl.
  - destruct (decide (i ∈ item_update_rejected s)); [done |].
    now destruct (item s !! i).
  - rewrite IH.
    pose proof (decrement_item_ledger s (k, l)) as E. unfold ledger_part in E.
    injection E as _ _ _ _ _ _ _ E _. rewrite E.
    rewrite decrement_item_lookup. simpl.
    destruct (decide (i ∈ item_update_rejected s)) as [Hrej | Hrej].
    + rewrite decide_False; [done |]. intros [_ H]. done.
    + destruct (decide (i = Line.item_id l)) as [-> | Hi].
      * rewrite (decide_True (P := _ ∧ _)) by done.
        rewrite sold_cons_eq by done.
        destruct (item s !! Line.item_id l) as [it |]; [| done]. simpl. f_equal.
        destruct (decide (sold (Line.item_id l) ls = [])) as [-> | Hne]; done.
      * rewrite (decide_False (P := _ ∧ _)) by (intros [H _]; done).
        rewrite sold_cons_ne by done. done.
Qed.

Lemma fold_decrement_nonneg (qs : list Z) (q : Z) :
  qs ≠ [] → (0 ≤ fold_left decrement qs q)%Z.
Proof.
  intros H. destruct (exists_last H) as (qs' & n & ->).
  rewrite fold_left_app. simpl. unfold decrement at 1. lia.
Qed.

(** Whether finalize succeeds, and what it answers, does not depend on the
    catalog: neither on the stock nor on which updates are rejected. *)
Lemma finalize_response_catalog (s : db) (t : nat) (c : Q)
    (items : gmap nat Item.t) (barcodes : gmap string nat) (rejected : gset nat) :
  (finalize (set_catalog items barcodes rejected s) t c).2 = (finalize s t c).2.
Proof.
  unfold finalize. simpl. destruct (Qle_bool c 0); [done |].
  destruct (pos_transaction s !! t) as [tx |]; [| done].
  destruct (negb _); [done |]. now destruct (Qltb _ _).
Qed.

(** C4.  After a successful finalize the stock of an item has gone through
    one [max(0, quantity - line.quantity)] per line that sells it, so it is
    not negative, and it is [max(0, quantity - line.quantity)] when one line
    sells it; an item whose row is missing or whose update is rejected is
    left alone, and the others are updated all the same; the answer of
    finalize is the same whatever the stock and whatever is rejected. *)
Theorem finalize_inventory (s : db) (t : nat) (cashAmount : Q) (s' : db)
    (r : finalize_ok) :
  finalize s t cashAmount = (s', Ok r) →
  (∀ i it, item s !! i = Some it → i ∉ item_update_rejected s →
     sold i (lines_of s t) ≠ [] →
     ∃ it', item s' !! i = Some it'
       ∧ Item.quantity it'
         = fold_left decrement (sold i (lines_of s t)) (Item.quantity it)
       ∧ (0 ≤ Item.quantity it')%Z
       ∧ (∀ n, sold i (lines_of s t) = [n] →
               Item.quantity it' = Z.max 0 (Item.quantity it - n)))
  ∧ (∀ i, item s !! i = None ∨ i ∈ item_update_rejected s
          ∨ sold i (lines_of s t) = [] →
          item s' !! i = item s !! i)
  ∧ (∀ items barcodes rejected,
       (finalize (set_catalog items barcodes rejected s) t cashAmount).2 = Ok r).
Proof.
  intros E. split; [| split].
  - intros i it Hit Hrej Hsold.
    apply finalize_Ok in E as (tx & _ & _ & _ & _ & _ & ->).
    rewrite fold_decrement_lookup. simpl.
    rewrite decide_False by done. rewrite Hit. simpl.
    rewrite decide_False by done. eexists. split; [done |]. simpl.
    split; [done |]. split; [now apply fold_decrement_nonneg |].
    intros n ->. reflexivity.
  - intros i Hi.
    apply finalize_Ok in E as (tx & _ & _ & _ & _ & _ & ->).
    rewrite fold_decrement_lookup. simpl.
    case_decide as Hrej; [done |].
    destruct (item s !! i) as [it |]; [| done]. simpl.
    destruct Hi as [Hi | [Hi | Hi]]; [done | done |].
    now rewrite decide_True.
  - intros items barcodes rejected.
    rewrite finalize_response_catalog. now rewrite E.
Qed.

Lemma finalize_inventory_witness :
  ∃ s' r,
    finalize short_stock 1 20 = (s', Ok r)
    ∧ Item.quantity <$> item s' !! 1%nat = Some 0%Z
    ∧ Item.quantity <$> item s' !! 2%nat = Some 12%Z
    ∧ Item.quantity <$> item s' !! 3%nat = Some 34%Z
    ∧ ∀ i, item short_stock !! i = None ∨ i ∈ item_update_rejected short_stock
           ∨ sold i (lines_of short_stock 1) = [] →
           item s' !! i = item short_stock !! i.
Proof.
  eexists _, _. split; [vm_compute; reflexivity |].
  split; [vm_compute; reflexivity |]. split; [vm_compute; reflexivity |].
  split; [vm_compute; reflexivity |].
  apply (finalize_inventory short_stock 1 20 _ _ eq_refl).
Defined.

(** ** The store after a successful refund *)

Lemma refund_record_tables (s : db) (t : nat) (ids : list nat) (rid : nat)
    (s2 : db) :
  refund_record s t ids = Some (rid, s2) →
  transaction_line s2 = transaction_line s
  ∧ pos_transaction s2
    = <[next_transaction s := reversal_row s t ids]> (pos_transaction s)
  ∧ next_transaction s2 = S (next_transaction s)
  ∧ ((refunds_of s t = [] ∧ rid = next_refund s
      ∧ refund s2 = <[rid := Refund.mk t (next_transaction s)]> (refund s))
     ∨ (∃ row, refunds_of s t = [(rid, row)] ∧ refund s2 = refund s)).
Proof.
  intros H.
  apply refund_record_cases in H as [(Hnone & Hins & -> & Hr) | (row & Hone & ->)].
  - unfold insert_refund in Hins. destruct (refunds_of _ _); [| done].
    injection Hins as <-. simpl. auto 10.
  - simpl. split; [done |]. split; [done |]. split; [done |]. right. eauto.
Qed.

Lemma refund_lines_effect (s : db) (t : nat) (ids : list nat) (s' : db)
    (r : refund_ok) :
  refund_lines s t ids = (s', Ok r) →
  ∃ orig rid,
    refund_accepted s t ids orig
    ∧ (∀ k, transaction_line s' !! k
            = if decide (k ∈ ids)
              then Line.with_refunded_by rid <$> transaction_line s !! k
              else transaction_line s !! k)
    ∧ ((refunds_of s t = [] ∧ rid = next_refund s
        ∧ refund s' = <[rid := Refund.mk t (next_transaction s)]> (refund s))
       ∨ (∃ row, refunds_of s t = [(rid, row)] ∧ refund s' = refund s))
    ∧ pos_transaction s'
      = (if forallb is_refunded (lines_of s' t)
         then alter (Tx.with_status Tx.refunded) t
                (<[next_transaction s := reversal_row s t ids]> (pos_transaction s))
         else <[next_transaction s := reversal_row s t ids]> (pos_transaction s))
    ∧ r = mk_refund_ok (Tx.total (reversal_row s t ids)) orig
            (next_transaction s, reversal_row s t ids)
            (existsb (λ line, negb (is_refunded line)) (lines_of s' t)).
Proof.
  intros E.
  apply refund_lines_Ok in E as (orig & rid & s2 & Hacc & Hrec & Happ).
  pose proof (f_equal snd Happ) as Hr. rewrite refund_apply_Ok in Hr.
  injection Hr as <-.
  apply (f_equal fst) in Happ. change (s', Ok _).1 with s' in Happ. subst s'.
  destruct (refund_record_tables s t ids rid s2 Hrec) as (Hl & Hp & _ & Hrf).
  destruct (refund_apply_tables s2 t ids (selected s t ids) (refund_sums s t ids).2
              orig (next_transaction s, reversal_row s t ids) rid)
    as (El & Ep & Er & _).
  exists orig, rid. split; [done |].
  rewrite (lines_of_core _ _ t El).
  split; [| split; [| split]].
  - intros k. now rewrite El, fold_mark_lookup, Hl.
  - rewrite Er. exact Hrf.
  - now rewrite Ep, Hp.
  - done.
Qed.

(** ** C6: the status of the original transaction *)

(** C6.  After a successful refund the original transaction is [refunded]
    exactly when each of its lines has [refunded_by] set, and [finalized]
    otherwise; [isPartial] is true exactly when one of its lines has not. *)
Theorem refund_status (s : db) (t : nat) (ids : list nat) (s' : db)
    (r : refund_ok) :
  refund_lines s t ids = (s', Ok r) →
  ∃ tx',
    pos_transaction s' !! t = Some tx'
    ∧ (Tx.status_of tx' = Tx.refunded ↔
         ∀ k l, transaction_line s' !! k = Some l →
                Line.transaction_id l = t → is_Some (Line.refunded_by l))
    ∧ (Tx.status_of tx' ≠ Tx.refunded → Tx.status_of tx' = Tx.finalized)
    ∧ (isPartial r = true ↔
         ∃ k l, transaction_line s' !! k = Some l
                ∧ Line.transaction_id l = t ∧ Line.refunded_by l = None).
Proof.
  intros E.
  apply refund_lines_effect in E as (orig & rid & Hacc & _ & _ & Hp & ->).
  destruct Hacc as (_ & Ht & Hst & _).
  assert (∃ tx2, <[next_transaction s := reversal_row s t ids]>
                   (pos_transaction s) !! t = Some tx2
                 ∧ Tx.status_of tx2 = Tx.finalized) as (tx2 & Ht2 & Hst2).
  { rewrite lookup_insert. case_decide; eauto. }
  assert (forallb is_refunded (lines_of s' t) = true ↔
          ∀ k l, transaction_line s' !! k = Some l →
                 Line.transaction_id l = t → is_Some (Line.refunded_by l)) as Hall.
  { rewrite forallb_forall. split.
    - intros H k l Hk Hl.
      assert (is_refunded (k, l) = true) as Hr.
      { apply H, list_elem_of_In, elem_of_lines_of. done. }
      unfold is_refunded in Hr. simpl in Hr.
      destruct (Line.refunded_by l); [eauto | done].
    - intros H [k l] Hin. apply list_elem_of_In, elem_of_lines_of in Hin as [Hk Hl].
      destruct (H k l Hk Hl) as [x Hx]. unfold is_refunded. simpl. now rewrite Hx. }
  simpl.
  destruct (forallb is_refunded (lines_of s' t)) eqn:Hf.
  - exists (Tx.with_status Tx.refunded tx2).
    split; [rewrite Hp, lookup_alter_eq, Ht2; done |].
    split; [split; [intros _; now apply Hall | done] |].
    split; [done |].
    rewrite existsb_exists. split.
    + intros ([k l] & Hin & Hn). rewrite forallb_forall in Hf.
      apply Hf in Hin. rewrite Hin in Hn. done.
    + intros (k & l & Hk & Hl & Hn). exfalso.
      destruct (proj1 Hall eq_refl k l Hk Hl) as [x Hx]. congruence.
  - exists tx2. split; [now rewrite Hp |]. rewrite Hst2.
    split; [split; [done | intros H; apply Hall in H; done] |].
    split; [done |].
    rewrite existsb_exists. split.
    + intros ([k l] & Hin & Hn).
      apply list_elem_of_In, elem_of_lines_of in Hin as [Hk Hl].
      exists k, l. split; [done |]. split; [done |].
      unfold is_refunded in Hn. simpl in Hn. now destruct (Line.refunded_by l).
    + intros (k & l & Hk & Hl & Hn). exists (k, l). split.
      * apply list_elem_of_In, elem_of_lines_of. done.
      * unfold is_refunded. simpl. now rewrite Hn.
Qed.

Lemma refund_status_witness :
  (∃ s' r tx',
     refund_lines two_line_sale 1 [1%nat] = (s', Ok r)
     ∧ pos_transaction s' !! 1%nat = Some tx'
     ∧ Tx.status_of tx' = Tx.finalized ∧ isPartial r = true)
  ∧ (∃ s' r tx',
       refund_lines half_refunded_sale 1 [2%nat] = (s', Ok r)
       ∧ pos_transaction s' !! 1%nat = Some tx'
       ∧ Tx.status_of tx' = Tx.refunded ∧ isPartial r = false).
Proof.
  split.
  - destruct (refund_lines two_line_sale 1 [1%nat]) as [s' [r | e]] eqn:E;
      [| vm_compute in E; discriminate E].
    destruct (refund_status _ _ _ _ _ E) as (tx' & Ht & _ & _ & _).
    exists s', r, tx'. split; [done |]. split; [done |].
    vm_compute in E. injection E as <- <-.
    vm_compute in Ht. injection Ht as <-. done.
  - destruct (refund_lines half_refunded_sale 1 [2%nat]) as [s' [r | e]] eqn:E;
      [| vm_compute in E; discriminate E].
    destruct (refund_status _ _ _ _ _ E) as (tx' & Ht & _ & _ & _).
    exists s', r, tx'. split; [done |]. split; [done |].
    vm_compute in E. injection E as <- <-.
    vm_compute in Ht. injection Ht as <-. done.
Defined.

(** ** C5: the checks of refund *)

Lemma refund_lines_lines (s : db) (t : nat) (ids : list nat) :
  next_line (refund_lines s t ids).1 = next_line s
  ∧ ∀ k, transaction_line (refund_lines s t ids).1 !! k = transaction_line s !! k
         ∨ ∃ l rid, transaction_line s !! k = Some l
                    ∧ transaction_line (refund_lines s t ids).1 !! k
                      = Some (Line.with_refunded_by rid l).
Proof.
  destruct (refund_lines s t ids) as [s' [r | e]] eqn:E; simpl.
  - pose proof E as E'.
    apply refund_lines_effect in E' as (orig & rid & _ & Hl & _).
    apply refund_lines_Ok in E as (orig' & rid' & s2 & _ & Hrec & Happ).
    apply (f_equal fst) in Happ. change (s', Ok _).1 with s' in Happ.
    split.
    + subst s'.
      destruct (refund_apply_tables s2 t ids (selected s t ids)
                  (refund_sums s t ids).2 orig'
                  (next_transaction s, reversal_row s t ids) rid')
        as (_ & _ & _ & _ & _ & -> & _).
      apply refund_record_cases in Hrec as [(_ & Hins & _) | (row & _ & ->)];
        [| done].
      unfold insert_refund in Hins. destruct (refunds_of _ _); [| done].
      now injection Hins as _ <-.
    + intros k. rewrite Hl. case_decide; [| now left].
      destruct (transaction_line s !! k) as [l |]; [| now left].
      right. eauto.
  - apply refund_lines_Err in E as [-> | [-> _]]; split; auto.
Qed.

Lemma spent_insert_line (row : Line.t) (s s1 : db) (id k : nat) :
  insert_line row s = Some (id, s1) → spent s k → spent s1 k.
Proof.
  unfold insert_line. destruct (pos_transaction s !! _); [| done].
  intros [= <- <-] [Hlt H]. split; simpl; [lia |].
  rewrite lookup_insert_ne; [done | lia].
Qed.

Lemma spent_handle (s : db) (r : request) (k : nat) :
  spent s k → spent (handle s r) k.
Proof.
  intros Hs. destruct r; simpl; try done.
  - destruct (add_line_store s transactionId barcode quantity) as
      [-> | (item_id & it & row & lineId & s1 & _ & _ & _ & Hins & H)]; [done |].
    apply (spent_insert_line _ _ _ _ k Hins) in Hs.
    destruct (pos_transaction s1 !! transactionId); now rewrite H.
  - destruct (finalize_store s transactionId cashAmount) as [-> | E]; [done |].
    unfold core in E. injection E as _ E _ _ E' _.
    unfold spent. simpl in E, E'. now rewrite E, E'.
  - destruct (cancel_store s transactionId) as [-> | ->]; [done |].
    destruct Hs as [Hlt H]. split; [done |]. simpl.
    rewrite map_lookup_filter.
    destruct (transaction_line s !! k) as [l |]; [| done]. simpl.
    now case_guard.
  - destruct Hs as [Hlt H].
    destruct (refund_lines_lines s transactionId lineIds) as [En Hl].
    split; [now rewrite En |].
    destruct (Hl k) as [-> | (l & rid & Hk & ->)]; [done |]. simpl. eauto.
Qed.

Lemma spent_run (rs : list request) (s : db) (k : nat) :
  spent s k → spent (run s rs) k.
Proof.
  revert s. induction rs as [| r rs IH]; intros s H; simpl; [done |].
  now apply IH, spent_handle.
Qed.

(** A request that selects a spent line is refused. *)
Lemma refund_spent_refused (s : db) (t : nat) (ids : list nat) (k : nat) :
  spent s k → k ∈ ids → ∃ e, refund_lines s t ids = (s, Err e) ∧ kind e ≠ Internal.
Proof.
  intros [_ Hk] Hin. rewrite refund_lines_unfold.
  case_bool_decide; [eexists; split; [done |]; done |].
  destruct (pos_transaction s !! t) as [orig |];
    [| eexists; split; [done |]; done].
  destruct (negb _); [eexists; split; [done |]; done |].
  destruct (length (selected s t ids) =? length ids)%nat eqn:Hlen; simpl;
    [| eexists; split; [done |]; done].
  apply Nat.eqb_eq, selected_length in Hlen as [_ Hall].
  destruct (Hall k Hin) as (l & Hl & Ht). rewrite Hl in Hk.
  destruct (filter _ (selected s t ids)) as [| x xs] eqn:Hf; simpl;
    [| eexists; split; [done |]; done].
  exfalso. assert ((k, l) ∈ filter (λ kv, is_refunded kv) (selected s t ids)) as H0.
  { apply list_elem_of_filter. split; [| now apply elem_of_selected].
    unfold is_refunded. simpl. now destruct Hk as [x ->]. }
  rewrite Hf in H0. inversion H0.
Qed.

(** C5.  The checks of refund, in the order of the handler, each one under
    the earlier ones having passed: an empty selection, a missing
    transaction, a status other than [finalized], an id that is not a line
    of the transaction or a selected line already refunded.  A refused
    request changes no line.  A line refunded once, in a store the handlers
    can reach, makes every later request that selects it fail, the store
    unchanged. *)
Theorem refund_validation (s : db) (t : nat) (ids : list nat) :
  let out := refund_lines s t ids in
  (ids = [] → fails out.2 InvalidInput)
  ∧ (ids ≠ [] → pos_transaction s !! t = None → fails out.2 NotFound)
  ∧ (∀ tx, ids ≠ [] → pos_transaction s !! t = Some tx →
           Tx.status_of tx ≠ Tx.finalized → fails out.2 InvalidState)
  ∧ (∀ tx, ids ≠ [] → pos_transaction s !! t = Some tx →
           Tx.status_of tx = Tx.finalized →
           (∃ k, k ∈ ids ∧ ∀ l, transaction_line s !! k = Some l →
                                Line.transaction_id l ≠ t)
           ∨ (∃ k l, k ∈ ids ∧ transaction_line s !! k = Some l
                     ∧ Line.transaction_id l = t
                     ∧ is_Some (Line.refunded_by l)) →
           fails out.2 InvalidInput)
  ∧ (∀ e, out.2 = Err e → transaction_line out.1 = transaction_line s)
  ∧ (reachable s →
     ∀ k l, transaction_line s !! k = Some l → is_Some (Line.refunded_by l) →
     ∀ rs t' ids', k ∈ ids' →
       ∃ e, refund_lines (run s rs) t' ids' = (run s rs, Err e)).
Proof.
  simpl. split; [| split; [| split; [| split; [| split]]]].
  - intros ->. rewrite refund_lines_unfold. simpl. now apply fails_Err.
  - intros Hne Ht. rewrite refund_lines_unfold.
    rewrite bool_decide_eq_false_2 by done. rewrite Ht. now apply fails_Err.
  - intros tx Hne Ht Hst. rewrite refund_lines_unfold.
    rewrite bool_decide_eq_false_2 by done. rewrite Ht.
    rewrite bool_decide_eq_false_2 by done. simpl. now apply fails_Err.
  - intros tx Hne Ht Hst Hbad. rewrite refund_lines_unfold.
    rewrite bool_decide_eq_false_2 by done. rewrite Ht.
    rewrite bool_decide_eq_true_2 by done. simpl.
    destruct (length (selected s t ids) =? length ids)%nat eqn:Hlen; simpl;
      [| now apply fails_Err].
    apply Nat.eqb_eq, selected_length in Hlen as [_ Hall].
    destruct Hbad as [(k & Hk & Hnot) | (k & l & Hk & Hl & Hlt & Hr)].
    + exfalso. destruct (Hall k Hk) as (l & Hl & Hlt). now apply (Hnot l).
    + destruct (filter _ (selected s t ids)) as [| x xs] eqn:Hf; simpl;
        [| now apply fails_Err].
      exfalso.
      assert ((k, l) ∈ filter (λ kv, is_refunded kv) (selected s t ids)) as H0.
      { apply list_elem_of_filter. split; [| now apply elem_of_selected].
        unfold is_refunded. simpl. now destruct Hr as [x ->]. }
      rewrite Hf in H0. inversion H0.
  - intros e He. destruct (refund_lines s t ids) as [s' out] eqn:E.
    simpl in He. subst out.
    apply refund_lines_Err in E as [-> | [-> _]]; done.
  - intros Hr k l Hk Hrb rs t' ids' Hin.
    assert (spent s k) as Hs.
    { split; [| now rewrite Hk].
      apply (wf_line_fresh s (proj1 (reachable_wf s Hr))). now rewrite Hk. }
    apply (spent_run rs) in Hs.
    destruct (refund_spent_refused _ t' ids' k Hs Hin) as (e & He & _). eauto.
Qed.

Lemma refund_validation_witness :
  reachable half_refunded_sale
  ∧ (∃ l, transaction_line half_refunded_sale !! 1%nat = Some l
          ∧ is_Some (Line.refunded_by l))
  ∧ ∃ e, refund_lines (run half_refunded_sale [OpenTransaction]) 1 [2%nat; 1%nat]
         = (run half_refunded_sale [OpenTransaction], Err e).
Proof.
  assert (reachable half_refunded_sale) as Hr.
  { apply reachable_run, reachable_seed_run. }
  split; [exact Hr |].
  assert (transaction_line half_refunded_sale !! 1%nat
          = Some (Line.mk 1 1 1 (299 # 100) (875 # 10000)
                          (325162500 # 100000000) (Some 1%nat))) as Hl
    by (vm_compute; reflexivity).
  split; [eexists; split; [exact Hl | simpl; eauto] |].
  apply (proj2 (proj2 (proj2 (proj2 (proj2
           (refund_validation half_refunded_sale 1 [1%nat])))))
           Hr 1%nat _ Hl (mk_is_Some _ _ eq_refl) [OpenTransaction] 1%nat
           [2%nat; 1%nat]).
  right. left.
Defined.

(** ** C7 and C10: one refund record, many reversal transactions *)

Lemma reachable_refund_lines (s : db) (t : nat) (ids : list nat) (s' : db)
    (out : response refund_ok) :
  reachable s → refund_lines s t ids = (s', out) → reachable s'.
Proof.
  intros Hr E. change s' with (s', out).1. rewrite <- E.
  apply (reachable_handle s (RefundLines t ids) Hr).
Qed.

(** Refund records are never changed nor removed. *)
Lemma refund_rows_handle (s : db) (r : request) (k : nat) (row : Refund.t) :
  wf_struct s → refund s !! k = Some row → refund (handle s r) !! k = Some row.
Proof.
  intros W Hk. destruct r; simpl; try done.
  - destruct (add_line_store s transactionId barcode quantity) as
      [-> | (item_id & it & row' & lineId & s1 & _ & _ & _ & Hins & H)]; [done |].
    apply insert_line_tables in Hins as (_ & _ & _ & _ & Hr & _).
    destruct (pos_transaction s1 !! transactionId); rewrite H; simpl;
      now rewrite Hr.
  - destruct (finalize_store s transactionId cashAmount) as [-> | E]; [done |].
    unfold core in E. injection E as _ _ E _ _ _. simpl in E. now rewrite E.
  - destruct (cancel_store s transactionId) as [-> | ->]; done.
  - destruct (refund_lines s transactionId lineIds) as [s' [r | e]] eqn:E; simpl.
    + apply refund_lines_effect in E
        as (orig & rid & _ & _ & [(_ & -> & ->) | (row' & _ & ->)] & _);
        [| done].
      rewrite lookup_insert_ne; [done |].
      intros <-. rewrite (next_refund_fresh s W) in Hk. done.
    + apply refund_lines_Err in E as [-> | [-> _]]; done.
Qed.

Lemma refund_rows_run (rs : list request) (s : db) (k : nat) (row : Refund.t) :
  wf_struct s → refund s !! k = Some row → refund (run s rs) !! k = Some row.
Proof.
  revert s. induction rs as [| r rs IH]; intros s W Hk; simpl; [done |].
  apply IH; [now apply wf_struct_handle | now apply refund_rows_handle].
Qed.

(** C7.  In every store the handlers can reach, two refund records of one
    original transaction are the same record, and the refunded lines of one
    transaction all name the same record.  A successful refund marks the
    selected lines with one record id: that of a record it creates when the
    transaction has none, that of the record the transaction has otherwise,
    in which case the table of records is left as it was. *)
Theorem one_refund_record (s : db) :
  reachable s →
  (∀ k1 k2 r1 r2, refund s !! k1 = Some r1 → refund s !! k2 = Some r2 →
     Refund.original_tx r1 = Refund.original_tx r2 → k1 = k2)
  ∧ (∀ k1 k2 l1 l2 r1 r2,
       transaction_line s !! k1 = Some l1 → transaction_line s !! k2 = Some l2 →
       Line.transaction_id l1 = Line.transaction_id l2 →
       Line.refunded_by l1 = Some r1 → Line.refunded_by l2 = Some r2 → r1 = r2)
  ∧ (∀ t ids s' r, refund_lines s t ids = (s', Ok r) →
       ∃ rid,
         (∀ k, k ∈ ids →
            ∃ l, transaction_line s' !! k = Some l
                 ∧ Line.transaction_id l = t ∧ Line.refunded_by l = Some rid)
         ∧ (∃ row, refund s' !! rid = Some row ∧ Refund.original_tx row = t)
         ∧ ((∀ k row, refund s !! k = Some row → Refund.original_tx row ≠ t) →
            refund s !! rid = None
            ∧ refund s'
              = <[rid := Refund.mk t (refundTransaction r).1]> (refund s))
         ∧ (∀ k row, refund s !! k = Some row → Refund.original_tx row = t →
                     k = rid ∧ refund s' = refund s)).
Proof.
  intros Hr. destruct (reachable_wf s Hr) as [W _].
  split; [apply (wf_refund_unique s W) |]. split.
  - intros k1 k2 l1 l2 r1 r2 Hk1 Hk2 Ht Hr1 Hr2.
    destruct (wf_refunded_by s W k1 l1 r1 Hk1 Hr1) as (row1 & Hrow1 & Ho1).
    destruct (wf_refunded_by s W k2 l2 r2 Hk2 Hr2) as (row2 & Hrow2 & Ho2).
    apply (wf_refund_unique s W r1 r2 row1 row2 Hrow1 Hrow2). congruence.
  - intros t ids s' r E.
    apply refund_lines_effect in E as (orig & rid & Hacc & Hl & Hrf & _ & ->).
    apply refund_accepted_lines in Hacc as [_ Hall].
    exists rid. split; [| split; [| split]].
    + intros k Hk. destruct (Hall k Hk) as (l & Hkl & Ht & _).
      rewrite Hl, decide_True, Hkl by done. simpl. eauto.
    + destruct Hrf as [(_ & _ & ->) | (row & Hone & ->)].
      * rewrite lookup_insert_eq. eauto.
      * assert ((rid, row) ∈ refunds_of s t) as Hin by (rewrite Hone; left).
        apply elem_of_refunds_of in Hin. eauto.
    + intros Hnone. destruct Hrf as [(_ & -> & ->) | (row & Hone & _)].
      * split; [now apply next_refund_fresh | done].
      * exfalso.
        assert ((rid, row) ∈ refunds_of s t) as Hin by (rewrite Hone; left).
        apply elem_of_refunds_of in Hin as [Hin Ho]. now apply (Hnone rid row).
    + intros k row Hk Ho.
      assert ((k, row) ∈ refunds_of s t) as Hin by now apply elem_of_refunds_of.
      destruct Hrf as [(Hnone & _) | (row' & Hone & ->)].
      * rewrite Hnone in Hin. inversion Hin.
      * rewrite Hone in Hin. apply list_elem_of_singleton in Hin.
        injection Hin as -> _. done.
Qed.

(** The two partial refunds of [two_line_sale] mark their lines with the
    same record, 1. *)
Lemma one_refund_record_witness :
  reachable half_refunded_sale
  ∧ ∃ s' r l1 l2,
      refund_lines half_refunded_sale 1 [2%nat] = (s', Ok r)
      ∧ transaction_line s' !! 1%nat = Some l1
      ∧ transaction_line s' !! 2%nat = Some l2
      ∧ Line.refunded_by l1 = Some 1%nat ∧ Line.refunded_by l2 = Some 1%nat
      ∧ refund s' = refund half_refunded_sale
      ∧ ∀ k1 k2 r1 r2, refund s' !! k1 = Some r1 → refund s' !! k2 = Some r2 →
          Refund.original_tx r1 = Refund.original_tx r2 → k1 = k2.
Proof.
  assert (reachable half_refunded_sale) as Hr
    by apply reachable_run, reachable_seed_run.
  split; [exact Hr |].
  destruct (refund_lines half_refunded_sale 1 [2%nat]) as [s' [r | e]] eqn:E;
    [| vm_compute in E; discriminate E].
  pose proof (reachable_refund_lines _ _ _ _ _ Hr E) as Hr'.
  pose proof (proj1 (one_refund_record s' Hr')) as Hu.
  exists s', r. pose proof E as E'. vm_compute in E'. injection E' as <- <-.
  eexists _, _. split; [exact E |].
  split; [vm_compute; reflexivity |]. split; [vm_compute; reflexivity |].
  split; [reflexivity |]. split; [reflexivity |].
  split; [vm_compute; reflexivity |]. exact Hu.
Defined.

(** C10.  A successful refund, in a store the handlers can reach, inserts a
    transaction under an id never used before, with status [finalized] and
    no lines.  When the original transaction has no refund record yet, the
    record created references that transaction.  When it has one already,
    the table of records is left as it was, so that record still has the
    [refund_tx] it was created with, and no record references the new
    transaction.  Records never change afterwards either. *)
Theorem reversal_per_refund (s : db) (t : nat) (ids : list nat) (s' : db)
    (r : refund_ok) :
  reachable s → refund_lines s t ids = (s', Ok r) →
  pos_transaction s !! (refundTransaction r).1 = None
  ∧ pos_transaction s' !! (refundTransaction r).1 = Some (refundTransaction r).2
  ∧ Tx.status_of (refundTransaction r).2 = Tx.finalized
  ∧ lines_of s' (refundTransaction r).1 = []
  ∧ ((∀ k row, refund s !! k = Some row → Refund.original_tx row ≠ t) →
       ∃ rid, refund s !! rid = None
              ∧ refund s' !! rid = Some (Refund.mk t (refundTransaction r).1))
  ∧ (∀ k row, refund s !! k = Some row → Refund.original_tx row = t →
       refund s' = refund s
       ∧ Refund.refund_tx row ≠ (refundTransaction r).1
       ∧ ∀ k' row', refund s' !! k' = Some row' →
                    Refund.refund_tx row' ≠ (refundTransaction r).1)
  ∧ (∀ k row rs, refund s' !! k = Some row → refund (run s' rs) !! k = Some row).
Proof.
  intros Hr E. destruct (reachable_wf s Hr) as [W _].
  pose proof (reachable_refund_lines _ _ _ _ _ Hr E) as Hr'.
  destruct (refund_lines_reversal s t ids s' r W E) as (-> & _ & Hf & Hp & Hn).
  simpl. split; [done |]. split; [done |].
  split; [done |]. split; [done |]. split; [| split].
  - intros Hnone.
    apply refund_lines_effect in E as (orig & rid & _ & _ & Hrf & _).
    destruct Hrf as [(_ & -> & ->) | (row & Hone & _)].
    + exists (next_refund s).
      split; [now apply next_refund_fresh | apply lookup_insert_eq].
    + exfalso.
      assert ((rid, row) ∈ refunds_of s t) as Hin by (rewrite Hone; left).
      apply elem_of_refunds_of in Hin as [Hin Ho]. now apply (Hnone rid row).
  - intros k row Hk Ho.
    apply refund_lines_effect in E as (orig & rid & _ & _ & Hrf & _).
    assert ((k, row) ∈ refunds_of s t) as Hin by now apply elem_of_refunds_of.
    destruct Hrf as [(Hnone & _) | (row0 & _ & ->)].
    { rewrite Hnone in Hin. inversion Hin. }
    split; [done |].
    assert (∀ k' row', refund s !! k' = Some row' →
                       Refund.refund_tx row' ≠ next_transaction s) as Hlt.
    { intros k' row' Hk'. apply (wf_refund_tx s W) in Hk'. lia. }
    split; [now apply (Hlt k) | exact Hlt].
  - intros k row rs. apply refund_rows_run.
    apply (proj1 (reachable_wf s' Hr')).
Qed.

(** The second partial refund of [two_line_sale] inserts transaction 3; the
    record of the sale still references transaction 2, the reversal of the
    first. *)
Lemma reversal_per_refund_witness :
  reachable half_refunded_sale
  ∧ refund half_refunded_sale !! 1%nat = Some (Refund.mk 1 2)
  ∧ ∃ s' r,
      refund_lines half_refunded_sale 1 [2%nat] = (s', Ok r)
      ∧ (refundTransaction r).1 = 3%nat
      ∧ pos_transaction half_refunded_sale !! 3%nat = None
      ∧ lines_of s' 3 = []
      ∧ refund s' !! 1%nat = Some (Refund.mk 1 2)
      ∧ ∀ k' row', refund s' !! k' = Some row' → Refund.refund_tx row' ≠ 3%nat.
Proof.
  assert (reachable half_refunded_sale) as Hr
    by apply reachable_run, reachable_seed_run.
  assert (refund half_refunded_sale !! 1%nat = Some (Refund.mk 1 2)) as Hk
    by (vm_compute; reflexivity).
  split; [exact Hr |]. split; [exact Hk |].
  destruct (refund_lines half_refunded_sale 1 [2%nat]) as [s' [r | e]] eqn:E;
    [| vm_compute in E; discriminate E].
  destruct (reversal_per_refund _ _ _ _ _ Hr E)
    as (Hf & _ & _ & Hn & _ & Hreuse & _).
  destruct (Hreuse 1%nat _ Hk eq_refl) as (Hsame & _ & Hnone).
  assert ((refundTransaction r).1 = 3%nat) as H3.
  { pose proof E as E'. vm_compute in E'. now injection E' as _ <-. }
  rewrite H3 in Hf, Hn, Hnone. exists s', r.
  split; [reflexivity |]. split; [exact H3 |]. split; [exact Hf |].
  split; [exact Hn |]. split; [rewrite Hsame; exact Hk | exact Hnone].
Defined.

(** * Beyond the claims: the ledger over time *)

Lemma finalize_Err (s : db) (t : nat) (c : Q) (s' : db) (e : error) :
  finalize s t c = (s', Err e) → s' = s.
Proof.
  unfold finalize. destruct (Qle_bool c 0); [now intros [= <- _] |].
  destruct (pos_transaction s !! t) as [tx |]; [| now intros [= <- _]].
  destruct (negb _); [now intros [= <- _] |].
  destruct (Qltb _ _); [now intros [= <- _] | done].
Qed.

Lemma finalize_Ok_tables (s : db) (t : nat) (c : Q) (s' : db) (r : finalize_ok) :
  finalize s t c = (s', Ok r) →
  ∃ tx, pos_transaction s !! t = Some tx ∧ Tx.status_of tx = Tx.open
        ∧ pos_transaction s' = alter (Tx.with_status Tx.finalized) t (pos_transaction s)
        ∧ transaction_line s' = transaction_line s
        ∧ refund s' = refund s
        ∧ payment s' = payment s ++ [Payment.mk t Payment.cash c]
        ∧ item_update_rejected s' = item_update_rejected s.
Proof.
  intros E. apply finalize_Ok in E as (tx & _ & Ht & Hst & _ & _ & ->).
  exists tx. split; [done |]. split; [done |].
  pose proof (fold_decrement_ledger (lines_of s t)
                (insert_payment (Payment.mk t Payment.cash c)
                   (update_status t Tx.finalized s))) as E.
  unfold ledger_part in E. injection E as -> -> -> -> _ _ _ -> _. done.
Qed.

Lemma cancel_Ok (s : db) (t : nat) (s' : db) (u : unit) :
  cancel s t = (s', Ok u) →
  ∃ tx, pos_transaction s !! t = Some tx ∧ Tx.status_of tx = Tx.open
        ∧ s' = delete_transaction t s.
Proof.
  unfold cancel. destruct (pos_transaction s !! t) as [tx |]; [| done].
  case_bool_decide; simpl; [| done]. intros [= <-]. eauto.
Qed.

Lemma cancel_Err (s : db) (t : nat) (s' : db) (e : error) :
  cancel s t = (s', Err e) → s' = s.
Proof.
  unfold cancel. destruct (pos_transaction s !! t) as [tx |];
    [| now intros [= <- _]].
  destruct (negb _); [now intros [= <- _] | done].
Qed.

(** What one request does to a transaction of the store: it deletes it, and
    then it was open, or it leaves it with the same or a later status. *)
Lemma handle_status (s : db) (r : request) (t : nat) (tx : Tx.t) :
  wf_struct s → pos_transaction s !! t = Some tx →
  match pos_transaction (handle s r) !! t with
  | None => Tx.status_of tx = Tx.open
  | Some tx' => (status_rank (Tx.status_of tx) ≤ status_rank (Tx.status_of tx'))%nat
  end.
Proof.
  intros W Ht.
  assert (t ≠ next_transaction s) as Hfresh.
  { intros ->. rewrite (next_transaction_fresh s W) in Ht. done. }
  destruct r; simpl.
  - rewrite lookup_insert_ne by done. now rewrite Ht.
  - destruct (add_line_store s transactionId barcode quantity) as
      [-> | (item_id & it & row & lineId & s1 & _ & _ & _ & Hins & H)];
      [now rewrite Ht |].
    apply insert_line_tables in Hins as (_ & _ & Hp & _).
    destruct (pos_transaction s1 !! transactionId) as [tx0 |] eqn:E;
      rewrite H; simpl; [| now rewrite Hp, Ht].
    rewrite lookup_insert. case_decide as Hd; [| now rewrite Hp, Ht].
    subst. rewrite Hp, Ht in E. injection E as <-. done.
  - destruct (finalize s transactionId cashAmount) as [s' [r | e]] eqn:E; simpl.
    + apply finalize_Ok_tables in E as (tx0 & Ht0 & Hst & -> & _).
      rewrite lookup_alter. case_decide as Hd; [| now rewrite Ht].
      subst. rewrite Ht. simpl. rewrite Ht in Ht0. injection Ht0 as <-.
      rewrite Hst. simpl. lia.
    + apply finalize_Err in E as ->. now rewrite Ht.
  - destruct (cancel s transactionId) as [s' [u | e]] eqn:E; simpl.
    + apply cancel_Ok in E as (tx0 & Ht0 & Hst & ->). simpl.
      rewrite lookup_delete. case_decide as Hd; [| now rewrite Ht].
      subst. congruence.
    + apply cancel_Err in E as ->. now rewrite Ht.
  - destruct (refund_lines s transactionId lineIds) as [s' [r | e]] eqn:E; simpl.
    + apply refund_lines_effect in E as (orig & rid & Hacc & _ & _ & -> & _).
      destruct Hacc as (_ & Ho & Hst & _).
      destruct (forallb _ _).
      * rewrite lookup_alter. case_decide as Hd.
        -- subst. rewrite lookup_insert_ne, Ht by done. simpl.
           rewrite Ht in Ho. injection Ho as <-. rewrite Hst. simpl. lia.
        -- rewrite lookup_insert_ne, Ht by done. done.
      * rewrite lookup_insert_ne, Ht by done. done.
    + apply refund_lines_Err in E as [-> | [-> _]]; simpl.
      * now rewrite Ht.
      * rewrite lookup_insert_ne by done. now rewrite Ht.
  - now rewrite Ht.
Qed.

(** X1.  A transaction that is no longer open stays in every later store,
    and its status never goes back: finalized stays finalized or becomes
    refunded, refunded stays refunded.  It can then be neither cancelled nor
    finalized again. *)
Theorem status_never_goes_back (s : db) (t : nat) (tx : Tx.t)
    (rs : list request) :
  reachable s → pos_transaction s !! t = Some tx →
  Tx.status_of tx ≠ Tx.open →
  ∃ tx', pos_transaction (run s rs) !! t = Some tx'
    ∧ (status_rank (Tx.status_of tx) ≤ status_rank (Tx.status_of tx'))%nat
    ∧ cancel (run s rs) t = (run s rs, Err OnlyOpenCancelled)
    ∧ ∀ cashAmount, 0 < cashAmount →
        finalize (run s rs) t cashAmount = (run s rs, Err TransactionNotOpen).
Proof.
  intros Hr. revert s tx Hr.
  induction rs as [| r rs IH]; intros s tx Hr Ht Hst; simpl.
  - exists tx. split; [done |]. split; [done |].
    unfold cancel, finalize. rewrite Ht.
    rewrite bool_decide_eq_false_2 by done. simpl. split; [done |].
    intros c Hc. destruct (Qle_bool c 0) eqn:E; [| done].
    apply Qle_bool_iff in E. lra.
  - pose proof (handle_status s r t tx (proj1 (reachable_wf s Hr)) Ht) as H.
    destruct (pos_transaction (handle s r) !! t) as [tx1 |] eqn:E; [| done].
    destruct (IH (handle s r) tx1 (reachable_handle s r Hr) E)
      as (tx' & Ht' & Hrank & Hrest).
    { intros Ho. rewrite Ho in H. simpl in H.
      destruct (Tx.status_of tx); simpl in H; [done | lia | lia]. }
    exists tx'. split; [done |]. split; [lia | done].
Qed.

Lemma status_never_goes_back_witness :
  ∃ tx',
    pos_transaction (run paid_sale [OpenTransaction; Cancel 1; RefundLines 1 [1%nat]])
      !! 1%nat = Some tx'
    ∧ (1 ≤ status_rank (Tx.status_of tx'))%nat.
Proof.
  assert (reachable paid_sale) as Hr by apply reachable_run, reachable_seed_run.
  assert (pos_transaction paid_sale !! 1%nat
          = Some (Tx.mk Tx.finalized (299 # 100) (261625 # 1000000)
                        (325162500 # 100000000))) as Ht
    by (vm_compute; reflexivity).
  destruct (status_never_goes_back paid_sale 1 _
              [OpenTransaction; Cancel 1; RefundLines 1 [1%nat]] Hr Ht)
    as (tx' & H1 & H2 & _); [done |].
  exists tx'. split; [exact H1 | exact H2].
Defined.

(** Induction over the stores the handlers can reach. *)
Lemma reachable_ind (P : db → Prop) :
  (∀ items barcodes rejected, P (empty_db items barcodes rejected)) →
  (∀ s r, reachable s → P s → P (handle s r)) →
  ∀ s, reachable s → P s.
Proof.
  intros H0 Hstep s (items & barcodes & rejected & rs & ->).
  induction rs as [| r rs IH] using rev_ind; [apply H0 |].
  unfold run. rewrite fold_left_app. simpl. apply Hstep; [| exact IH].
  now exists items, barcodes, rejected, rs.
Qed.

(** Where a line of the store after a request comes from: it was there
    with the same snapshot, or it is the row [add_line] has just built. *)
Lemma handle_line_origin (s : db) (r : request) (k : nat) (l' : Line.t) :
  transaction_line (handle s r) !! k = Some l' →
  (∃ l, transaction_line s !! k = Some l ∧ snapshot l' = snapshot l
        ∧ (Line.refunded_by l' = Line.refunded_by l
           ∨ ∃ t ids, r = RefundLines t ids ∧ k ∈ ids
                      ∧ Line.transaction_id l = t
                      ∧ Line.refunded_by l = None))
  ∨ (∃ t b q item_id it,
       r = AddLine t b q ∧ item s !! item_id = Some it
       ∧ k = next_line s
       ∧ (0 < default 1%Z q)%Z
       ∧ l' = Line.mk t item_id (default 1%Z q) (Item.price it)
                (Item.tax_rate it)
                (Item.price it * inject_Z (default 1%Z q)
                 + Item.price it * inject_Z (default 1%Z q) * Item.tax_rate it)
                None).
Proof.
  destruct r; simpl.
  - intros H. left. eauto.
  - destruct (add_line_store s transactionId barcode quantity) as
      [-> | (item_id & it & row & lineId & s1 & Hit & Hq & -> & Hins & H)];
      [intros H; left; eauto |].
    apply insert_line_tables in Hins as (_ & -> & _ & Hl & _).
    assert (transaction_line (add_line s transactionId barcode quantity).1
            = transaction_line s1) as ->.
    { destruct (pos_transaction s1 !! transactionId); now rewrite H. }
    rewrite Hl, lookup_insert. case_decide as Hd.
    + intros [= <-]. right. subst k. eauto 12.
    + intros Hk. left. eauto.
  - destruct (finalize_store s transactionId cashAmount) as [-> | E];
      [intros H; left; eauto |].
    unfold core in E. injection E as _ E _ _ _ _. rewrite E.
    intros H. left. eauto.
  - destruct (cancel_store s transactionId) as [-> | ->];
      [intros H; left; eauto |].
    simpl. rewrite map_lookup_filter.
    destruct (transaction_line s !! k) as [l |]; [| done]. simpl.
    case_guard; [| done]. intros [= <-]. left. eauto.
  - destruct (refund_lines s transactionId lineIds) as [s' [r | e]] eqn:E; simpl.
    + apply refund_lines_effect in E as (orig & rid & Hacc & Hl & _).
      apply refund_accepted_lines in Hacc as [_ Hall].
      rewrite Hl. case_decide as Hin; [| intros H; left; eauto].
      destruct (Hall k Hin) as (l & Hk & Ht & Hnone). rewrite Hk. simpl.
      intros [= <-]. left. exists l. split; [done |]. split; [done |].
      right. eauto 10.
    + apply refund_lines_Err in E as [-> | [-> _]]; intros H; left; eauto.
  - intros H. left. eauto.
Qed.

(** What one request does to a line of the store: it deletes it, by
    cancelling its open transaction, or it leaves it with the same snapshot
    and, once set, the same [refunded_by]. *)
Lemma handle_line (s : db) (r : request) (k : nat) (l : Line.t) :
  wf_struct s → transaction_line s !! k = Some l →
  match transaction_line (handle s r) !! k with
  | None => r = Cancel (Line.transaction_id l)
            ∧ ∃ tx, pos_transaction s !! Line.transaction_id l = Some tx
                    ∧ Tx.status_of tx = Tx.open
  | Some l' => snapshot l' = snapshot l
               ∧ ∀ rid, Line.refunded_by l = Some rid →
                        Line.refunded_by l' = Some rid
  end.
Proof.
  intros W Hk.
  destruct (transaction_line (handle s r) !! k) as [l' |] eqn:E.
  - apply handle_line_origin in E
      as [(l0 & Hk0 & Hsnap & Hrb) | (t & b & q & i & it & _ & _ & -> & _)].
    + rewrite Hk in Hk0. injection Hk0 as <-. split; [done |].
      intros rid Hrid. destruct Hrb as [-> | (_ & _ & _ & _ & _ & Hnone)];
        congruence.
    + rewrite (next_line_fresh s W) in Hk. done.
  - destruct r; simpl in E.
    + congruence.
    + destruct (add_line_store s transactionId barcode quantity) as
        [Hs | (item_id & it & row & lineId & s1 & _ & _ & _ & Hins & H)];
        [rewrite Hs in E; congruence |].
      apply insert_line_tables in Hins as (_ & -> & _ & Hl & _).
      assert (transaction_line (add_line s transactionId barcode quantity).1
              = transaction_line s1) as Hs.
      { destruct (pos_transaction s1 !! transactionId); now rewrite H. }
      rewrite Hs, Hl, lookup_insert in E. case_decide; congruence.
    + destruct (finalize_store s transactionId cashAmount) as [Hs | Hs].
      * rewrite Hs in E. congruence.
      * unfold core in Hs. injection Hs as _ Hs _ _ _ _.
        rewrite Hs in E. congruence.
    + destruct (cancel s transactionId) as [s' [u | e]] eqn:Ec; simpl in E.
      * apply cancel_Ok in Ec as (tx & Ht & Hst & ->). simpl in E.
        rewrite map_lookup_filter, Hk in E. simpl in E.
        case_guard as Hg; [done |].
        subst. eauto.
      * apply cancel_Err in Ec as ->. congruence.
    + destruct (refund_lines_lines s transactionId lineIds) as [_ Hl].
      destruct (Hl k) as [Hs | (l0 & rid & _ & Hs)]; rewrite Hs in E; congruence.
    + simpl in E. congruence.
Qed.

(** X2.  A line of a transaction that is no longer open is a snapshot: it
    stays in every later store with the transaction, item, quantity, unit
    price, tax rate and line total it was written with, whatever happens to
    the catalog, and once it names a refund record it names that record for
    good. *)
Theorem line_snapshot_kept (s : db) (k : nat) (l : Line.t) (tx : Tx.t)
    (rs : list request) :
  reachable s → transaction_line s !! k = Some l →
  pos_transaction s !! Line.transaction_id l = Some tx →
  Tx.status_of tx ≠ Tx.open →
  ∃ l', transaction_line (run s rs) !! k = Some l'
        ∧ snapshot l' = snapshot l
        ∧ ∀ rid, Line.refunded_by l = Some rid → Line.refunded_by l' = Some rid.
Proof.
  intros Hr. revert s l tx Hr.
  induction rs as [| r rs IH]; intros s l tx Hr Hk Ht Hst; simpl; [eauto |].
  pose proof (proj1 (reachable_wf s Hr)) as W.
  pose proof (handle_line s r k l W Hk) as Hl.
  pose proof (handle_status s r _ tx W Ht) as Hs.
  destruct (transaction_line (handle s r) !! k) as [l1 |] eqn:E1.
  - destruct Hl as [Hsnap Hrb].
    assert (Line.transaction_id l1 = Line.transaction_id l) as Hid
      by (unfold snapshot in Hsnap; congruence).
    destruct (pos_transaction (handle s r) !! Line.transaction_id l)
      as [tx1 |] eqn:E2; [| done].
    destruct (IH (handle s r) l1 tx1 (reachable_handle s r Hr) E1)
      as (l' & Hk' & Hsnap' & Hrb').
    { now rewrite Hid. }
    { intros Ho. rewrite Ho in Hs.
      destruct (Tx.status_of tx); simpl in Hs; [done | lia | lia]. }
    exists l'. split; [done |]. split; [congruence |].
    intros rid Hrid. apply Hrb', Hrb, Hrid.
  - destruct Hl as (_ & tx0 & Ht0 & Hopen). congruence.
Qed.

Lemma line_snapshot_kept_witness :
  ∃ l',
    transaction_line
      (run paid_sale [Catalog ∅ ∅ ∅; Cancel 1; RefundLines 1 [1%nat]])
      !! 1%nat = Some l'
    ∧ Line.unit_price l' = 299 # 100.
Proof.
  assert (reachable paid_sale) as Hr by apply reachable_run, reachable_seed_run.
  assert (transaction_line paid_sale !! 1%nat
          = Some (Line.mk 1 1 1 (299 # 100) (875 # 10000)
                    (325162500 # 100000000) None)) as Hk
    by (vm_compute; reflexivity).
  assert (pos_transaction paid_sale !! 1%nat
          = Some (Tx.mk Tx.finalized (299 # 100) (261625 # 1000000)
                        (325162500 # 100000000))) as Ht
    by (vm_compute; reflexivity).
  destruct (line_snapshot_kept paid_sale 1 _ _
              [Catalog ∅ ∅ ∅; Cancel 1; RefundLines 1 [1%nat]] Hr Hk Ht)
    as (l' & H1 & H2 & _); [done |].
  exists l'. split; [exact H1 |].
  unfold snapshot in H2. simpl in H2. congruence.
Defined.

(** What one request appends to the payments. *)
Lemma handle_payment (s : db) (r : request) :
  payment (handle s r) = payment s
  ∨ (∃ t c tx, r = Finalize t c ∧ 0 < c
       ∧ pos_transaction s !! t = Some tx ∧ Tx.status_of tx = Tx.open
       ∧ pos_transaction (handle s r) !! t = Some (Tx.with_status Tx.finalized tx)
       ∧ payment (handle s r) = payment s ++ [Payment.mk t Payment.cash c])
  ∨ (∃ t ids s' out, r = RefundLines t ids
       ∧ refund_lines s t ids = (s', Ok out)
       ∧ payment (handle s r)
         = payment s ++ [Payment.mk (next_transaction s) Payment.cash
                           (- toFixed2 (sum_line_total (selected s t ids)))]).
Proof.
  destruct r; simpl; try (now left).
  - left.
    destruct (add_line_store s transactionId barcode quantity) as
      [-> | (item_id & it & row & lineId & s1 & _ & _ & _ & Hins & H)]; [done |].
    apply insert_line_tables in Hins as (_ & _ & _ & _ & _ & <- & _).
    destruct (pos_transaction s1 !! transactionId); now rewrite H.
  - destruct (finalize s transactionId cashAmount) as [s' [r | e]] eqn:E; simpl.
    + right. left. pose proof E as E'.
      apply finalize_Ok in E' as (_ & Hc & _).
      apply finalize_Ok_tables in E as (tx & Ht & Hst & Hp & _ & _ & Hpay & _).
      exists transactionId, cashAmount, tx.
      split; [done |]. split; [done |]. split; [done |]. split; [done |].
      split; [| done]. rewrite Hp, lookup_alter_eq, Ht. done.
    + apply finalize_Err in E as ->. now left.
  - destruct (cancel_store s transactionId) as [-> | ->]; now left.
  - destruct (refund_lines s transactionId lineIds) as [s' [r | e]] eqn:E; simpl.
    + right. right. exists transactionId, lineIds, s', r.
      split; [done |]. split; [done |].
      destruct (refund_lines_payment _ _ _ _ _ E) as (-> & _ & -> & ->). done.
    + apply refund_lines_Err in E as [-> | [-> _]]; now left.
Qed.

Lemma payments_settled_handle (s : db) (r : request) :
  wf_struct s → payments_settled s → payments_settled (handle s r).
Proof.
  intros W Hs.
  assert (∀ p, p ∈ payment s →
               ∃ tx, pos_transaction (handle s r) !! Payment.transaction_id p
                     = Some tx ∧ Tx.status_of tx ≠ Tx.open) as Hold.
  { intros p Hp. destruct (Hs p Hp) as (tx & Ht & Hst).
    pose proof (handle_status s r _ tx W Ht) as H.
    destruct (pos_transaction (handle s r) !! Payment.transaction_id p)
      as [tx' |]; [| done].
    exists tx'. split; [done |]. intros Ho. rewrite Ho in H.
    destruct (Tx.status_of tx); simpl in H; [done | lia | lia]. }
  destruct (handle_payment s r)
    as [E | [(t & c & tx & -> & _ & _ & _ & Ht & E)
            | (t & ids & s' & out & -> & Eo & E)]];
    intros p; rewrite E.
  - apply Hold.
  - intros [Hp | Hp%list_elem_of_singleton]%elem_of_app; [now apply Hold |].
    subst p. simpl in *. rewrite Ht. eexists. split; [done |]. done.
  - intros [Hp | Hp%list_elem_of_singleton]%elem_of_app; [now apply Hold |].
    subst p. simpl. rewrite Eo. simpl.
    destruct (refund_lines_reversal s t ids s' out W Eo) as (_ & _ & _ & -> & _).
    eexists. split; [done |]. done.
Qed.

(** X3.  The payments are an append-only ledger: a run of requests leaves
    the payments there were in place and adds at most one per request, and
    in every store the handlers can reach each payment is on a transaction
    of the store that is finalized or refunded, never on an open one. *)
Theorem payments_append_only (s : db) (rs : list request) :
  reachable s →
  payments_settled s
  ∧ ∃ ps, payment (run s rs) = payment s ++ ps ∧ (length ps ≤ length rs)%nat.
Proof.
  intros Hr. split.
  - revert s Hr. apply reachable_ind.
    + intros items barcodes rejected p Hp. simpl in Hp. inversion Hp.
    + intros s r Hr IH. apply payments_settled_handle; [| done].
      apply (reachable_wf s Hr).
  - clear Hr. revert s. induction rs as [| r rs IH]; intros s; simpl.
    + exists []. split; [now rewrite app_nil_r | done].
    + destruct (IH (handle s r)) as (ps & -> & Hlen).
      destruct (handle_payment s r)
        as [-> | [(t & c & tx & _ & _ & _ & _ & _ & ->)
                 | (t & ids & s' & out & _ & _ & ->)]].
      * exists ps. split; [done | lia].
      * eexists (_ :: ps). rewrite <- app_assoc. split; [done | simpl; lia].
      * eexists (_ :: ps). rewrite <- app_assoc. split; [done | simpl; lia].
Qed.

Lemma payments_append_only_witness :
  payments_settled refunded_sale
  ∧ ∃ ps, payment (run refunded_sale [OpenTransaction; Cancel 1]) 
          = payment refunded_sale ++ ps ∧ (length ps ≤ 2)%nat.
Proof.
  apply (payments_append_only refunded_sale [OpenTransaction; Cancel 1]).
  unfold refunded_sale, paid_sale.
  apply reachable_run, reachable_run, reachable_seed_run.
Defined.


(** ** DELETE /api/transactions/:transactionId *)

(** X5.  Cancel answers in one of three ways.  On a transaction that is
    missing it fails NotFound, on one that is not open it fails
    InvalidState, and in both cases the store is left as it was.  On an open
    transaction it succeeds: the transaction and exactly its lines are gone,
    so that reading it or cancelling it again fails NotFound, while every
    other transaction, every line of another transaction, the catalog, the
    payments and the refund records are untouched, and no id is given
    back. *)
Theorem cancel_outcome (s : db) (t : nat) (s' : db) (out : response unit) :
  cancel s t = (s', out) →
  (pos_transaction s !! t = None ∧ out = Err TransactionNotFound ∧ s' = s)
  ∨ (∃ tx, pos_transaction s !! t = Some tx ∧ Tx.status_of tx ≠ Tx.open
           ∧ out = Err OnlyOpenCancelled ∧ s' = s)
  ∨ (∃ tx, pos_transaction s !! t = Some tx ∧ Tx.status_of tx = Tx.open
       ∧ out = Ok tt
       ∧ get_transaction s' t = Err TransactionNotFound
       ∧ cancel s' t = (s', Err TransactionNotFound)
       ∧ lines_of s' t = []
       ∧ (∀ t', t' ≠ t → pos_transaction s' !! t' = pos_transaction s !! t')
       ∧ (∀ k l, transaction_line s' !! k = Some l
                 ↔ transaction_line s !! k = Some l ∧ Line.transaction_id l ≠ t)
       ∧ (item s', item_barcode s', refund s', payment s',
          item_update_rejected s')
         = (item s, item_barcode s, refund s, payment s, item_update_rejected s)
       ∧ (next_transaction s', next_line s', next_refund s')
         = (next_transaction s, next_line s, next_refund s)).
Proof.
  unfold cancel. destruct (pos_transaction s !! t) as [tx |] eqn:Ht.
  - case_bool_decide as Hst; simpl.
    + intros [= <- <-]. right. right. exists tx.
      split; [done |]. split; [done |]. split; [done |].
      unfold get_transaction. simpl. rewrite lookup_delete_eq.
      split; [done |]. split; [done |].
      split.
      { apply lines_of_nil. intros k l. simpl.
        rewrite map_lookup_filter_Some. simpl. tauto. }
      split. { intros t' Hne. simpl. now rewrite lookup_delete_ne. }
      split; [| done].
      intros k l. simpl. rewrite map_lookup_filter_Some. simpl. tauto.
    + intros [= <- <-]. right. left. eauto.
  - intros [= <- <-]. now left.
Qed.

Lemma cancel_outcome_witness :
  ∃ tx, pos_transaction open_sale !! 1%nat = Some tx
        ∧ get_transaction (cancel open_sale 1).1 1 = Err TransactionNotFound.
Proof.
  destruct (cancel open_sale 1) as [s' out] eqn:E.
  destruct (cancel_outcome open_sale 1 s' out E)
    as [(H & _) | [(tx & Ht & H & _) | (tx & Ht & _ & _ & Hg & _)]].
  - vm_compute in H. discriminate H.
  - exfalso. apply H. vm_compute in Ht. injection Ht as <-. reflexivity.
  - exists tx. split; [exact Ht | exact Hg].
Defined.

Lemma insert_line_Some (row : Line.t) (s s1 : db) (id : nat) :
  insert_line row s = Some (id, s1) →
  id = next_line s
  ∧ s1 = mkdb (item s) (item_barcode s) (pos_transaction s)
              (<[id := row]> (transaction_line s)) (refund s) (payment s)
              (next_transaction s) (S id) (next_refund s)
              (item_update_rejected s).
Proof.
  unfold insert_line. destruct (pos_transaction s !! _); [| done].
  now intros [= <- <-].
Qed.

(** A transaction that has only been opened and filled. *)
Lemma draft_run (s : db) (adds : list (string * option Z)) :
  wf_struct s →
  let t := next_transaction s in
  let s1 := run s (OpenTransaction :: ((λ a, AddLine t a.1 a.2) <$> adds)) in
  (∃ tx, pos_transaction s1 = <[t := tx]> (pos_transaction s)
         ∧ Tx.status_of tx = Tx.open)
  ∧ (∀ k l, transaction_line s1 !! k = Some l →
            transaction_line s !! k = Some l
            ∨ (Line.transaction_id l = t ∧ transaction_line s !! k = None))
  ∧ (∀ k l, transaction_line s !! k = Some l → transaction_line s1 !! k = Some l)
  ∧ (item s1, item_barcode s1, refund s1, payment s1, item_update_rejected s1,
     next_refund s1, next_transaction s1)
    = (item s, item_barcode s, refund s, payment s, item_update_rejected s,
       next_refund s, S t)
  ∧ (next_line s ≤ next_line s1)%nat.
Proof.
  intros W t. simpl.
  induction adds as [| a adds IH] using rev_ind.
  - simpl. split; [by eexists |]. split; [by left |]. done.
  - rewrite fmap_app. unfold run in *. rewrite fold_left_app. simpl.
    set (s1 := fold_left handle _ _) in *.
    destruct IH as ((tx & Hp & Hst) & Hnew & Hold & Hrest & Hn).
    clearbody s1.
    destruct (add_line_store s1 t a.1 a.2) as
      [-> | (item_id & it & row & lineId & s2 & _ & _ & Hrow & Hins & H)].
    { split; [by eexists |]. done. }
    apply insert_line_Some in Hins as [-> ->]. simpl in H.
    rewrite Hp, lookup_insert_eq in H. rewrite H. simpl.
    injection Hrest as E1 E2 E3 E4 E5 E6 E7.
    split; [| split; [| split; [| split]]].
    + eexists. rewrite ?Hp, insert_insert_eq. split; [done |]. simpl. exact Hst.
    + intros k l. rewrite lookup_insert. case_decide as Hd.
      * intros [= <-]. right. subst k row. split; [done |].
        destruct (transaction_line s !! next_line s1) as [l0 |] eqn:E; [| done].
        assert (next_line s1 < next_line s)%nat
          by (apply (wf_line_fresh s W); eauto).
        lia.
      * apply Hnew.
    + intros k l Hk. rewrite lookup_insert_ne; [now apply Hold |].
      assert (k < next_line s)%nat by (apply (wf_line_fresh s W); eauto). lia.
    + congruence.
    + lia.
Qed.

(** X6.  Cancelling undoes a draft.  Opening a transaction, scanning any
    number of barcodes into it (accepted or not) and cancelling it leaves
    every table as it was before the transaction was opened: stock, catalog,
    transactions, lines, payments and refund records.  Only the id
    sequences have moved on. *)
Theorem cancel_undoes_draft (s : db) (adds : list (string * option Z)) :
  wf_struct s →
  ∃ s', cancel (run s (OpenTransaction
                       :: ((λ a, AddLine (next_transaction s) a.1 a.2) <$> adds)))
               (next_transaction s) = (s', Ok tt)
    ∧ (item s', item_barcode s', pos_transaction s', transaction_line s',
       refund s', payment s', item_update_rejected s')
      = (item s, item_barcode s, pos_transaction s, transaction_line s,
         refund s, payment s, item_update_rejected s)
    ∧ next_transaction s' = S (next_transaction s)
    ∧ (next_line s ≤ next_line s')%nat
    ∧ next_refund s' = next_refund s.
Proof.
  intros W.
  destruct (draft_run s adds W) as ((tx & Hp & Hst) & Hnew & Hold & Hrest & Hn).
  set (s1 := run s _) in *. clearbody s1.
  injection Hrest as E1 E2 E3 E4 E5 E6 E7.
  exists (delete_transaction (next_transaction s) s1). split.
  { unfold cancel. rewrite Hp, lookup_insert_eq.
    rewrite bool_decide_eq_true_2 by done. done. }
  simpl. rewrite E1, E2, E3, E4, E5, E6, E7, Hp.
  rewrite delete_insert_eq, delete_id by now apply next_transaction_fresh.
  split; [| done]. f_equal. f_equal. f_equal. f_equal.
  apply map_eq. intros k. rewrite map_lookup_filter.
  destruct (transaction_line s1 !! k) as [l |] eqn:E; simpl.
  - destruct (Hnew k l E) as [Hk | [Ht Hk]].
    + rewrite option_guard_True; [done |]. simpl. intros Ht.
      destruct (wf_line_fk s W k l Hk) as [tx0 Htx0]. rewrite Ht in Htx0.
      rewrite (next_transaction_fresh s W) in Htx0. done.
    + rewrite option_guard_False; [done |]. simpl. tauto.
  - destruct (transaction_line s !! k) as [l |] eqn:E'; [| done].
    apply Hold in E'. congruence.
Qed.

Lemma cancel_undoes_draft_witness :
  ∃ s', cancel (run paid_sale
                  [OpenTransaction; AddLine 2 "123" None;
                   AddLine 2 "456" (Some 3%Z); AddLine 2 "nope" None]) 2
        = (s', Ok tt)
        ∧ item s' = item paid_sale
        ∧ transaction_line s' = transaction_line paid_sale.
Proof.
  assert (wf_struct paid_sale) as W.
  { apply reachable_wf. unfold paid_sale, open_sale.
    apply reachable_run, reachable_seed_run. }
  destruct (cancel_undoes_draft paid_sale
              [("123"%string, None); ("456"%string, Some 3%Z);
               ("nope"%string, None)] W) as (s' & E & H & _).
  exists s'. split; [exact E |].
  injection H as H1 _ _ H4 _ _ _. split; [exact H1 | exact H4].
Defined.

(** ** POST /api/transactions/:transactionId/refund, continued *)

(** With at most one record per original transaction, the record a refund
    works with is always found. *)
Lemma refund_record_Some (s : db) (t : nat) (ids : list nat) :
  wf_struct s → is_Some (refund_record s t ids).
Proof.
  intros W. unfold refund_record, insert_refund. simpl.
  change (refunds_of _ t) with (refunds_of s t).
  destruct (refunds_of s t) as [| [k1 r1] [| [k2 r2] rest]] eqn:E; simpl; eauto.
  exfalso.
  assert ((k1, r1) ∈ refunds_of s t) as H1 by (rewrite E; left).
  assert ((k2, r2) ∈ refunds_of s t) as H2 by (rewrite E; right; left).
  apply elem_of_refunds_of in H1 as [H1 Ho1].
  apply elem_of_refunds_of in H2 as [H2 Ho2].
  assert (k1 = k2) as -> by (apply (wf_refund_unique s W _ _ _ _ H1 H2); congruence).
  assert (r1 = r2) as -> by congruence.
  assert (NoDup (refunds_of s t)) as Hnd
    by (apply NoDup_filter, NoDup_map_to_list).
  rewrite E in Hnd. apply NoDup_cons in Hnd as [Hnd _]. apply Hnd. left.
Qed.

Lemma refund_accepted_Ok (s : db) (t : nat) (ids : list nat) (orig : Tx.t) :
  wf_struct s → refund_accepted s t ids orig →
  ∃ s' r, refund_lines s t ids = (s', Ok r).
Proof.
  intros W (Hne & Ht & Hst & Hlen & Hnone).
  rewrite refund_lines_unfold.
  rewrite bool_decide_eq_false_2 by done. rewrite Ht.
  rewrite bool_decide_eq_true_2 by done. simpl.
  rewrite Hlen, Nat.eqb_refl, Hnone. simpl.
  destruct (refund_record_Some s t ids W) as [[rid s2] ->].
  unfold refund_apply. eauto.
Qed.

(** X7.  In a store the handlers can reach, a refund request is answered
    with success exactly when it passes the checks of the handler: a
    selection that is not empty, of distinct lines of the transaction, none
    refunded yet, on a transaction that is finalized.  The refund record is
    always found, so the request never fails for an internal reason, and a
    request that fails leaves the transaction and line tables as they
    were. *)
Theorem refund_succeeds_iff (s : db) (t : nat) (ids : list nat) :
  reachable s →
  ((∃ s' r, refund_lines s t ids = (s', Ok r))
   ↔ ∃ orig, pos_transaction s !! t = Some orig
       ∧ Tx.status_of orig = Tx.finalized
       ∧ ids ≠ [] ∧ NoDup ids
       ∧ ∀ k, k ∈ ids →
           ∃ l, transaction_line s !! k = Some l ∧ Line.transaction_id l = t
                ∧ Line.refunded_by l = None)
  ∧ (∀ s' e, refund_lines s t ids = (s', Err e) → kind e ≠ Internal ∧ s' = s).
Proof.
  intros Hr. pose proof (proj1 (reachable_wf s Hr)) as W. split; [split |].
  - intros (s' & r & E).
    apply refund_lines_Ok in E as (orig & rid & s2 & Hacc & _).
    exists orig. destruct (refund_accepted_lines s t ids orig Hacc) as [Hnd Hall].
    destruct Hacc as (Hne & Ht & Hst & _). auto 10.
  - intros (orig & Ht & Hst & Hne & Hnd & Hall).
    apply (refund_accepted_Ok s t ids orig W).
    split; [done |]. split; [done |]. split; [done |]. split.
    + apply selected_length. split; [done |].
      intros k Hk. destruct (Hall k Hk) as (l & Hl & Hlt & _). eauto.
    + destruct (filter _ (selected s t ids)) as [| [k l] rest] eqn:E; [done |].
      assert ((k, l) ∈ filter (λ kv, is_refunded kv) (selected s t ids)) as Hin
        by (rewrite E; left).
      apply list_elem_of_filter in Hin as [Hrf Hin].
      apply elem_of_selected in Hin as (Hk & Hl & _).
      destruct (Hall k Hk) as (l0 & Hl0 & _ & Hnone).
      rewrite Hl in Hl0. injection Hl0 as <-.
      unfold is_refunded in Hrf. simpl in Hrf. now rewrite Hnone in Hrf.
  - intros s' e. rewrite refund_lines_unfold.
    case_bool_decide; [now intros [= <- <-] |].
    destruct (pos_transaction s !! t) as [orig |]; [| now intros [= <- <-]].
    destruct (negb _); [now intros [= <- <-] |].
    destruct (negb _); [now intros [= <- <-] |].
    destruct (0 <? _)%nat; [now intros [= <- <-] |].
    destruct (refund_record_Some s t ids W) as [[rid s2] ->].
    unfold refund_apply. done.
Qed.

Lemma refund_succeeds_iff_witness :
  (∃ s' r, refund_lines half_refunded_sale 1 [2%nat] = (s', Ok r))
  ∧ ∀ s' e, refund_lines half_refunded_sale 1 [1%nat] = (s', Err e) →
            kind e ≠ Internal ∧ s' = half_refunded_sale.
Proof.
  assert (reachable half_refunded_sale) as Hr.
  { unfold half_refunded_sale, two_line_sale.
    apply reachable_run, reachable_seed_run. }
  split.
  - apply (proj1 (refund_succeeds_iff half_refunded_sale 1 [2%nat] Hr)).
    eexists. split; [vm_compute; reflexivity |]. split; [reflexivity |].
    split; [discriminate |]. split.
    + apply NoDup_cons. split; [apply not_elem_of_nil | apply NoDup_nil_2].
    + intros k Hk. apply list_elem_of_singleton in Hk. subst k.
      eexists. split; [vm_compute; reflexivity |]. split; reflexivity.
  - apply (proj2 (refund_succeeds_iff half_refunded_sale 1 [1%nat] Hr)).
Defined.

(** ** The inventory after a refund *)

Lemma fold_add_sumZ (qs : list Z) (q : Z) :
  fold_left Z.add qs q = (q + sumZ qs)%Z.
Proof.
  revert q. induction qs as [| n qs IH]; intros q; simpl; [lia |].
  rewrite IH. lia.
Qed.

Lemma increment_item_lookup (s : db) (line : nat * Line.t) (i : nat) :
  item (increment_item s line) !! i
  = if decide (i = Line.item_id line.2 ∧ i ∉ item_update_rejected s)
    then (λ it, Item.with_quantity
                  (Item.quantity it + Line.quantity line.2) it)
           <$> item s !! i
    else item s !! i.
Proof.
  unfold increment_item, update_item_quantity.
  destruct (item s !! Line.item_id line.2) as [it |] eqn:Hit.
  - case_decide as Hrej.
    + rewrite decide_False; [done |]. intros [-> H]. done.
    + simpl. rewrite lookup_alter. case_decide as Hi.
      * subst i. rewrite decide_True by done. now rewrite Hit.
      * rewrite decide_False; [done |]. intros [-> _]. done.
  - case_decide as Hd; [| done]. destruct Hd as [-> _]. now rewrite Hit.
Qed.

(** The stock of an item after the loop that puts quantities back: one
    addition per selected line that sold it, unless its row is missing or
    its update is rejected. *)
Lemma fold_increment_lookup (ls : list (nat * Line.t)) (s : db) (i : nat) :
  item (fold_left increment_item ls s) !! i
  = if decide (i ∈ item_update_rejected s) then item s !! i
    else (λ it, if decide (sold i ls = []) then it
                else Item.with_quantity
                       (fold_left Z.add (sold i ls) (Item.quantity it)) it)
           <$> item s !! i.
Proof.
  revert s. induction ls as [| [k l] ls IH]; intros s; simpl.
  - destruct (decide (i ∈ item_update_rejected s)); [done |].
    now destruct (item s !! i).
  - rewrite IH.
    pose proof (increment_item_ledger s (k, l)) as E. unfold ledger_part in E.
    injection E as _ _ _ _ _ _ _ E _. rewrite E.
    rewrite increment_item_lookup. simpl.
    destruct (decide (i ∈ item_update_rejected s)) as [Hrej | Hrej].
    + rewrite decide_False; [done |]. intros [_ H]. done.
    + destruct (decide (i = Line.item_id l)) as [-> | Hi].
      * rewrite (decide_True (P := _ ∧ _)) by done.
        rewrite sold_cons_eq by done.
        destruct (item s !! Line.item_id l) as [it |]; [| done]. simpl. f_equal.
        destruct (decide (sold (Line.item_id l) ls = [])) as [-> | Hne]; done.
      * rewrite (decide_False (P := _ ∧ _)) by (intros [H _]; done).
        rewrite sold_cons_ne by done. done.
Qed.

(** The catalog after a successful refund is the catalog after the loop
    over the selected lines. *)
Lemma refund_lines_catalog (s : db) (t : nat) (ids : list nat) (s' : db)
    (r : refund_ok) :
  refund_lines s t ids = (s', Ok r) →
  ∃ s3, item s3 = item s ∧ item_update_rejected s3 = item_update_rejected s
        ∧ item s' = item (fold_left increment_item (selected s t ids) s3)
        ∧ item_barcode s' = item_barcode s
        ∧ item_update_rejected s' = item_update_rejected s.
Proof.
  intros E.
  apply refund_lines_Ok in E as (orig & rid & s2 & _ & Hrec & Happ).
  assert (item s2 = item s ∧ item_barcode s2 = item_barcode s
          ∧ item_update_rejected s2 = item_update_rejected s) as (I1 & I2 & I3).
  { apply refund_record_cases in Hrec as [(_ & Hins & _) | (row & _ & ->)];
      [| done].
    unfold insert_refund in Hins. destruct (refunds_of _ _); [| done].
    now injection Hins as _ <-. }
  pose proof (fold_mark_non_line rid ids s2) as E3.
  unfold non_line_part in E3. injection E3 as F1 F2 _ _ _ _ _ _ F3.
  exists (fold_left (mark_refunded rid) ids s2).
  split; [congruence |]. split; [congruence |].
  apply (f_equal fst) in Happ. change (s', Ok r).1 with s' in Happ. subst s'.
  unfold refund_apply.
  set (s3 := fold_left (mark_refunded rid) ids s2) in *.
  pose proof (fold_increment_ledger (selected s t ids) s3) as E.
  unfold ledger_part in E. injection E as _ _ _ _ _ _ _ E1 E2.
  destruct (forallb _ _); simpl; rewrite E1, E2;
    (split; [done |]); split; congruence.
Qed.

(** X8.  A successful refund puts the quantity of every selected line back
    on the stock of its item, whatever the stock is: the item ends with its
    quantity plus the quantities of the selected lines that sold it, and
    with the same name, price, tax rate and active flag.  An item whose row
    is missing or whose update is rejected, and an item no selected line
    sold, is left alone; so are the barcodes. *)
Theorem refund_inventory (s : db) (t : nat) (ids : list nat) (s' : db)
    (r : refund_ok) :
  refund_lines s t ids = (s', Ok r) →
  (∀ i it, item s !! i = Some it → i ∉ item_update_rejected s →
     ∃ it', item s' !! i = Some it'
       ∧ Item.quantity it'
         = (Item.quantity it + sumZ (sold i (selected s t ids)))%Z
       ∧ (Item.name it', Item.price it', Item.tax_rate it', Item.is_active it')
         = (Item.name it, Item.price it, Item.tax_rate it, Item.is_active it))
  ∧ (∀ i, item s !! i = None ∨ i ∈ item_update_rejected s
          ∨ sold i (selected s t ids) = [] →
          item s' !! i = item s !! i)
  ∧ item_barcode s' = item_barcode s.
Proof.
  intros E.
  apply refund_lines_catalog in E as (s3 & I1 & I2 & -> & Hb & _).
  split; [| split; [| done]].
  - intros i it Hit Hrej.
    rewrite fold_increment_lookup, I1, I2, decide_False, Hit by done. simpl.
    eexists. split; [done |].
    destruct (decide (sold i (selected s t ids) = [])) as [-> | Hne]; simpl.
    + split; [lia | done].
    + split; [apply fold_add_sumZ | done].
  - intros i Hi. rewrite fold_increment_lookup, I1, I2.
    case_decide as Hrej; [done |].
    destruct (item s !! i) as [it |]; [| done]. simpl.
    destruct Hi as [Hi | [Hi | Hi]]; [done | done |].
    now rewrite decide_True.
Qed.

Lemma refund_inventory_witness :
  ∃ it', item (refund_lines two_line_sale 1 [2%nat]).1 !! 2%nat = Some it'
         ∧ Item.quantity it' = 12%Z.
Proof.
  destruct (refund_lines two_line_sale 1 [2%nat]) as [s' [r | e]] eqn:E.
  - destruct (proj1 (refund_inventory two_line_sale 1 [2%nat] s' r E) 2%nat
                (Item.mk "Chips" (349 # 100) (875 # 10000) 10 true))
      as (it' & H1 & H2 & _).
    + vm_compute. reflexivity.
    + vm_compute. intros H. discriminate H.
    + exists it'. split; [exact H1 |]. rewrite H2. vm_compute. reflexivity.
  - vm_compute in E. discriminate E.
Defined.

(** ** Refund records and refunded lines *)







(** ** A sale and its full refund *)

Lemma filter_all {A : Type} (P : A → Prop) `{!∀ x, Decision (P x)} (l : list A) :
  (∀ x, x ∈ l → P x) → filter P l = l.
Proof.
  induction l as [| x l IH]; intros Hall; [done |].
  rewrite filter_cons_True by (apply Hall; left).
  f_equal. apply IH. intros y Hy. apply Hall. now right.
Qed.





(** ** The refund panel of the cashier screen *)

Lemma fold_sum_line_total (ls : list (nat * Line.t * option string)) (a : Q) :
  fold_left (λ sum line, sum + Line.line_total line.1.2) ls a
  == a + sumQ ((λ line, Line.line_total line.1.2) <$> ls).
Proof.
  revert a. induction ls as [| x ls IH]; intros a.
  - unfold sumQ. simpl. ring.
  - rewrite fmap_cons. cbn [fold_left]. rewrite IH.
    change (sumQ (?y :: ?ys)) with (y + sumQ ys). ring.
Qed.

(** The amount the panel shows for a selection is the sum of the line
    totals of the selected lines, as the server selects them. *)
Lemma selection_amount_selected (s : db) (t : nat) (sel : list nat) :
  selection_amount (with_item_name s <$> lines_of s t) sel
  == sum_line_total (selected s t sel).
Proof.
  unfold selection_amount, sum_line_total, selected.
  rewrite fold_sum_line_total.
  induction (lines_of s t) as [| [k l] ls IH]; [unfold sumQ; simpl; ring |].
  rewrite fmap_cons.
  destruct (decide (k ∈ sel)) as [Hin | Hin].
  - rewrite !filter_cons_True; [| done | unfold set_has; simpl; now apply bool_decide_eq_true_2].
    rewrite !fmap_cons.
    change (sumQ (?y :: ?ys)) with (y + sumQ ys).
    rewrite Qplus_0_l in IH. rewrite IH. simpl. ring.
  - rewrite !filter_cons_False; [exact IH | done |].
    unfold set_has. simpl. rewrite bool_decide_eq_false_2 by done. done.
Qed.

(** X10.  The amount the refund panel shows is the amount the server
    refunds.  For the lines the panel has loaded and the selection left
    after ticking or unticking a line, the server, when it accepts the
    selection, answers with the amount the panel displays: the sum of the
    selected line totals, formatted to 2 decimals. *)
Theorem refund_panel_amount (s : db) (t : nat) (tx : Tx.t)
    (lines : list (nat * Line.t * option string)) (sel : list nat)
    (lineId : nat) (s' : db) (r : refund_ok) :
  get_transaction s t = Ok (tx, lines) →
  refund_lines s t (handleToggleRefundLine lines sel lineId).1 = (s', Ok r) →
  refundAmount r = formatCurrency (handleToggleRefundLine lines sel lineId).2.
Proof.
  unfold get_transaction. destruct (pos_transaction s !! t); [| done].
  intros [= _ <-] E.
  destruct (refund_lines_payment _ _ _ _ _ E) as (_ & _ & -> & _).
  unfold formatCurrency, handleToggleRefundLine. simpl.
  apply toFixed2_comp. symmetry. apply selection_amount_selected.
Qed.

Lemma refund_panel_amount_witness :
  ∃ tx lines s' r,
    get_transaction half_refunded_sale 1 = Ok (tx, lines)
    ∧ refund_lines half_refunded_sale 1
        (handleToggleRefundLine lines [1; 2]%nat 1).1 = (s', Ok r)
    ∧ refundAmount r
      = formatCurrency (handleToggleRefundLine lines [1; 2]%nat 1).2.
Proof.
  destruct (get_transaction half_refunded_sale 1) as [[tx lines] | e] eqn:Hg;
    [| vm_compute in Hg; discriminate Hg].
  destruct (refund_lines half_refunded_sale 1
              (handleToggleRefundLine lines [1; 2]%nat 1).1)
    as [s' [r | e]] eqn:E.
  - exists tx, lines, s', r. split; [reflexivity |]. split; [exact E |].
    apply (refund_panel_amount _ _ _ _ _ _ _ _ Hg E).
  - exfalso. pose proof Hg as Hg'. vm_compute in Hg'. injection Hg' as <- <-.
    vm_compute in E. discriminate E.
Defined.






(** * The catalog endpoints *)

(** ** Barcode rows *)

Lemma foldr_insert_lookup (itemId : nat) (bs : list string)
    (m : gmap string nat) (b : string) :
  foldr (λ b acc, <[b := itemId]> acc) m bs !! b
  = if decide (b ∈ bs) then Some itemId else m !! b.
Proof.
  induction bs as [| b0 bs IH]; cbn [foldr].
  - rewrite decide_False; [done | apply not_elem_of_nil].
  - rewrite lookup_insert. destruct (decide (b0 = b)) as [Hd | Hd].
    + subst. rewrite decide_True; [done | left].
    + rewrite IH. destruct (decide (b ∈ bs)) as [Hin | Hin].
      * rewrite decide_True; [done | now right].
      * rewrite decide_False; [done |].
        intros [-> | H]%elem_of_cons; done.
Qed.

Lemma insert_barcodes_Some (itemId : nat) (bs : list string)
    (m m' : gmap string nat) :
  insert_barcodes itemId bs m = Some m' →
  NoDup bs ∧ (∀ b, b ∈ bs → m !! b = None)
  ∧ ∀ b, m' !! b = if decide (b ∈ bs) then Some itemId else m !! b.
Proof.
  unfold insert_barcodes. case_decide as H; [| done]. intros [= <-].
  destruct H as [Hnd Hall]. split; [done |]. split.
  - intros b Hb. rewrite Forall_forall in Hall. now apply Hall.
  - intros b. apply foldr_insert_lookup.
Qed.

Lemma insert_barcodes_None (itemId : nat) (bs : list string)
    (m : gmap string nat) :
  insert_barcodes itemId bs m = None →
  ¬ NoDup bs ∨ ∃ b, b ∈ bs ∧ is_Some (m !! b).
Proof.
  unfold insert_barcodes. case_decide as H; [done |]. intros _.
  apply not_and_l in H as [H | H]; [now left |]. right.
  apply not_Forall_Exists in H; [| apply _].
  apply Exists_exists in H as (b & Hb & Hne). exists b. split; [done |].
  unfold compose in Hne. destruct (m !! b); [eauto | done].
Qed.

Lemma delete_barcodes_lookup (itemId : nat) (m : gmap string nat) (b : string) :
  delete_barcodes itemId m !! b
  = match m !! b with
    | Some i => if decide (i = itemId) then None else Some i
    | None => None
    end.
Proof.
  unfold delete_barcodes. rewrite map_lookup_filter.
  destruct (m !! b) as [i |]; [| done]. simpl.
  case_decide; [now rewrite option_guard_False by (simpl; tauto) |].
  now rewrite option_guard_True.
Qed.

Lemma elem_of_barcodes_of (s : db) (itemId : nat) (b : string) :
  b ∈ barcodes_of s itemId ↔ item_barcode s !! b = Some itemId.
Proof.
  unfold barcodes_of. rewrite list_elem_of_fmap. split.
  - intros ([b' i] & -> & Hin). apply list_elem_of_filter in Hin as [Hi Hin].
    simpl in *. subst. now apply elem_of_map_to_list.
  - intros H. exists (b, itemId). split; [done |].
    apply list_elem_of_filter. split; [done |]. now apply elem_of_map_to_list.
Qed.

(** ** POST /api/items *)

(** A store after [set_item (delete i)] on top of [set_item (insert i)],
    for a fresh [i]. *)
Lemma set_item_rollback (s : db) (i : nat) (it : Item.t) :
  item s !! i = None →
  set_item (delete i) (set_item (<[i := it]>) s) = s.
Proof.
  intros H. destruct s. unfold set_item. simpl in *.
  now rewrite delete_insert_eq, delete_id.
Qed.

(** What a successful create has checked and written. *)
Lemma create_item_Done (s : db) (newId : nat) (body : item_body) (s' : db)
    (view : item_view) :
  create_item s newId body = (s', Done view) →
  ∃ name price bs m,
    body_name body = Some name ∧ name ≠ EmptyString
    ∧ body_price body = Some price ∧ ¬ price == 0
    ∧ body_barcodes body = Some bs ∧ bs ≠ []
    ∧ item s !! newId = None
    ∧ insert_barcodes newId (trim <$> bs) (item_barcode s) = Some m
    ∧ view = mk_item_view newId
               (Item.mk (trim name) price (default 0 (body_tax_rate body))
                        (default 0%Z (body_quantity body)) true)
               (trim <$> bs)
    ∧ s' = set_item_barcode (λ _, m) (set_item (<[newId := view_item view]>) s).
Proof.
  unfold create_item.
  destruct (body_name body) as [name |]; [| done].
  destruct (body_barcodes body) as [bs |]; [| done].
  case_bool_decide as Hname; [done |].
  destruct (body_price body) as [price |] eqn:Hprice; simpl; [| done].
  destruct (Qeq_bool price 0) eqn:Hp; simpl; [done |].
  case_bool_decide as Hbs; [done |].
  destruct (item s !! newId) eqn:Hnew; [done |].
  destruct (insert_barcodes _ _ _) as [m |] eqn:Hins; [| done].
  intros [= <- <-]. exists name, price, bs, m.
  split; [done |]. split; [done |]. split; [done |]. split.
  { intros H. apply Qeq_bool_iff in H. congruence. }
  auto 10.
Qed.

(** X12.  A created item can be scanned.  After a successful create the new
    item is active and has the fields of the body, with the name trimmed
    and the tax rate and quantity defaulting to 0; the barcodes of the body,
    trimmed, resolve to it; the other items and barcodes are as they were.
    The lookup endpoint resolves each trimmed barcode to the new item, and
    scanning a barcode of the body, as it was typed, into a transaction of
    the store adds a line for the new item at its price and tax rate. *)
Theorem create_then_scan (s : db) (newId : nat) (body : item_body) (s' : db)
    (view : item_view) :
  create_item s newId body = (s', Done view) →
  ∃ name price bs,
    body_name body = Some name ∧ body_price body = Some price
    ∧ body_barcodes body = Some bs
    ∧ item s !! newId = None
    ∧ item s' !! newId
      = Some (Item.mk (trim name) price (default 0 (body_tax_rate body))
                      (default 0%Z (body_quantity body)) true)
    ∧ (∀ i, i ≠ newId → item s' !! i = item s !! i)
    ∧ (∀ b, item_barcode s' !! b
            = if decide (b ∈ trim <$> bs) then Some newId
              else item_barcode s !! b)
    ∧ (∀ b, b ∈ bs → trim b ≠ EmptyString →
            barcode_lookup s' (trim b) = Ok newId)
    ∧ (∀ b t q, b ∈ bs → b ≠ EmptyString → (0 < default 1 q)%Z →
         is_Some (pos_transaction s' !! t) →
         ∃ s'' lineId row tx,
           add_line s' t b q = (s'', Ok ((lineId, row), tx))
           ∧ Line.item_id row = newId ∧ Line.quantity row = default 1%Z q
           ∧ Line.unit_price row = price
           ∧ Line.tax_rate row = default 0 (body_tax_rate body)).
Proof.
  intros E.
  apply create_item_Done in E
    as (name & price & bs & m & Hn & _ & Hp & _ & Hbs & _ & Hnew & Hins & -> & ->).
  apply insert_barcodes_Some in Hins as (_ & Hfree & Hm).
  exists name, price, bs. simpl.
  split; [done |]. split; [done |]. split; [done |]. split; [done |].
  split; [apply lookup_insert_eq |].
  split; [intros i Hi; now apply lookup_insert_ne |].
  split; [exact Hm |].
  assert (∀ b, b ∈ bs → m !! trim b = Some newId) as Hin.
  { intros b Hb. rewrite Hm, decide_True; [done |].
    apply list_elem_of_fmap. eauto. }
  split.
  - intros b Hb Hne. unfold barcode_lookup. simpl.
    rewrite decide_False by done.
    rewrite (Hin b Hb), lookup_insert_eq. done.
  - intros b t q Hb Hne Hq [tx0 Ht]. simpl in Ht.
    unfold add_line. simpl.
    rewrite decide_False by done.
    destruct (default 1%Z q <=? 0)%Z eqn:Hle; [lia |].
    rewrite (Hin b Hb), lookup_insert_eq. simpl.
    unfold add_line_item, insert_line. simpl.
    rewrite lookup_insert_eq, Ht. simpl. rewrite Ht.
    destruct (recompute_totals _) as [[a b'] c]. eauto 10.
Qed.

Lemma create_then_scan_witness :
  ∃ s' view,
    create_item open_sale 6
      (mk_item_body (Some " Gum "%string) (Some (1 # 2)) None None
                    (Some [" 555 "%string])) = (s', Done view)
    ∧ barcode_lookup s' "555" = Ok 6%nat
    ∧ ∃ s'' lineId row tx,
        add_line s' 1 " 555 " None = (s'', Ok ((lineId, row), tx))
        ∧ Line.unit_price row = 1 # 2.
Proof.
  destruct (create_item open_sale 6
              (mk_item_body (Some " Gum "%string) (Some (1 # 2)) None None
                            (Some [" 555 "%string])))
    as [s' [view | e]] eqn:E; [| vm_compute in E; discriminate E].
  destruct (create_then_scan _ _ _ _ _ E)
    as (name & price & bs & _ & Hp & Hb & _ & _ & _ & _ & Hlook & Hscan).
  simpl in Hp, Hb. injection Hp as <-. injection Hb as <-.
  exists s', view. split; [reflexivity |]. split.
  - apply (Hlook " 555 "%string); [left | discriminate].
  - destruct (Hscan " 555 "%string 1%nat None)
      as (s'' & lineId & row & tx & Ea & _ & _ & Hu & _).
    + left.
    + discriminate.
    + reflexivity.
    + pose proof E as E'. vm_compute in E'. injection E' as <- _.
      vm_compute. eauto.
    + exists s'', lineId, row, tx. split; [exact Ea | exact Hu].
Defined.

(** X13.  A create that is refused leaves the store as it was: the checks
    on the body come before any write, and when the barcodes are refused
    the item that was just inserted is deleted again.  The barcodes are
    refused when two of them are equal once trimmed, or when one of them,
    trimmed, is taken. *)
Theorem create_refused_unchanged (s : db) (newId : nat) (body : item_body)
    (s' : db) (e : catalog_error) :
  create_item s newId body = (s', Refused e) →
  s' = s
  ∧ match e with
    | ItemFieldsRequired =>
        body_name body = None ∨ body_name body = Some EmptyString
        ∨ no_price (body_price body) = true
        ∨ body_barcodes body = None ∨ body_barcodes body = Some []
    | CreateItemFailed => is_Some (item s !! newId)
    | CreateBarcodesFailed =>
        ∃ bs, body_barcodes body = Some bs
              ∧ (¬ NoDup (trim <$> bs)
                 ∨ ∃ b, b ∈ bs ∧ is_Some (item_barcode s !! trim b))
    | _ => False
    end.
Proof.
  unfold create_item.
  destruct (body_name body) as [name |];
    [| destruct (body_barcodes body); intros [= <- <-]; auto].
  destruct (body_barcodes body) as [bs |]; [| intros [= <- <-]; auto 10].
  case_bool_decide as Hname; simpl; [intros [= <- <-]; subst; auto |].
  destruct (no_price (body_price body)) eqn:Hp; simpl; [intros [= <- <-]; auto |].
  case_bool_decide as Hbs; simpl; [intros [= <- <-]; subst; auto 10 |].
  destruct (item s !! newId) eqn:Hnew; [intros [= <- <-]; eauto |].
  destruct (insert_barcodes _ _ _) as [m |] eqn:Hins; [done |].
  intros [= <- <-]. split; [now apply set_item_rollback |].
  exists bs. split; [done |].
  apply insert_barcodes_None in Hins as [H | (b & Hb & Hsome)]; [now left |].
  right. apply list_elem_of_fmap in Hb as (b0 & -> & Hb0). eauto.
Qed.

Lemma create_refused_unchanged_witness :
  create_item seed_db 6
    (mk_item_body (Some "Gum"%string) (Some (1 # 2)) None None
                  (Some ["555"%string; " 555"%string]))
  = (seed_db, Refused CreateBarcodesFailed).
Proof.
  destruct (create_item seed_db 6
              (mk_item_body (Some "Gum"%string) (Some (1 # 2)) None None
                            (Some ["555"%string; " 555"%string])))
    as [s' [view | e]] eqn:E; [vm_compute in E; discriminate E |].
  destruct (create_refused_unchanged _ _ _ _ _ E) as [-> _].
  f_equal. pose proof E as E'. vm_compute in E'. congruence.
Defined.

(** ** PUT /api/items/:itemId *)




(** X15.  A successful update writes the fields of the body that are
    given and leaves the others, the active flag among them, as they were;
    the other items are untouched, and so are the transactions and their
    lines, which keep the prices they were written with.  Without a list of
    barcodes the barcodes are untouched; with one, the item has exactly the
    barcodes of the list, trimmed, and the barcodes of the other items are
    as they were.  The answer is what a read of the item returns. *)
Theorem update_done (s : db) (itemId : nat) (body : item_body) (s' : db)
    (view : item_view) :
  update_item s itemId body = (s', Done view) →
  ∃ it0,
    item s !! itemId = Some it0
    ∧ item s' !! itemId = Some (update_fields body it0)
    ∧ Item.is_active (update_fields body it0) = Item.is_active it0
    ∧ (∀ i, i ≠ itemId → item s' !! i = item s !! i)
    ∧ get_item s' itemId = Ok view
    ∧ (pos_transaction s', transaction_line s', refund s', payment s')
      = (pos_transaction s, transaction_line s, refund s, payment s)
    ∧ match body_barcodes body with
      | None => item_barcode s' = item_barcode s
      | Some bs =>
          (∀ b, item_barcode s' !! b = Some itemId ↔ b ∈ trim <$> bs)
          ∧ (∀ b i, i ≠ itemId →
                    (item_barcode s' !! b = Some i
                     ↔ item_barcode s !! b = Some i))
      end.
Proof.
  intros E. unfold update_item in E.
  destruct (item s !! itemId) as [it0 |] eqn:Hit; [| done].
  exists it0. split; [done |].
  destruct (body_barcodes body) as [bs |].
  - case_bool_decide as Hbs; [done |].
    destruct (insert_barcodes _ _ _) as [m |] eqn:Hins; [| done].
    injection E as <- <-. simpl in *.
    split; [apply lookup_insert_eq |]. split; [done |].
    split; [intros i Hi; now apply lookup_insert_ne |].
    split; [unfold get_item; simpl; now rewrite lookup_insert_eq |].
    split; [done |].
    apply insert_barcodes_Some in Hins as (_ & Hfree & Hm). split.
    + intros b. rewrite Hm. case_decide as Hd; [done |].
      rewrite delete_barcodes_lookup.
      destruct (item_barcode s !! b) as [j |]; [| done].
      case_decide; split; congruence.
    + intros b i Hi. rewrite Hm. case_decide as Hd.
      * split; [congruence |]. intros Hold.
        specialize (Hfree b Hd). rewrite delete_barcodes_lookup, Hold in Hfree.
        rewrite decide_False in Hfree by done. done.
      * rewrite delete_barcodes_lookup.
        destruct (item_barcode s !! b) as [j |]; [| done].
        case_decide; split; congruence.
  - injection E as <- <-. simpl.
    split; [apply lookup_insert_eq |]. split; [done |].
    split; [intros i Hi; now apply lookup_insert_ne |].
    split; [unfold get_item; simpl; now rewrite lookup_insert_eq |]. done.
Qed.

Lemma update_done_witness :
  ∃ s' view,
    update_item paid_sale 1
      (mk_item_body None (Some 5) None None (Some [" 123 "%string; "777"%string]))
    = (s', Done view)
    ∧ (Line.unit_price <$> transaction_line s' !! 1%nat) = Some (299 # 100)
    ∧ item_barcode s' !! "999"%string = None
    ∧ item_barcode s' !! "777"%string = Some 1%nat.
Proof.
  destruct (update_item paid_sale 1
              (mk_item_body None (Some 5) None None
                            (Some [" 123 "%string; "777"%string])))
    as [s' [view | e]] eqn:E; [| vm_compute in E; discriminate E].
  destruct (update_done _ _ _ _ _ E)
    as (it0 & _ & _ & _ & _ & _ & Hledger & Hown & Hother).
  injection Hledger as _ Hl _ _.
  exists s', view. split; [reflexivity |]. split; [| split].
  - rewrite Hl. vm_compute. reflexivity.
  - destruct (item_barcode s' !! "999"%string) as [i |] eqn:Hi; [| reflexivity].
    exfalso. destruct (decide (i = 1%nat)) as [-> | Hne].
    + apply Hown in Hi. vm_compute in Hi.
      apply elem_of_cons in Hi as [Hi | Hi]; [discriminate Hi |].
      apply elem_of_cons in Hi as [Hi | Hi]; [discriminate Hi |].
      inversion Hi.
    + apply (Hother _ _ Hne) in Hi. vm_compute in Hi. congruence.
  - apply Hown. right. left.
Defined.

(** * The API as a whole *)

Lemma set_catalog_id (s s' : db) :
  ledger_part s' = (pos_transaction s, transaction_line s, refund s, payment s,
                    (next_transaction s, next_line s, next_refund s),
                    item_update_rejected s, item_barcode s') →
  s' = set_catalog (item s') (item_barcode s') (item_update_rejected s) s.
Proof.
  destruct s, s'. unfold ledger_part, set_catalog. simpl.
  intros [= -> -> -> -> -> -> -> ->]. done.
Qed.

(** The item endpoints only edit the catalog. *)
Lemma api_handle_as_request (s : db) (r : api_request) :
  api_handle s r = handle s (as_request s r).
Proof.
  destruct r; try reflexivity; simpl; apply set_catalog_id.
  - unfold create_item.
    destruct (body_name body); [| done].
    destruct (body_barcodes body); [| done].
    destruct (_ || _); [done |].
    destruct (item s !! newId); [done |].
    now destruct (insert_barcodes _ _ _).
  - unfold update_item.
    destruct (item s !! itemId); [| done].
    destruct (body_barcodes body); [| done].
    case_bool_decide; [done |].
    now destruct (insert_barcodes _ _ _).
  - unfold delete_item. now destruct (item s !! itemId).
Qed.

Lemma api_run_reachable (s : db) (rs : list api_request) :
  reachable s → reachable (api_run s rs).
Proof.
  revert s. induction rs as [| r rs IH]; intros s H; simpl; [done |].
  apply IH. rewrite api_handle_as_request. now apply reachable_handle.
Qed.

(** Where a line of the store after [add_line] comes from: it was there, or
    it is a line for an item that was active, found under the trimmed
    barcode. *)
Lemma add_line_line_origin (s : db) (t : nat) (b : string) (q : option Z)
    (k : nat) (l : Line.t) :
  transaction_line (add_line s t b q).1 !! k = Some l →
  transaction_line s !! k = Some l
  ∨ ∃ it, item s !! Line.item_id l = Some it ∧ Item.is_active it = true
          ∧ item_barcode s !! trim b = Some (Line.item_id l)
          ∧ Line.unit_price l = Item.price it
          ∧ Line.tax_rate l = Item.tax_rate it.
Proof.
  unfold add_line. case_decide; [now left |].
  destruct (_ <=? _)%Z; [now left |].
  destruct (item_barcode s !! trim b) as [item_id |] eqn:Hb; [| now left].
  destruct (item s !! item_id) as [it |] eqn:Hit; [| now left].
  destruct (Item.is_active it) eqn:Hact; simpl; [| now left].
  unfold add_line_item. rewrite Hit.
  destruct (insert_line _ s) as [[lineId s1] |] eqn:Hins; [| now left].
  apply insert_line_Some in Hins as [-> ->]. simpl.
  assert (∀ s2 : db,
            transaction_line s2
            = <[next_line s := Line.mk t item_id (default 1%Z q) (Item.price it)
                  (Item.tax_rate it)
                  (Item.price it * inject_Z (default 1%Z q)
                   + Item.price it * inject_Z (default 1%Z q) * Item.tax_rate it)
                  None]> (transaction_line s) →
            transaction_line s2 !! k = Some l →
            transaction_line s !! k = Some l
            ∨ ∃ it, item s !! Line.item_id l = Some it
                    ∧ Item.is_active it = true
                    ∧ Some item_id = Some (Line.item_id l)
                    ∧ Line.unit_price l = Item.price it
                    ∧ Line.tax_rate l = Item.tax_rate it) as H0.
  { intros s2 ->. rewrite lookup_insert. case_decide; [| now left].
    intros [= <-]. right. simpl. eauto 10. }
  destruct (pos_transaction s !! t); [| now apply H0].
  destruct (recompute_totals _) as [[a b'] c]. now apply H0.
Qed.

(** What an API request does to the row of an item: only a create writes a
    row that was missing; a row that is there stays, and stays inactive
    when it was. *)
Lemma api_handle_item (s : db) (r : api_request) (i : nat) (it : Item.t) :
  item s !! i = Some it →
  ∃ it', item (api_handle s r) !! i = Some it'
         ∧ (Item.is_active it = false → Item.is_active it' = false).
Proof.
  intros Hit. destruct r; simpl.
  - eauto.
  - destruct (add_line_store s transactionId barcode quantity) as
      [-> | (item_id & it0 & row & lineId & s1 & _ & _ & _ & Hins & H)];
      [eauto |].
    apply insert_line_Some in Hins as [_ ->].
    destruct (pos_transaction _ !! transactionId); rewrite H; simpl; eauto.
  - destruct (finalize s transactionId cashAmount) as [s' [r | e]] eqn:E; simpl.
    + apply finalize_Ok in E as (_ & _ & _ & _ & _ & _ & ->).
      rewrite fold_decrement_lookup. simpl. rewrite Hit. simpl.
      repeat case_decide; eauto.
    + apply finalize_Err in E as ->. eauto.
  - destruct (cancel_store s transactionId) as [-> | ->]; eauto.
  - destruct (refund_lines s transactionId lineIds) as [s' [r | e]] eqn:E; simpl.
    + apply refund_lines_catalog in E as (s3 & I1 & I2 & -> & _).
      rewrite fold_increment_lookup, I1, Hit. simpl.
      repeat case_decide; eauto.
    + apply refund_lines_Err in E as [-> | [-> _]]; eauto.
  - unfold create_item.
    destruct (body_name body); [| eauto].
    destruct (body_barcodes body); [| destruct (body_name body); eauto].
    destruct (_ || _); [eauto |].
    destruct (item s !! newId) eqn:Hnew; [eauto |].
    assert (i ≠ newId) by congruence.
    destruct (insert_barcodes _ _ _); simpl.
    + rewrite lookup_insert_ne by done. eauto.
    + rewrite lookup_delete_ne, lookup_insert_ne by done. eauto.
  - unfold update_item.
    destruct (item s !! itemId) as [it0 |] eqn:Hit0; [| eauto].
    assert (∃ it', <[itemId := update_fields body it0]> (item s) !! i = Some it'
                   ∧ (Item.is_active it = false → Item.is_active it' = false))
      as H0.
    { rewrite lookup_insert. case_decide; [| eauto].
      subst. rewrite Hit in Hit0. injection Hit0 as <-. eauto. }
    destruct (body_barcodes body); [| done].
    case_bool_decide; [done |].
    now destruct (insert_barcodes _ _ _).
  - unfold delete_item.
    destruct (item s !! itemId) as [it0 |] eqn:Hit0; [| eauto]. simpl.
    rewrite lookup_insert. case_decide; eauto.
Qed.

Lemma api_handle_line_origin (s : db) (r : api_request) (k : nat) (l : Line.t) :
  transaction_line (api_handle s r) !! k = Some l →
  (∃ l0, transaction_line s !! k = Some l0 ∧ snapshot l = snapshot l0)
  ∨ (∃ it, item s !! Line.item_id l = Some it ∧ Item.is_active it = true).
Proof.
  destruct r;
    try (rewrite api_handle_as_request; intros H;
         apply handle_line_origin in H
           as [(l0 & Hk & Hsnap & _) | (t & b & q & i & it & Hr & _)];
         [eauto | discriminate Hr]).
  simpl. intros H.
  apply add_line_line_origin in H as [H | (it & H1 & H2 & _)]; eauto.
Qed.

(** The transaction endpoints leave the barcodes alone. *)
Lemma api_handle_barcode (s : db) (r : api_request) (b : string) (i : nat) :
  item_barcode (api_handle s r) !! b = Some i →
  item_barcode s !! b = Some i ∨ is_Some (item (api_handle s r) !! i).
Proof.
  destruct r; simpl.
  - auto.
  - destruct (add_line_store s transactionId barcode quantity) as
      [-> | (item_id & it0 & row & lineId & s1 & _ & _ & _ & Hins & H)];
      [auto |].
    apply insert_line_Some in Hins as [_ ->].
    destruct (pos_transaction _ !! transactionId); rewrite H; simpl; auto.
  - destruct (finalize s transactionId cashAmount) as [s' [r | e]] eqn:E; simpl.
    + apply finalize_Ok in E as (_ & _ & _ & _ & _ & _ & ->).
      pose proof (fold_decrement_ledger (lines_of s transactionId)
                    (insert_payment
                       (Payment.mk transactionId Payment.cash cashAmount)
                       (update_status transactionId Tx.finalized s))) as E.
      unfold ledger_part in E. injection E as _ _ _ _ _ _ _ _ ->. auto.
    + apply finalize_Err in E as ->. auto.
  - destruct (cancel_store s transactionId) as [-> | ->]; auto.
  - destruct (refund_lines s transactionId lineIds) as [s' [r | e]] eqn:E; simpl.
    + apply refund_lines_catalog in E as (s3 & _ & _ & _ & -> & _). auto.
    + apply refund_lines_Err in E as [-> | [-> _]]; auto.
  - destruct (create_item s newId body) as [s' [view | e]] eqn:E; simpl.
    + apply create_item_Done in E
        as (name & price & bs & m & _ & _ & _ & _ & _ & _ & _ & Hins & _ & ->).
      apply insert_barcodes_Some in Hins as (_ & _ & Hm). simpl.
      rewrite Hm. case_decide; [| auto]. intros [= <-]. right.
      rewrite lookup_insert_eq. eauto.
    + unfold create_item in E.
      destruct (body_name body); [| injection E as <- _; auto].
      destruct (body_barcodes body); [| injection E as <- _; auto].
      destruct (_ || _); [injection E as <- _; auto |].
      destruct (item s !! newId); [injection E as <- _; auto |].
      destruct (insert_barcodes _ _ _); [done |].
      injection E as <- _. simpl. auto.
  - unfold update_item.
    destruct (item s !! itemId) as [it0 |]; [| auto].
    destruct (body_barcodes body) as [bs |]; [| auto].
    case_bool_decide; [auto |].
    assert (delete_barcodes itemId (item_barcode s) !! b = Some i →
            item_barcode s !! b = Some i) as Hdel.
    { rewrite delete_barcodes_lookup.
      destruct (item_barcode s !! b) as [j |]; [| done]. now case_decide. }
    destruct (insert_barcodes _ _ _) as [m |] eqn:Hins; simpl; [| auto].
    apply insert_barcodes_Some in Hins as (_ & _ & Hm).
    rewrite Hm. case_decide; [| auto]. intros [= <-]. right.
    rewrite lookup_insert_eq. eauto.
  - unfold delete_item. destruct (item s !! itemId); auto.
Qed.

Lemma catalog_linked_api_handle (s : db) (r : api_request) :
  catalog_linked s → catalog_linked (api_handle s r).
Proof.
  intros [Hb Hl].
  assert (∀ i, is_Some (item s !! i) → is_Some (item (api_handle s r) !! i))
    as Hkeep.
  { intros i [it Hit]. destruct (api_handle_item s r i it Hit) as (it' & H & _).
    eauto. }
  split.
  - intros b i H. apply api_handle_barcode in H as [H | H]; [| done].
    eapply Hkeep, Hb, H.
  - intros k l H.
    apply api_handle_line_origin in H as [(l0 & Hk & Hsnap) | (it & Hit & _)].
    + apply Hkeep. unfold snapshot in Hsnap.
      replace (Line.item_id l) with (Line.item_id l0) by congruence.
      eapply Hl, Hk.
    + apply Hkeep. eauto.
Qed.

(** X16.  Every store the API can reach from an empty one, through the
    transaction endpoints and the item endpoints, is a store the ledger
    handlers can reach, so what holds of those holds of it; and in such a
    store every barcode and every line names an item of the catalog: items
    are never removed, only deactivated. *)
Theorem api_store_linked (s : db) :
  api_reachable s → reachable s ∧ catalog_linked s.
Proof.
  intros (rejected & rs & ->). split.
  - apply api_run_reachable. now exists ∅, ∅, rejected, [].
  - induction rs as [| r rs IH] using rev_ind.
    + split; intros ? ? H; simpl in H; done.
    + unfold api_run in *. rewrite fold_left_app. simpl.
      now apply catalog_linked_api_handle.
Qed.

Lemma api_store_linked_witness :
  reachable (api_run (empty_db ∅ ∅ ∅)
               (seed_requests ++ [PostTransaction; PostLine 1 "123" None;
                                  DeleteItem 1; PostFinalize 1 10]))
  ∧ catalog_linked (api_run (empty_db ∅ ∅ ∅)
                      (seed_requests ++ [PostTransaction; PostLine 1 "123" None;
                                         DeleteItem 1; PostFinalize 1 10])).
Proof.
  apply api_store_linked. eexists ∅, _. reflexivity.
Defined.

(** An item that is inactive stays in the catalog, inactive, and no line is
    written for it any more. *)
Lemma inactive_run (s : db) (i : nat) (it : Item.t) (rs : list api_request) :
  item s !! i = Some it → Item.is_active it = false →
  (∃ it', item (api_run s rs) !! i = Some it' ∧ Item.is_active it' = false)
  ∧ ∀ k l, transaction_line (api_run s rs) !! k = Some l →
           Line.item_id l = i →
           ∃ l0, transaction_line s !! k = Some l0 ∧ snapshot l = snapshot l0.
Proof.
  revert s it. induction rs as [| r rs IH]; intros s it Hit Hoff; simpl.
  - split; eauto.
  - destruct (api_handle_item s r i it Hit) as (it1 & Hit1 & Hoff1).
    destruct (IH _ it1 Hit1 (Hoff1 Hoff)) as [H1 H2]. split; [done |].
    intros k l Hk Hi. destruct (H2 k l Hk Hi) as (l1 & Hk1 & Hsnap1).
    apply api_handle_line_origin in Hk1
      as [(l0 & Hk0 & Hsnap0) | (it0 & Hit0 & Hact)].
    + exists l0. split; [done | congruence].
    + exfalso. unfold snapshot in Hsnap1.
      replace (Line.item_id l1) with i in Hit0 by congruence. congruence.
Qed.

(** X17.  Deleting an item is a soft delete that cannot be undone through
    the API.  The row stays, marked inactive, with its barcodes, and the
    transactions and lines are untouched; a read of the item still returns
    it.  Whatever is requested afterwards, the item stays inactive, the
    lookup endpoint refuses its barcodes, and no line is ever written for
    it again: the lines that name it are lines there were before the
    delete. *)
Theorem deleted_never_sold (s : db) (itemId : nat) (s' : db) (it : Item.t)
    (rs : list api_request) :
  delete_item s itemId = (s', Done it) →
  item s' !! itemId = Some it ∧ Item.is_active it = false
  ∧ get_item s' itemId = Ok (mk_item_view itemId it (barcodes_of s itemId))
  ∧ ledger_part s' = ledger_part s
  ∧ (∃ it', item (api_run s' rs) !! itemId = Some it'
            ∧ Item.is_active it' = false)
  ∧ (∀ b, b ≠ EmptyString → item_barcode (api_run s' rs) !! b = Some itemId →
          barcode_lookup (api_run s' rs) b = Err ItemInactive)
  ∧ (∀ k l, transaction_line (api_run s' rs) !! k = Some l →
            Line.item_id l = itemId →
            ∃ l0, transaction_line s !! k = Some l0 ∧ snapshot l = snapshot l0).
Proof.
  unfold delete_item. destruct (item s !! itemId) as [it0 |] eqn:Hit; [| done].
  intros [= <- <-].
  set (s' := set_item _ s).
  assert (item s' !! itemId = Some (deactivate it0)) as Hit'
    by apply lookup_insert_eq.
  destruct (inactive_run s' itemId (deactivate it0) rs Hit' eq_refl)
    as [(it' & Hrun & Hoff) Hlines].
  split; [done |]. split; [done |].
  split; [unfold get_item; now rewrite Hit' |]. split; [done |].
  split; [eauto |]. split; [| exact Hlines].
  intros b Hne Hb. unfold barcode_lookup.
  rewrite decide_False, Hb, Hrun, Hoff by done. done.
Qed.

Lemma deleted_never_sold_witness :
  ∃ s' it,
    delete_item paid_sale 1 = (s', Done it)
    ∧ barcode_lookup
        (api_run s' [PutItem 1 (mk_item_body None (Some 1) None (Some 5%Z) None);
                     PostTransaction; PostLine 2 "123" None]) "123"
      = Err ItemInactive.
Proof.
  destruct (delete_item paid_sale 1) as [s' [it | e]] eqn:E;
    [| vm_compute in E; discriminate E].
  exists s', it. split; [reflexivity |].
  destruct (deleted_never_sold paid_sale 1 s' it
              [PutItem 1 (mk_item_body None (Some 1) None (Some 5%Z) None);
               PostTransaction; PostLine 2 "123" None] E)
    as (_ & _ & _ & _ & _ & Hlook & _).
  apply Hlook; [discriminate |].
  pose proof E as E'. vm_compute in E'. injection E' as <- _.
  vm_compute. reflexivity.
Defined.

(** * The read endpoints *)

(** ** Grouping *)

Lemma fold_push_group {A B : Type} (key : A → nat) (value : A → B)
    (rows : list A) (acc : gmap nat (list B)) (k : nat) :
  default [] (fold_left (push_group key value) rows acc !! k)
  = default [] (acc !! k) ++ (value <$> filter (λ r, key r = k) rows).
Proof.
  revert acc. induction rows as [| r rows IH]; intros acc; simpl.
  - now rewrite app_nil_r.
  - rewrite IH. unfold push_group. rewrite lookup_insert.
    destruct (decide (key r = k)) as [Hk | Hk].
    + rewrite filter_cons_True by done. rewrite Hk. simpl.
      now rewrite <- app_assoc.
    + rewrite filter_cons_False by done. done.
Qed.

(** The group of a key holds the values of the rows with that key, in the
    order of the rows. *)
Lemma group_rows_lookup {A B : Type} (key : A → nat) (value : A → B)
    (rows : list A) (k : nat) :
  default [] (group_rows key value rows !! k)
  = value <$> filter (λ r, key r = k) rows.
Proof. unfold group_rows. now rewrite fold_push_group, lookup_empty. Qed.

(** ** GET /api/items *)

Lemma get_items_unfold (s : db) :
  get_items s
  = (λ kv, mk_item_view kv.1 kv.2 (barcodes_of s kv.1))
      <$> filter (λ kv, Item.is_active kv.2 = true) (map_to_list (item s)).
Proof.
  unfold get_items.
  set (items := filter _ (map_to_list (item s))).
  destruct (items.*1) as [| i0 ids0] eqn:Hids.
  { apply fmap_nil_inv in Hids. now rewrite Hids. }
  rewrite <- Hids. apply list_fmap_ext. intros n kv Hn. f_equal.
  rewrite group_rows_lookup. unfold barcodes_of. f_equal.
  apply list_filter_filter_l. intros row ->.
  apply list_elem_of_fmap. exists kv. split; [done |].
  now apply list_elem_of_lookup_2 in Hn.
Qed.

(** X18.  The list of items is the list of the active items, each once,
    each as a read of that item returns it: with its row and with all its
    barcodes.  The grouping of the barcode rows by item gives every item
    exactly its own barcodes. *)
Theorem get_items_active (s : db) :
  (∀ v, v ∈ get_items s
        ↔ get_item s (view_id v) = Ok v ∧ Item.is_active (view_item v) = true)
  ∧ NoDup (view_id <$> get_items s)
  ∧ ∀ v b, v ∈ get_items s →
           (b ∈ barcodes v ↔ item_barcode s !! b = Some (view_id v)).
Proof.
  rewrite get_items_unfold. split; [| split].
  - intros v. rewrite list_elem_of_fmap. unfold get_item. split.
    + intros ([i it] & -> & Hin). simpl.
      apply list_elem_of_filter in Hin as [Hact Hin].
      apply elem_of_map_to_list in Hin. now rewrite Hin.
    + destruct v as [i it0 bs]. simpl. intros [Hg Hact].
      destruct (item s !! i) as [it |] eqn:Hit; [| done].
      injection Hg as <- <-. exists (i, it). split; [done |].
      apply list_elem_of_filter. split; [done |]. now apply elem_of_map_to_list.
  - rewrite <- list_fmap_compose.
    apply (sublist_NoDup _ (map_to_list (item s)).*1);
      [apply NoDup_fst_map_to_list |].
    apply (fmap_sublist fst), sublist_filter.
  - intros v b Hin. apply list_elem_of_fmap in Hin as ([i it] & -> & _).
    simpl. apply elem_of_barcodes_of.
Qed.

Lemma get_items_active_witness :
  let v := mk_item_view 1 (Item.mk "Coca Cola" (299 # 100) (875 # 10000) 24 true)
                        ["999"%string; "123"%string] in
  v ∈ get_items seed_db ∧ "123"%string ∈ barcodes v.
Proof.
  intros v. destruct (get_items_active seed_db) as (H1 & _ & H3).
  assert (v ∈ get_items seed_db) as Hv.
  { apply H1. split; vm_compute; reflexivity. }
  split; [exact Hv |]. apply (H3 v "123"%string Hv). vm_compute. reflexivity.
Defined.

(** ** GET /api/transactions *)

Lemma list_transactions_unfold (s : db) (limit : positive) (offset : nat) :
  list_transactions s limit offset
  = filter (λ row, ¬ (Tx.status_of (report_tx row) = Tx.finalized
                      ∧ report_lines row = []))
           (report_row_of s <$> sales_page s limit offset).
Proof.
  unfold list_transactions. fold (sales_page s limit offset).
  destruct ((sales_page s limit offset).*1) as [| t0 ts] eqn:Hids.
  { apply fmap_nil_inv in Hids. now rewrite Hids. }
  rewrite <- Hids. f_equal. apply list_fmap_ext. intros n tx Hn.
  unfold report_row_of.
  assert (default [] (group_rows (λ kv : nat * Line.t, Line.transaction_id kv.2)
                        id
                        (filter (λ kv : nat * Line.t,
                                   Line.transaction_id kv.2
                                   ∈ (sales_page s limit offset).*1)
                                (map_to_list (transaction_line s))) !! tx.1)
          = lines_of s tx.1) as ->; [| done].
  rewrite group_rows_lookup, list_fmap_id. unfold lines_of.
  apply list_filter_filter_l. intros row ->.
  apply list_elem_of_fmap. exists tx. split; [done |].
  now apply list_elem_of_lookup_2 in Hn.
Qed.

Lemma elem_of_sales_page (s : db) (limit : positive) (offset : nat)
    (tx : nat * Tx.t) :
  tx ∈ sales_page s limit offset →
  pos_transaction s !! tx.1 = Some tx.2
  ∧ listed_status tx.2 = true
  ∧ ∀ k r, refund s !! k = Some r → Refund.refund_tx r ≠ tx.1.
Proof.
  unfold sales_page, page, newest_first. intros H.
  apply list_elem_of_filter in H as [Hnot H].
  apply subseteq_take, subseteq_drop in H.
  rewrite merge_sort_Permutation in H.
  apply list_elem_of_filter in H as [Hl H].
  destruct tx as [t tx]. apply elem_of_map_to_list in H.
  split; [done |]. split; [done |].
  intros k r Hk Hr. apply Hnot. apply list_elem_of_fmap. exists (k, r).
  split; [done |]. now apply elem_of_map_to_list.
Qed.

Lemma listed_status_not_open (tx : Tx.t) :
  listed_status tx = true ↔ Tx.status_of tx ≠ Tx.open.
Proof. unfold listed_status. destruct (Tx.status_of tx); split; done. Qed.

(** X19.  The report of transactions.  Every row is a transaction of the
    store that is finalized or refunded and that no refund record names as
    its reversal; it comes with all the lines of that transaction and with
    the refund status computed from them, and a finalized transaction
    without lines is left out.  No transaction is listed twice and a page
    has at most [limit] rows.  The rows are cut to the page before the
    reversal transactions and the empty ones are dropped; when the page is
    large enough for all the transactions of the store, every transaction
    that qualifies is listed. *)
Theorem list_transactions_rows (s : db) (limit : positive) (offset : nat) :
  (∀ row, row ∈ list_transactions s limit offset →
     pos_transaction s !! report_id row = Some (report_tx row)
     ∧ Tx.status_of (report_tx row) ≠ Tx.open
     ∧ (∀ k r, refund s !! k = Some r → Refund.refund_tx r ≠ report_id row)
     ∧ report_lines row = lines_of s (report_id row)
     ∧ refundStatus row = refund_status_of (report_lines row)
     ∧ (Tx.status_of (report_tx row) = Tx.finalized → report_lines row ≠ []))
  ∧ (length (list_transactions s limit offset) ≤ Pos.to_nat limit)%nat
  ∧ NoDup (report_id <$> list_transactions s limit offset)
  ∧ ((size (pos_transaction s) ≤ Pos.to_nat limit)%nat →
     ∀ t tx, pos_transaction s !! t = Some tx →
       Tx.status_of tx ≠ Tx.open →
       (∀ k r, refund s !! k = Some r → Refund.refund_tx r ≠ t) →
       (Tx.status_of tx = Tx.finalized → lines_of s t ≠ []) →
       report_row_of s (t, tx) ∈ list_transactions s limit 0).
Proof.
  split; [| split; [| split]].
  - intros row. rewrite list_transactions_unfold. intros H.
    apply list_elem_of_filter in H as [Hkeep H].
    apply list_elem_of_fmap in H as (tx & -> & H).
    apply elem_of_sales_page in H as (Ht & Hl & Hr). simpl in *.
    split; [done |]. split; [now apply listed_status_not_open |].
    split; [done |]. split; [done |]. split; [done |].
    intros Hf Hnil. apply Hkeep. done.
  - rewrite list_transactions_unfold.
    etransitivity; [apply length_filter |]. rewrite length_fmap.
    unfold sales_page. etransitivity; [apply length_filter |].
    unfold page. rewrite length_take. lia.
  - rewrite list_transactions_unfold.
    apply (sublist_NoDup _ (report_id <$> (report_row_of s <$> sales_page s limit offset)));
      [| apply fmap_sublist, sublist_filter].
    rewrite <- list_fmap_compose.
    change (report_id ∘ report_row_of s) with (fst : nat * Tx.t → nat).
    unfold sales_page, page, newest_first.
    eapply sublist_NoDup;
      [| apply fmap_sublist; etransitivity; [apply sublist_filter |];
         etransitivity; [apply sublist_take | apply sublist_drop]].
    rewrite merge_sort_Permutation.
    apply (sublist_NoDup _ (map_to_list (pos_transaction s)).*1);
      [apply NoDup_fst_map_to_list |].
    apply (fmap_sublist fst), sublist_filter.
  - intros Hsize t tx Ht Hst Hr Hlines.
    rewrite list_transactions_unfold. apply list_elem_of_filter. split.
    { simpl. intros [Hf Hnil]. now apply Hlines. }
    apply list_elem_of_fmap. exists (t, tx). split; [done |].
    unfold sales_page. apply list_elem_of_filter. split.
    { simpl. intros Hin. apply list_elem_of_fmap in Hin as ([k r] & Heq & Hin).
      apply elem_of_map_to_list in Hin. simpl in Heq. now apply (Hr k r). }
    unfold page, newest_first. rewrite drop_0, take_ge.
    + rewrite merge_sort_Permutation. apply list_elem_of_filter.
      split; [now apply listed_status_not_open |].
      now apply elem_of_map_to_list.
    + rewrite merge_sort_Permutation.
      etransitivity; [apply length_filter |].
      now rewrite length_map_to_list.
Qed.

Lemma list_transactions_rows_witness :
  ∃ tx, pos_transaction half_refunded_sale !! 1%nat = Some tx
        ∧ report_row_of half_refunded_sale (1%nat, tx)
          ∈ list_transactions half_refunded_sale 50 0.
Proof.
  destruct (pos_transaction half_refunded_sale !! 1%nat) as [tx |] eqn:Ht;
    [| vm_compute in Ht; discriminate Ht].
  exists tx. split; [reflexivity |].
  pose proof Ht as Ht'. vm_compute in Ht'. injection Ht' as Htx.
  apply (proj2 (proj2 (proj2 (list_transactions_rows half_refunded_sale 50 0)))).
  - vm_compute. lia.
  - exact Ht.
  - rewrite <- Htx. discriminate.
  - intros k r Hk Hr.
    assert (refund half_refunded_sale = {[1%nat := Refund.mk 1 2]}) as Hrf
      by (vm_compute; reflexivity).
    rewrite Hrf in Hk. apply lookup_singleton_Some in Hk as [_ <-].
    discriminate Hr.
  - intros _. vm_compute. discriminate.
Defined.

(** ** The refund status of the report against the ledger *)

Lemma fresh_tx_no_lines (s : db) (r : request) (t : nat) :
  wf_struct s → pos_transaction s !! t = None →
  (∀ t0 b q, r ≠ AddLine t0 b q) → lines_of (handle s r) t = [].
Proof.
  intros W Ht Hr. apply lines_of_nil. intros k l Hk Hlt.
  apply handle_line_origin in Hk
    as [(l0 & Hk0 & Hsnap & _) | (t0 & b & q & _ & _ & -> & _)];
    [| now apply (Hr t0 b q)].
  destruct (wf_line_fk s W k l0 Hk0) as [tx Htx].
  unfold snapshot in Hsnap. congruence.
Qed.

(** Where a transaction of the store after a request comes from. *)
Lemma handle_tx_origin (s : db) (r : request) (t : nat) (tx' : Tx.t) :
  wf_struct s → pos_transaction (handle s r) !! t = Some tx' →
  (pos_transaction s !! t = None ∧ Tx.status_of tx' ≠ Tx.refunded
   ∧ lines_of (handle s r) t = [])
  ∨ ∃ tx, pos_transaction s !! t = Some tx
      ∧ (Tx.status_of tx' = Tx.status_of tx
         ∨ (Tx.status_of tx = Tx.open ∧ Tx.status_of tx' = Tx.finalized
            ∧ ∃ c, r = Finalize t c)
         ∨ (Tx.status_of tx' = Tx.refunded
            ∧ ∃ ids s' out, r = RefundLines t ids
                            ∧ refund_lines s t ids = (s', Ok out))).
Proof.
  intros W H.
  destruct (pos_transaction s !! t) as [tx |] eqn:Ht.
  - right. exists tx. split; [done |].
    assert (t ≠ next_transaction s) as Hfresh
      by (intros ->; rewrite (next_transaction_fresh s W) in Ht; done).
    destruct r; simpl in H.
    + rewrite lookup_insert_ne, Ht in H by done. injection H as <-. now left.
    + destruct (add_line_store s transactionId barcode quantity) as
        [E | (item_id & it & row & lineId & s1 & _ & _ & _ & Hins & E)].
      { rewrite E, Ht in H. injection H as <-. now left. }
      apply insert_line_tables in Hins as (_ & _ & Hp & _).
      destruct (pos_transaction s1 !! transactionId) as [tx0 |] eqn:E0;
        rewrite E in H; simpl in H.
      * rewrite lookup_insert in H. case_decide as Hd.
        -- injection H as <-. subst. rewrite Hp, Ht in E0.
           injection E0 as <-. now left.
        -- rewrite Hp, Ht in H. injection H as <-. now left.
      * rewrite Hp, Ht in H. injection H as <-. now left.
    + destruct (finalize s transactionId cashAmount) as [s' [out | e]] eqn:E;
        simpl in H.
      * apply finalize_Ok_tables in E as (tx0 & Ht0 & Hst & Hp & _).
        rewrite Hp, lookup_alter in H. case_decide as Hd.
        -- subst. rewrite Ht in H, Ht0. injection Ht0 as <-.
           injection H as <-. right. left. eauto.
        -- rewrite Ht in H. injection H as <-. now left.
      * apply finalize_Err in E as ->. rewrite Ht in H. injection H as <-.
        now left.
    + destruct (cancel_store s transactionId) as [E | E]; rewrite E in H.
      * rewrite Ht in H. injection H as <-. now left.
      * simpl in H. rewrite lookup_delete in H. case_decide; [done |].
        rewrite Ht in H. injection H as <-. now left.
    + destruct (refund_lines s transactionId lineIds) as [s' [out | e]] eqn:E;
        simpl in H.
      * pose proof E as E'.
        apply refund_lines_effect in E' as (orig & rid & _ & _ & _ & Hp & _).
        rewrite Hp in H. destruct (forallb _ _).
        -- rewrite lookup_alter in H. case_decide as Hd.
           ++ subst. rewrite lookup_insert_ne, Ht in H by done.
              injection H as <-. right. right. eauto 10.
           ++ rewrite lookup_insert_ne, Ht in H by done.
              injection H as <-. now left.
        -- rewrite lookup_insert_ne, Ht in H by done.
           injection H as <-. now left.
      * apply refund_lines_Err in E as [-> | [-> _]]; simpl in H.
        -- rewrite Ht in H. injection H as <-. now left.
        -- rewrite lookup_insert_ne, Ht in H by done.
           injection H as <-. now left.
    + rewrite Ht in H. injection H as <-. now left.
  - left. split; [done |].
    destruct r; simpl in H.
    + split; [| apply fresh_tx_no_lines; [done | done | intros; discriminate]].
      rewrite lookup_insert in H. case_decide; [| congruence].
      injection H as <-. done.
    + exfalso.
      destruct (add_line_store s transactionId barcode quantity) as
        [E | (item_id & it & row & lineId & s1 & _ & _ & _ & Hins & E)].
      { rewrite E, Ht in H. done. }
      apply insert_line_tables in Hins as ([tx0 Htx0] & _ & Hp & _).
      simpl in Htx0.
      destruct (pos_transaction s1 !! transactionId) as [tx1 |] eqn:E0;
        rewrite E in H; simpl in H.
      * rewrite lookup_insert in H. case_decide as Hd.
        -- subst. rewrite Hp, Ht in E0. done.
        -- rewrite Hp, Ht in H. done.
      * rewrite Hp, Ht in H. done.
    + exfalso.
      destruct (finalize_store s transactionId cashAmount) as [E | E].
      * rewrite E, Ht in H. done.
      * unfold core in E. injection E as E _ _ _ _ _. rewrite E in H.
        simpl in H. rewrite lookup_alter in H.
        case_decide; [subst; rewrite Ht in H; done | congruence].
    + exfalso. destruct (cancel_store s transactionId) as [E | E];
        rewrite E in H.
      * rewrite Ht in H. done.
      * simpl in H. rewrite lookup_delete in H. case_decide; [done |].
        rewrite Ht in H. done.
    + split; [| apply fresh_tx_no_lines; [done | done | intros; discriminate]].
      destruct (refund_lines s transactionId lineIds) as [s' [out | e]] eqn:E;
        simpl in H.
      * apply refund_lines_effect in E as (orig & rid & Hacc & _ & _ & Hp & _).
        destruct Hacc as (_ & Ho & _).
        assert (<[next_transaction s := reversal_row s transactionId lineIds]>
                  (pos_transaction s) !! t = Some tx' →
                Tx.status_of tx' ≠ Tx.refunded) as Hins.
        { rewrite lookup_insert. case_decide; [| congruence].
          intros [= <-]. done. }
        rewrite Hp in H. destruct (forallb _ _); [| now apply Hins].
        rewrite lookup_alter in H. case_decide as Hd; [| now apply Hins].
        subst. rewrite lookup_insert_ne in H; [congruence |].
        intros <-. congruence.
      * apply refund_lines_Err in E as [-> | [-> _]]; simpl in H;
          [congruence |].
        rewrite lookup_insert in H. case_decide; [| congruence].
        injection H as <-. done.
    + congruence.
Qed.

(** A line stays as long as its transaction does. *)
Lemma handle_line_kept (s : db) (r : request) (k : nat) (l : Line.t) :
  wf_struct s → transaction_line s !! k = Some l →
  is_Some (pos_transaction (handle s r) !! Line.transaction_id l) →
  ∃ l', transaction_line (handle s r) !! k = Some l'
        ∧ snapshot l' = snapshot l
        ∧ ∀ rid, Line.refunded_by l = Some rid → Line.refunded_by l' = Some rid.
Proof.
  intros W Hk [tx' Ht'].
  pose proof (handle_line s r k l W Hk) as H.
  destruct (transaction_line (handle s r) !! k) as [l' |] eqn:E; [eauto |].
  exfalso. destruct H as (-> & _). simpl in *.
  destruct (cancel_store s (Line.transaction_id l)) as [Hs | Hs];
    rewrite Hs in E, Ht'.
  - congruence.
  - simpl in Ht'. rewrite lookup_delete_eq in Ht'. done.
Qed.

Lemma refunds_settled_handle (s : db) (r : request) :
  wf_struct s → refunds_settled s → refunds_settled (handle s r).
Proof.
  intros W IH t tx' Ht'.
  destruct (handle_tx_origin s r t tx' W Ht')
    as [(Hnone & Hnr & Hnil) | (tx & Ht & Hcase)]; [done |].
  destruct (IH t tx Ht) as [IHA IHB].
  assert ((∃ ids, r = RefundLines t ids) ∨ ¬ ∃ ids, r = RefundLines t ids)
    as [[ids ->] | Hnot].
  { destruct r; try (right; intros [? ?]; discriminate).
    destruct (decide (transactionId = t)) as [-> | Hne]; [left; eauto |].
    right. intros [? [= ? ?]]. done. }
  - (* a refund request on [t] *)
    simpl in *.
    destruct (refund_lines s t ids) as [s' [out | e]] eqn:E; simpl in *.
    + pose proof E as E'.
      apply refund_lines_effect in E' as (orig & rid & Hacc & Hl & _ & Hp & _).
      split.
      * intros _ Hall.
        assert (forallb is_refunded (lines_of s' t) = true) as Hfa.
        { apply forallb_forall. intros [k l] Hin.
          apply list_elem_of_In, elem_of_lines_of in Hin as [Hk Hlt].
          destruct (Hall k l Hk Hlt) as [x Hx].
          unfold is_refunded. simpl. now rewrite Hx. }
        rewrite Hp, Hfa, lookup_alter_eq in Ht'.
        destruct (_ !! t) as [tx0 |]; [| done]. injection Ht' as <-. done.
      * intros _.
        destruct (refund_accepted_lines s t ids orig Hacc) as [_ Hids].
        destruct Hacc as (Hne & _).
        destruct ids as [| k ids]; [done |].
        destruct (Hids k) as (l & Hk & Hlt & _); [left |].
        exists k, (Line.with_refunded_by rid l).
        rewrite Hl, decide_True, Hk by left. simpl. eauto.
    + assert (transaction_line s' = transaction_line s
              ∧ Tx.status_of tx' = Tx.status_of tx) as [El Est].
      { assert (t ≠ next_transaction s)
          by (intros ->; rewrite (next_transaction_fresh s W) in Ht; done).
        apply refund_lines_Err in E as [-> | [-> _]]; simpl in *.
        - split; congruence.
        - rewrite lookup_insert_ne in Ht' by done. split; congruence. }
      rewrite (lines_of_core s s' t El), El, Est. done.
  - (* any other request *)
    assert (∀ k l', transaction_line (handle s r) !! k = Some l' →
                    Line.transaction_id l' = t →
                    is_Some (Line.refunded_by l') →
                    ∃ l, transaction_line s !! k = Some l
                         ∧ Line.transaction_id l = t
                         ∧ Line.refunded_by l = Line.refunded_by l') as Hback.
    { intros k l' Hk Hlt [x Hx].
      apply handle_line_origin in Hk
        as [(l & Hk0 & Hsnap & Hrb) | (t1 & b1 & q1 & i1 & it1 & _ & _ & _ & _ & ->)];
        [| done].
      assert (Line.transaction_id l = t)
        by (unfold snapshot in Hsnap; congruence).
      exists l. split; [done |]. split; [done |].
      destruct Hrb as [-> | (t0 & ids & -> & _ & Ht0 & _)]; [done |].
      exfalso. apply Hnot. exists ids. congruence. }
    assert (∀ k l, transaction_line s !! k = Some l →
                   Line.transaction_id l = t →
                   ∃ l', transaction_line (handle s r) !! k = Some l'
                         ∧ Line.transaction_id l' = t
                         ∧ ∀ rid, Line.refunded_by l = Some rid →
                                  Line.refunded_by l' = Some rid) as Hfwd.
    { intros k l Hk Hlt.
      destruct (handle_line_kept s r k l W Hk) as (l' & Hk' & Hsnap & Hrb).
      { rewrite Hlt. eauto. }
      exists l'. split; [done |]. split; [| done].
      unfold snapshot in Hsnap. congruence. }
    split.
    + intros Hne Hall.
      assert (Tx.status_of tx = Tx.refunded) as Hst.
      { apply IHA.
        - destruct (lines_of (handle s r) t) as [| [k l'] ls] eqn:El; [done |].
          assert ((k, l') ∈ lines_of (handle s r) t) as Hin by (rewrite El; left).
          apply elem_of_lines_of in Hin as [Hk Hlt].
          destruct (Hback k l' Hk Hlt (Hall k l' Hk Hlt)) as (l & Hk0 & Hlt0 & _).
          intros Hnil. now apply (proj1 (lines_of_nil s t) Hnil k l Hk0).
        - intros k l Hk Hlt.
          destruct (Hfwd k l Hk Hlt) as (l' & Hk' & Hlt' & _).
          destruct (Hback k l' Hk' Hlt' (Hall k l' Hk' Hlt'))
            as (l0 & Hk0 & _ & Hrb).
          rewrite Hk in Hk0. injection Hk0 as <-. rewrite Hrb.
          now apply (Hall k l'). }
      destruct Hcase as [Hsame | [(Hopen & _) | (Href & _)]]; congruence.
    + intros Hst.
      destruct Hcase as [Hsame | [(_ & Hfin & _) | (_ & ids & _ & _ & -> & _)]].
      * destruct IHB as (k & l & Hk & Hlt & [x Hx]); [congruence |].
        destruct (Hfwd k l Hk Hlt) as (l' & Hk' & Hlt' & Hrb).
        exists k, l'. split; [done |]. split; [done |]. rewrite (Hrb x Hx). eauto.
      * congruence.
      * exfalso. apply Hnot. eauto.
Qed.

Lemma refunds_settled_reachable (s : db) : reachable s → refunds_settled s.
Proof.
  revert s. apply reachable_ind.
  - intros items barcodes rejected t tx H. simpl in H. done.
  - intros s r Hr IH. apply refunds_settled_handle; [| done].
    apply (reachable_wf s Hr).
Qed.

(** What the counts of [refund_status_of] say. *)
Lemma refund_status_of_spec (ls : list (nat * Line.t)) :
  (refund_status_of ls = full
   ↔ ls ≠ [] ∧ ∀ line, line ∈ ls → is_refunded line = true)
  ∧ (refund_status_of ls = none
     ↔ ∀ line, line ∈ ls → is_refunded line = false).
Proof.
  unfold refund_status_of.
  assert (length (filter (λ line, is_refunded line) ls) = length ls
          ↔ ∀ line, line ∈ ls → is_refunded line = true) as Hall.
  { split.
    - intros Hlen line Hin.
      destruct (is_refunded line) eqn:E; [done |].
      assert (¬ is_refunded line) as Hnot by (rewrite E; simpl; tauto).
      pose proof (length_filter_lt (λ line, is_refunded line) ls line Hin Hnot).
      lia.
    - intros H. f_equal. apply filter_all. intros line Hin.
      rewrite (H line Hin). done. }
  assert (length (filter (λ line, is_refunded line) ls) = 0%nat
          ↔ ∀ line, line ∈ ls → is_refunded line = false) as Hnone.
  { split.
    - intros Hlen line Hin.
      destruct (is_refunded line) eqn:E; [| done].
      apply length_zero_iff_nil in Hlen.
      assert (line ∈ filter (λ line, is_refunded line) ls) as H0.
      { apply list_elem_of_filter. split; [now rewrite E | done]. }
      rewrite Hlen in H0. inversion H0.
    - intros H. apply length_zero_iff_nil.
      destruct (filter _ ls) as [| x xs] eqn:E; [done |].
      assert (x ∈ filter (λ line, is_refunded line) ls) as H0
        by (rewrite E; left).
      apply list_elem_of_filter in H0 as [H1 H2].
      rewrite (H x H2) in H1. done. }
  destruct ls as [| l0 ls']; [simpl; split; split; try done |].
  { intros [H _]. done. }
  { intros _ line Hin. inversion Hin. }
  set (ls := l0 :: ls') in *.
  change (0 <? length ls)%nat with true. cbn iota.
  destruct (Nat.eqb_spec (length (filter (λ line, is_refunded line) ls))
                         (length ls)) as [Heq | Hne].
  - split; split; try done.
    + intros _. split; [done |]. now apply Hall.
    + intros H. exfalso. apply Hnone in H. rewrite H in Heq. done.
  - destruct (Nat.ltb_spec 0 (length (filter (λ line, is_refunded line) ls)))
      as [Hpos | Hzero].
    + split; split; try done.
      * intros [_ H]. apply Hall in H. done.
      * intros H. apply Hnone in H. lia.
    + split; split; try done.
      * intros [_ H]. apply Hall in H. done.
      * intros _. apply Hnone. lia.
Qed.

(** X20.  The refund status of the report against the status of the
    ledger.  The report computes the refund status of a row from its
    lines: [none] when no line is refunded, [full] when there is a line
    and every line is refunded, [partial] otherwise.  In a store the
    handlers can reach, a row that is [full] is a transaction whose status
    is [refunded], and a transaction whose status is [refunded] is never
    reported as [none]. *)
Theorem report_status_against_ledger (s : db) (limit : positive) (offset : nat)
    (row : report_row) :
  reachable s → row ∈ list_transactions s limit offset →
  (refundStatus row = full
   ↔ report_lines row ≠ []
     ∧ ∀ line, line ∈ report_lines row → is_Some (Line.refunded_by line.2))
  ∧ (refundStatus row = none
     ↔ ∀ line, line ∈ report_lines row → Line.refunded_by line.2 = None)
  ∧ (refundStatus row = full → Tx.status_of (report_tx row) = Tx.refunded)
  ∧ (Tx.status_of (report_tx row) = Tx.refunded → refundStatus row ≠ none).
Proof.
  intros Hr. rewrite list_transactions_unfold. intros H.
  apply list_elem_of_filter in H as [_ H].
  apply list_elem_of_fmap in H as ([t tx] & -> & H).
  apply elem_of_sales_page in H as (Ht & _ & _). simpl in *.
  destruct (refund_status_of_spec (lines_of s t)) as [Hfull Hnone].
  assert (∀ line : nat * Line.t,
            (is_refunded line = true ↔ is_Some (Line.refunded_by line.2))
            ∧ (is_refunded line = false ↔ Line.refunded_by line.2 = None))
    as Hrb.
  { intros line. unfold is_refunded.
    destruct (Line.refunded_by line.2); split; split; try done; eauto. }
  destruct (refunds_settled_reachable s Hr t tx Ht) as [HA HB].
  split; [| split; [| split]].
  - rewrite Hfull. split; intros [Hne H]; (split; [done |]);
      intros line Hin; apply Hrb, H, Hin.
  - rewrite Hnone. split; intros H line Hin; apply Hrb, H, Hin.
  - intros Hf. apply Hfull in Hf as [Hne Hall]. apply HA; [done |].
    intros k l Hk Hlt. apply (Hrb (k, l)), Hall. now apply elem_of_lines_of.
  - intros Hst Hn. destruct (HB Hst) as (k & l & Hk & Hlt & Hsome).
    rewrite Hnone in Hn.
    assert (is_refunded (k, l) = false) as Hf
      by (apply Hn; now apply elem_of_lines_of).
    apply (Hrb (k, l)) in Hf. simpl in Hf. rewrite Hf in Hsome.
    now destruct Hsome.
Qed.

Lemma report_status_against_ledger_witness :
  ∃ row, row ∈ list_transactions refunded_sale 50 0
         ∧ refundStatus row = full
         ∧ Tx.status_of (report_tx row) = Tx.refunded.
Proof.
  assert (reachable refunded_sale) as Hr.
  { unfold refunded_sale, paid_sale, open_sale.
    apply reachable_run, reachable_run, reachable_seed_run. }
  destruct (list_transactions refunded_sale 50 0) as [| row rows] eqn:E;
    [vm_compute in E; discriminate E |].
  assert (row ∈ list_transactions refunded_sale 50 0) as Hin
    by (rewrite E; left).
  assert (refundStatus row = full) as Hf.
  { pose proof E as E'. vm_compute in E'. now injection E' as <- _. }
  exists row. split; [left |]. split; [exact Hf |].
  apply (report_status_against_ledger refunded_sale 50 0 row Hr Hin), Hf.
Defined.

(** * The screens against the server *)

(** ** Trimming twice *)

Lemma trim_end_idemp (s : string) : trim_end (trim_end s) = trim_end s.
Proof.
  induction s as [| c s IH]; [done |]. simpl.
  destruct (trim_end s) as [| d t] eqn:E.
  - destruct (is_space c) eqn:Hc; [done |]. simpl. now rewrite Hc.
  - change (trim_end (String c (String d t)))
      with (match trim_end (String d t) with
            | EmptyString =>
                if is_space c then EmptyString else String c EmptyString
            | t' => String c t'
            end).
    rewrite IH. done.
Qed.

Lemma trim_start_head (s : string) (c : ascii) (r : string) :
  trim_start s = String c r → is_space c = false.
Proof.
  induction s as [| d s IH]; [done |]. simpl.
  destruct (is_space d) eqn:Hd; [done |]. now intros [= <- _].
Qed.

Lemma trim_end_head (c : ascii) (r : string) :
  is_space c = false → ∃ r', trim_end (String c r) = String c r'.
Proof.
  intros Hc. simpl. destruct (trim_end r); [rewrite Hc |]; eauto.
Qed.

Lemma trim_idemp (s : string) : trim (trim s) = trim s.
Proof.
  unfold trim. destruct (trim_start s) as [| c r] eqn:E; [done |].
  pose proof (trim_start_head s c r E) as Hc.
  destruct (trim_end_head c r Hc) as [r' Hr]. rewrite Hr.
  simpl trim_start. rewrite Hc. rewrite <- Hr. apply trim_end_idemp.
Qed.

(** X21.  What the till sends passes the input checks of the server.  A
    scan is sent only when the input is not blank, with the input trimmed
    and a quantity of 1; the server trims it again, which changes nothing,
    so the scan is answered as if the input had been sent as typed, and is
    never refused as a missing barcode or an invalid quantity.  A payment
    is sent only for a positive amount, so it is never refused as an
    invalid amount. *)
Theorem till_requests_pass_checks (s : db) (t : nat) :
  (∀ barcodeInput s' out,
     handleBarcodeSubmit s (Some t) barcodeInput = (s', Some out) →
     (s', out) = add_line s t barcodeInput (Some 1%Z)
     ∧ out ≠ Err BarcodeRequired ∧ out ≠ Err InvalidQuantity)
  ∧ (∀ cashAmount s' out,
       handleCashSubmit s t cashAmount = (s', Some out) →
       0 < cashAmount ∧ (s', out) = finalize s t cashAmount
       ∧ out ≠ Err InvalidCashAmount).
Proof.
  split.
  - intros input s' out. unfold handleBarcodeSubmit.
    case_bool_decide as Hb; [done |]. intros [= <- <-].
    assert (input ≠ EmptyString) as Hne by (intros ->; done).
    assert (add_line s t (trim input) (Some 1%Z) = add_line s t input (Some 1%Z))
      as ->.
    { unfold add_line. rewrite trim_idemp.
      rewrite !decide_False by done. done. }
    split; [now destruct (add_line s t input (Some 1%Z)) |].
    unfold add_line. rewrite decide_False by done. simpl.
    destruct (item_barcode s !! trim input) as [i |]; [| done].
    destruct (item s !! i) as [it |] eqn:Hit; [| done].
    destruct (negb _); [done |].
    unfold add_line_item. rewrite Hit.
    destruct (insert_line _ _) as [[lineId s1] |]; [| done].
    destruct (pos_transaction s1 !! t); [| done].
    now destruct (recompute_totals _) as [[a b] c].
  - intros c s' out. unfold handleCashSubmit.
    destruct (Qle_bool c 0) eqn:Hc; [done |]. intros [= <- <-].
    split. { apply Qnot_le_lt. rewrite <- Qle_bool_iff, Hc. done. }
    split; [now destruct (finalize s t c) |].
    unfold finalize. rewrite Hc.
    destruct (pos_transaction s !! t) as [tx |]; [| done].
    destruct (negb _); [done |]. now destruct (Qltb _ _).
Qed.

Lemma till_requests_pass_checks_witness :
  ∃ s' line tx,
    handleBarcodeSubmit open_sale (Some 1%nat) "  456 "
    = (s', Some (Ok (line, tx)))
    ∧ (s', Ok (line, tx)) = add_line open_sale 1 "  456 " (Some 1%Z).
Proof.
  destruct (handleBarcodeSubmit open_sale (Some 1%nat) "  456 ")
    as [s' [[[line tx] | e] |]] eqn:E;
    [| vm_compute in E; discriminate E | vm_compute in E; discriminate E].
  exists s', line, tx. split; [reflexivity |].
  apply (proj1 (till_requests_pass_checks open_sale 1) _ _ _ E).
Defined.

Lemma validBarcodes_trimmed (form : item_form) :
  trim <$> validBarcodes form = validBarcodes form
  ∧ ∀ b, b ∈ validBarcodes form
         ↔ b ≠ EmptyString ∧ ∃ b0, b0 ∈ form_barcodes form ∧ b = trim b0.
Proof.
  unfold validBarcodes. split.
  - induction (form_barcodes form) as [| b bs IH]; [done |].
    rewrite fmap_cons, filter_cons. case_decide; [| done].
    rewrite fmap_cons, trim_idemp. now f_equal.
  - intros b. rewrite list_elem_of_filter, list_elem_of_fmap.
    split; intros [H (b0 & H1 & H2)]; eauto.
Qed.

(** X22.  What the item form sends.  The form trims its barcodes and drops
    the blank ones; when none is left it sends nothing.  Otherwise the
    server, which trims them again, is handed barcodes that trimming leaves
    as they are: a request that succeeds answers with exactly the barcodes
    the form sent, none of them blank, and with the name trimmed once; and
    the server never refuses the form for a missing list of barcodes. *)
Theorem item_form_barcodes (s : db) (editingItem : option nat) (newId : nat)
    (form : item_form) (s' : db) (out : catalog_response item_view) :
  handleSubmit s editingItem newId form = (s', Some out) →
  validBarcodes form ≠ []
  ∧ out ≠ Refused BarcodeListRequired
  ∧ (editingItem = None → ∀ view, out = Done view →
       barcodes view = validBarcodes form
       ∧ Item.name (view_item view) = trim (form_name form)
       ∧ ∀ b, b ∈ validBarcodes form →
              b ≠ EmptyString ∧ barcode_lookup s' b = Ok newId)
  ∧ (∀ itemId view, editingItem = Some itemId → out = Done view →
       Item.name (view_item view) = trim (form_name form)
       ∧ ∀ b, b ∈ barcodes view ↔ b ∈ validBarcodes form).
Proof.
  unfold handleSubmit. case_bool_decide as Hv; [done |].
  destruct (validBarcodes_trimmed form) as [Htrim Hvalid].
  destruct editingItem as [itemId |]; intros [= <- <-].
  - split; [done |]. split.
    { unfold update_item. destruct (item s !! itemId); [| done]. simpl.
      rewrite bool_decide_eq_false_2 by done.
      now destruct (insert_barcodes _ _ _). }
    split; [done |]. intros itemId' view [= <-] Hout.
    destruct (update_item s itemId (payload form)) as [s' out] eqn:E.
    simpl in Hout. subst out.
    unfold update_item in E.
    destruct (item s !! itemId) as [it0 |] eqn:Hit; [| done]. simpl in E.
    rewrite bool_decide_eq_false_2 in E by done.
    destruct (insert_barcodes _ _ _) as [m |] eqn:Hins; [| done].
    injection E as <- <-. simpl. rewrite trim_idemp. split; [done |].
    intros b. rewrite elem_of_barcodes_of. simpl.
    apply insert_barcodes_Some in Hins as (_ & _ & Hm).
    rewrite Hm, Htrim. case_decide as Hd; [done |].
    rewrite delete_barcodes_lookup.
    destruct (item_barcode s !! b) as [j |]; [| done].
    case_decide; split; congruence.
  - split; [done |]. split.
    { unfold create_item. simpl. destruct (_ || _); [done |].
      destruct (item s !! newId); [done |].
      now destruct (insert_barcodes _ _ _). }
    split; [| done]. intros _ view Hout.
    destruct (create_item s newId (payload form)) as [s' out] eqn:E.
    simpl in Hout. subst out.
    apply create_item_Done in E
      as (name & price & bs & m & Hn & _ & _ & _ & Hb & _ & _ & Hins & -> & ->).
    simpl in Hn, Hb. injection Hn as <-. injection Hb as <-. simpl.
    rewrite trim_idemp, Htrim. split; [done |]. split; [done |].
    intros b Hin. assert (b ≠ EmptyString) as Hne by now apply Hvalid.
    split; [done |]. unfold barcode_lookup. simpl.
    apply insert_barcodes_Some in Hins as (_ & _ & Hm).
    rewrite decide_False, Hm, Htrim, decide_True, lookup_insert_eq by done.
    done.
Qed.

Lemma item_form_barcodes_witness :
  ∃ s' view,
    handleSubmit seed_db None 6
      (mk_item_form " Gum " (1 # 2) 0 5 [" 555 "%string; "  "%string])
    = (s', Some (Done view))
    ∧ barcodes view = ["555"%string]
    ∧ barcode_lookup s' "555" = Ok 6%nat.
Proof.
  destruct (handleSubmit seed_db None 6
              (mk_item_form " Gum " (1 # 2) 0 5 [" 555 "%string; "  "%string]))
    as [s' [[view | e] |]] eqn:E;
    [| vm_compute in E; discriminate E | vm_compute in E; discriminate E].
  destruct (item_form_barcodes _ _ _ _ _ _ E) as (_ & _ & Hc & _).
  destruct (Hc eq_refl view eq_refl) as (Hb & _ & Hl).
  exists s', view. split; [reflexivity |]. split.
  - rewrite Hb. vm_compute. reflexivity.
  - apply Hl. vm_compute. left.
Defined.

(** ** Receipts and the catalog *)

Lemma update_item_Done (s : db) (itemId : nat) (body : item_body) (s' : db)
    (view : item_view) :
  update_item s itemId body = (s', Done view) →
  ∃ it0, item s !! itemId = Some it0
         ∧ view_item view = update_fields body it0
         ∧ item s' = <[itemId := update_fields body it0]> (item s)
         ∧ pos_transaction s' = pos_transaction s
         ∧ transaction_line s' = transaction_line s.
Proof.
  unfold update_item.
  destruct (item s !! itemId) as [it0 |] eqn:Hit; [| done].
  destruct (body_barcodes body) as [bs |].
  - case_bool_decide; [done |].
    destruct (insert_barcodes _ _ _) as [m |]; [| done].
    intros [= <- <-]. exists it0. done.
  - intros [= <- <-]. exists it0. done.
Qed.

(** X23.  A receipt follows the names of the catalog and keeps its own
    prices.  After an item has been updated, a read of a transaction
    returns the same transaction row and the same lines, with the
    quantities, unit prices, tax rates and line totals they were written
    with, whatever the new price of the item is; the name shown on each
    line is the name the item has now. *)
Theorem receipt_after_update (s : db) (itemId : nat) (body : item_body)
    (s' : db) (view : item_view) (t : nat) (tx : Tx.t)
    (lines : list (nat * Line.t * option string)) :
  update_item s itemId body = (s', Done view) →
  get_transaction s t = Ok (tx, lines) →
  ∃ lines',
    get_transaction s' t = Ok (tx, lines')
    ∧ lines'.*1 = lines.*1
    ∧ (∀ line, line ∈ lines' → Line.item_id line.1.2 = itemId →
               line.2 = Some (Item.name (view_item view)))
    ∧ (∀ line, line ∈ lines' → Line.item_id line.1.2 ≠ itemId →
               line ∈ lines).
Proof.
  intros E Hg.
  apply update_item_Done in E as (it0 & Hit & Hv & Hi & Hp & Hl).
  unfold get_transaction in *. rewrite Hp.
  destruct (pos_transaction s !! t) as [tx0 |]; [| done].
  injection Hg as <- <-. rewrite (lines_of_core s s' t Hl).
  eexists. split; [done |]. split; [| split].
  - rewrite <- !list_fmap_compose. now apply list_fmap_ext.
  - intros line Hin Hid.
    apply list_elem_of_fmap in Hin as ([k l] & -> & Hin). simpl in *.
    rewrite Hi, Hid, lookup_insert_eq, Hv. done.
  - intros line Hin Hid.
    apply list_elem_of_fmap in Hin as ([k l] & -> & Hin). simpl in *.
    apply list_elem_of_fmap. exists (k, l). split; [| done].
    unfold with_item_name. simpl. now rewrite Hi, lookup_insert_ne.
Qed.

Lemma receipt_after_update_witness :
  ∃ s' view tx lines',
    update_item paid_sale 1
      (mk_item_body (Some "Cola Zero"%string) (Some 9) None None None)
    = (s', Done view)
    ∧ get_transaction s' 1 = Ok (tx, lines')
    ∧ (∀ line, line ∈ lines' →
               line.2 = Some "Cola Zero"%string
               ∧ Line.unit_price line.1.2 == 299 # 100).
Proof.
  destruct (update_item paid_sale 1
              (mk_item_body (Some "Cola Zero"%string) (Some 9) None None None))
    as [s' [view | e]] eqn:E; [| vm_compute in E; discriminate E].
  destruct (get_transaction paid_sale 1) as [[tx lines] | e] eqn:Hg;
    [| vm_compute in Hg; discriminate Hg].
  destruct (receipt_after_update _ _ _ _ _ _ _ _ E Hg)
    as (lines' & Hg' & Hsame & Hname & _).
  exists s', view, tx, lines'. split; [reflexivity |]. split; [exact Hg' |].
  assert (Item.name (view_item view) = "Cola Zero"%string) as Hn.
  { pose proof E as E'. vm_compute in E'. injection E' as _ <-. reflexivity. }
  assert (lines.*1 = [(1%nat, Line.mk 1 1 1 (299 # 100) (875 # 10000)
                                      (325162500 # 100000000) None)]) as Hls.
  { pose proof Hg as Hg0. vm_compute in Hg0. injection Hg0 as _ <-.
    vm_compute. reflexivity. }
  rewrite Hls in Hsame.
  intros line Hin.
  assert (line.1 ∈ lines'.*1) as Hin1.
  { apply list_elem_of_fmap. exists line. split; [reflexivity | exact Hin]. }
  rewrite Hsame in Hin1. apply list_elem_of_singleton in Hin1.
  split.
  - rewrite <- Hn. apply (Hname line Hin). now rewrite Hin1.
  - rewrite Hin1. reflexivity.
Defined.

(** ** One payment per settled transaction *)





(** ** The seed *)

(** Entering the catalog of [server/seed.js] through the API gives the
    seeded store. *)
Example seed_through_api : api_run (empty_db ∅ ∅ ∅) seed_requests = seed_db.
Proof. vm_compute. reflexivity. Qed.
